(** * AUTOSAR configuration utilities (server/autosar_utils.py) and the
      views that call them (server/app.py)

    A shallow embedding of the ARXML generation, validation and merge
    engine.  The lxml element trees that the Python code builds and mutates
    are kept in an explicit store: every element has an identity (its
    [uid]), [SubElement] allocates a fresh one under a parent, and [append]
    moves an existing element, as lxml does.  Exceptions are values of
    [exn]; a computation returns either an exception or a result, together
    with the store it leaves behind.

    The XML library itself (serialising a tree to text, parsing text into a
    tree) and the wall clock are not part of the program: they are the
    fields of the class [Externals], and every statement below holds for
    every implementation of that class. *)

From Stdlib Require Import String Ascii List ZArith Lia Bool Arith PeanoNat.
From Stdlib Require Import DecimalString HexadecimalString DecimalZ HexadecimalZ.
From Stdlib Require Import Permutation FinFun.
Import ListNotations.

Set Warnings "-register-all".
Local Open Scope list_scope.
Local Open Scope string_scope.

(* ===================================================================== *)
(** * Python builtins used by the module *)
(* ===================================================================== *)

Module Py.

(** [str(i)] for an integer. *)
Definition str (i : Z) : string :=
  DecimalString.NilZero.string_of_int (Z.to_int i).

(** The hexadecimal digits of a non-negative integer, lowercase. *)
Definition hex_digits (i : Z) : string :=
  HexadecimalString.NilZero.string_of_int (Z.to_hex_int i).

(** [hex(i)]: ['0x..'], or ['-0x..'] for a negative integer. *)
Definition hex (i : Z) : string :=
  if (i <? 0)%Z then "-0x" ++ hex_digits (- i) else "0x" ++ hex_digits i.

(** [range(n)] as the list it iterates over; empty when [n <= 0]. *)
Definition range (n : Z) : list Z := map Z.of_nat (seq 0 (Z.to_nat n)).

(** [s.endswith(suffix)]. *)
Definition endswith (s suffix : string) : bool :=
  let n := String.length s in
  let m := String.length suffix in
  (m <=? n)%nat && String.eqb (substring (n - m) m s) suffix.

(** [s.startswith(p)]. *)
Definition startswith (s p : string) : bool := prefix p s.

(** [needle in hay] for strings: [needle] occurs as a substring. *)
Fixpoint contains (needle hay : string) : bool :=
  prefix needle hay ||
  match hay with
  | EmptyString => false
  | String _ hay' => contains needle hay'
  end.

(** [sep.join(items)]. *)
Fixpoint join (sep : string) (items : list string) : string :=
  match items with
  | [] => ""
  | [x] => x
  | x :: rest => x ++ sep ++ join sep rest
  end.

(** [d.get(key, default)] on a dictionary given as its items. *)
Fixpoint dict_get {K V : Type} (eqb : K -> K -> bool)
    (d : list (K * V)) (key : K) (default : V) : V :=
  match d with
  | [] => default
  | (k, v) :: d' => if eqb k key then v else dict_get eqb d' key default
  end.

(** [l.count(x)]. *)
Definition count {A : Type} (eqb : A -> A -> bool) (l : list A) (x : A) : nat :=
  List.length (filter (eqb x) l).

(** [set(l)] as the list of its distinct members (first occurrences). *)
Fixpoint set_of {A : Type} (eqb : A -> A -> bool) (l : list A) : list A :=
  match l with
  | [] => []
  | x :: l' => x :: filter (fun y => negb (eqb x y)) (set_of eqb l')
  end.

(** A text is kept as the bytes of its UTF-8 encoding, one [ascii] for
    each byte. *)
Definition byte (c : ascii) : Z := Z.of_N (N_of_ascii c).

(** A byte that continues a character: 10xxxxxx. *)
Definition is_continuation (c : ascii) : bool :=
  (128 <=? byte c)%Z && (byte c <? 192)%Z.

(** [len(s)]: the number of characters. *)
Fixpoint len (s : string) : nat :=
  match s with
  | EmptyString => 0
  | String c rest => (if is_continuation c then 0 else 1) + len rest
  end.

End Py.

(** Equality on [elem.text] values ([None] or a string). *)
Definition text_eqb (a b : option string) : bool :=
  match a, b with
  | None, None => true
  | Some x, Some y => String.eqb x y
  | _, _ => false
  end.

(* ===================================================================== *)
(** * Exceptions *)
(* ===================================================================== *)

Inductive exn : Type :=
| KeyError (key : string)          (* params['missing'] *)
| XMLSyntaxError (msg : string)    (* etree.XMLSyntaxError *)
| TypeError (msg : string)         (* ', '.join of a non-string *)
| ValueError (msg : string)        (* lxml refusing a text *)
| UnicodeEncodeError (msg : string) (* s.encode('utf-8') of a surrogate *)
| OtherError (msg : string).       (* any other Exception *)

(** [str(e)]. *)
Definition exn_str (e : exn) : string :=
  match e with
  | KeyError key => "'" ++ key ++ "'"
  | XMLSyntaxError msg => msg
  | TypeError msg => msg
  | ValueError msg => msg
  | UnicodeEncodeError msg => msg
  | OtherError msg => msg
  end.

Definition is_syntax_error (e : exn) : bool :=
  match e with XMLSyntaxError _ => true | _ => false end.

(* ===================================================================== *)
(** * Texts that lxml accepts *)
(* ===================================================================== *)

(** A Python string can hold a lone surrogate (U+D800 .. U+DFFF), which
    UTF-8 does not encode; here it is kept as the three bytes ED, A0..BF,
    80..BF.  [surrogate_at s] is the code point of the surrogate that
    starts [s], if one does. *)
Definition surrogate_at (s : string) : option Z :=
  match s with
  | String c (String c1 (String c2 _)) =>
      if ((Py.byte c =? 237) && (160 <=? Py.byte c1)
          && (Py.byte c1 <? 192))%Z
      then Some (55296 + (Py.byte c1 - 160) * 64 + (Py.byte c2 - 128))%Z
      else None
  | _ => None
  end.

(** How many surrogates stand at the start of [s], one after the other. *)
Fixpoint surrogates_from (s : string) : nat :=
  match s with
  | String c (String c1 (String c2 rest)) =>
      if ((Py.byte c =? 237) && (160 <=? Py.byte c1)
          && (Py.byte c1 <? 192))%Z
      then S (surrogates_from rest)
      else 0
  | _ => 0
  end.

(** The first run of surrogates in a text: the index of its first
    character ([index] characters precede [s]), the length of the run and
    its first code point. *)
Fixpoint first_surrogate (s : string) (index : nat)
  : option (nat * nat * Z) :=
  match surrogate_at s with
  | Some cp => Some (index, surrogates_from s, cp)
  | None =>
      match s with
      | EmptyString => None
      | String c rest =>
          first_surrogate rest
            (if Py.is_continuation c then index else S index)
      end
  end.

(** [s.encode('utf-8')]: the bytes, or [UnicodeEncodeError] at the first
    run of surrogates. *)
Definition encode_utf8 (s : string) : exn + string :=
  match first_surrogate s 0 with
  | Some (i, run, cp) =>
      inl (UnicodeEncodeError
             (if (run =? 1)%nat
              then "'utf-8' codec can't encode character '\u"
                   ++ Py.hex_digits cp ++ "' in position "
                   ++ Py.str (Z.of_nat i) ++ ": surrogates not allowed"
              else "'utf-8' codec can't encode characters in position "
                   ++ Py.str (Z.of_nat i) ++ "-"
                   ++ Py.str (Z.of_nat (i + run - 1))
                   ++ ": surrogates not allowed"))
  | None => inr s
  end.

(** libxml2's [xmlIsChar_ch]: tab, line feed, carriage return, or a byte
    from the space on. *)
Definition xmlIsChar_ch (c : ascii) : bool :=
  ((9 <=? Py.byte c) && (Py.byte c <=? 10) || (Py.byte c =? 13)
   || (32 <=? Py.byte c))%Z.

(** lxml's [_is_valid_xml_utf8]: no NUL or control character, and none of
    the encodings of U+FFFE, U+FFFF and the surrogates. *)
Fixpoint is_valid_xml_utf8 (s : string) : bool :=
  match s with
  | EmptyString => true
  | String c rest =>
      (if (128 <=? Py.byte c)%Z
       then match rest with
            | String c1 (String c2 _) =>
                let next3 :=
                  (Py.byte c * 65536 + Py.byte c1 * 256 + Py.byte c2)%Z in
                negb ((next3 =? 15712190) || (next3 =? 15712191))%Z
                && negb ((15573120 <=? next3) && (next3 <=? 15581119))%Z
            | _ => true
            end
       else xmlIsChar_ch c)
      && is_valid_xml_utf8 rest
  end.

(** lxml's [_utf8], which every assignment to [.text] goes through: the
    string is encoded, then checked. *)
Definition lxml_utf8 (s : string) : exn + string :=
  match encode_utf8 s with
  | inl e => inl e
  | inr bytes =>
      if is_valid_xml_utf8 bytes then inr bytes
      else inl (ValueError
                  ("All strings must be XML compatible: Unicode or ASCII, "
                   ++ "no NULL bytes or control characters"))
  end.

(** The texts lxml accepts. *)
Definition xml_compatible (s : string) : bool :=
  match lxml_utf8 s with
  | inr _ => true
  | inl _ => false
  end.

(* ===================================================================== *)
(** * Element trees and the object store *)
(* ===================================================================== *)

(** What an element carries besides its children.  [tag] is in lxml's
    notation: ["name"], or ["{uri}name"] for a namespaced element.  [nsmap]
    maps prefixes ([None] is the default namespace) to URIs. *)
Record edata : Type := mk_edata {
  tag : string;
  nsmap : list (option string * string);
  attrib : list (string * string);
  text : option string
}.

(** An element: its identity, its data, its children in document order. *)
Inductive element : Type :=
| Elem (uid : nat) (d : edata) (children : list element).

Definition uid_of (e : element) : nat := match e with Elem u _ _ => u end.
Definition data_of (e : element) : edata := match e with Elem _ d _ => d end.
Definition children_of (e : element) : list element :=
  match e with Elem _ _ ch => ch end.
Definition tag_of (e : element) : string := tag (data_of e).
Definition text_of (e : element) : option string := text (data_of e).

(** Induction over elements with the hypothesis for every child. *)
Lemma element_ind' (P : element -> Prop) :
  (forall u d ch, Forall P ch -> P (Elem u d ch)) -> forall e, P e.
Proof.
  intros H. fix IH 1. intros [u d ch]. apply H.
  induction ch as [|c ch IHch]; constructor; [apply IH | exact IHch].
Qed.

(** All proper descendants, in document order ([elem.iterdescendants()]). *)
Fixpoint descendants (e : element) : list element :=
  match e with
  | Elem _ _ ch => flat_map (fun c => c :: descendants c) ch
  end.

(** The element and all its descendants ([elem.iter()]). *)
Definition subtree (e : element) : list element := e :: descendants e.

(** Every identity occurring in a tree, and in a list of trees. *)
Definition uids (e : element) : list nat := map uid_of (subtree e).
Definition forest_uids (l : list element) : list nat := flat_map uids l.

(** [root.findall(".//" + t)]: the descendants whose tag is [t]. *)
Definition findall_desc (t : string) (root : element) : list element :=
  filter (fun e => String.eqb (tag_of e) t) (descendants root).

(** [root.findall(".//*")]. *)
Definition findall_star (root : element) : list element := descendants root.

(** [parent.find(t)]: the first child whose tag is [t]. *)
Definition find_child (t : string) (parent : element) : option element :=
  List.find (fun e => String.eqb (tag_of e) t) (children_of parent).

(** Search the trees of a list in order with [look], the search of one
    tree. *)
Definition lookup_in (look : element -> option element)
  : list element -> option element :=
  fix go (l : list element) : option element :=
    match l with
    | [] => None
    | c :: l' =>
        match look c with
        | Some r => Some r
        | None => go l'
        end
    end.

(** The element with identity [u] in a tree (first in document order). *)
Fixpoint lookup (u : nat) (e : element) : option element :=
  match e with
  | Elem v d ch => if (v =? u)%nat then Some e else lookup_in (lookup u) ch
  end.

Definition lookup_forest (u : nat) (l : list element) : option element :=
  lookup_in (lookup u) l.

(** Append [c] as the last child of the element with identity [p]. *)
Fixpoint add_child (p : nat) (c : element) (e : element) : element :=
  match e with
  | Elem u d ch =>
      Elem u d (map (add_child p c) ch ++ (if (u =? p)%nat then [c] else []))
  end.

(** Take the element with identity [u] out of a list of trees: the list is
    searched in document order, the first hit is removed from where it
    stands and returned with what remains.  [ex] takes it out of one
    tree. *)
Definition extract_in (ex : element -> option (element * element)) (u : nat)
  : list element -> option (element * list element) :=
  fix go (l : list element) : option (element * list element) :=
    match l with
    | [] => None
    | c :: l' =>
        if (uid_of c =? u)%nat then Some (c, l')
        else match ex c with
             | Some (sub, c') => Some (sub, c' :: l')
             | None =>
                 match go l' with
                 | Some (sub, l'') => Some (sub, c :: l'')
                 | None => None
                 end
             end
    end.

Fixpoint extract (u : nat) (e : element) : option (element * element) :=
  match e with
  | Elem v d ch =>
      match extract_in (extract u) u ch with
      | Some (sub, ch') => Some (sub, Elem v d ch')
      | None => None
      end
  end.

Definition extract_forest (u : nat) (l : list element)
  : option (element * list element) :=
  extract_in (extract u) u l.

(** Give every element of a parsed tree a fresh identity, in document
    order, starting at [n]; returns the next free identity.  [rel] does it
    for one tree. *)
Definition relabel_in (rel : nat -> element -> element * nat)
  : nat -> list element -> list element * nat :=
  fix go (m : nat) (l : list element) : list element * nat :=
    match l with
    | [] => ([], m)
    | c :: l' =>
        let '(c', m') := rel m c in
        let '(l'', m'') := go m' l' in
        (c' :: l'', m'')
    end.

Fixpoint relabel (n : nat) (e : element) : element * nat :=
  match e with
  | Elem _ d ch =>
      let '(ch', n') := relabel_in relabel (S n) ch in
      (Elem n d ch', n')
  end.

(** Log records of the module's [logger]. *)
Inductive level : Type := INFO | WARNING.

(** The store: the next free identity, the trees that exist (each listed by
    its root), and what has been logged so far. *)
Record store : Type := mk_store {
  next_uid : nat;
  docs : list element;
  logged : list (level * string)
}.

Definition new_store : store := mk_store 0 [] [].

(* ===================================================================== *)
(** * Computations: a store and exceptions *)
(* ===================================================================== *)

(** A computation runs on a state and yields an exception or a result,
    and the state as it stands at that point. *)
Definition comp (S A : Type) : Type := S -> (exn + A) * S.

Definition ret {S A : Type} (a : A) : comp S A := fun s => (inr a, s).

Definition bind {S A B : Type} (m : comp S A) (k : A -> comp S B)
  : comp S B :=
  fun s =>
    match m s with
    | (inr a, s') => k a s'
    | (inl e, s') => (inl e, s')
    end.

Definition raise {S A : Type} (e : exn) : comp S A := fun s => (inl e, s).

(** [try: body  except Exception as e: handler(e)]. *)
Definition try_except {S A : Type} (body : comp S A)
    (handler : exn -> comp S A) : comp S A :=
  fun s =>
    match body s with
    | (inr a, s') => (inr a, s')
    | (inl e, s') => handler e s'
    end.

(** [if cond: body]. *)
Definition when {S : Type} (cond : bool) (body : comp S unit) : comp S unit :=
  if cond then body else ret tt.

Declare Scope comp_scope.
Delimit Scope comp_scope with comp.
Notation "x <- c1 ;; c2" := (bind c1 (fun x => c2))
  (at level 100, c1 at next level, right associativity) : comp_scope.
Notation "c1 ;; c2" := (bind c1 (fun _ => c2))
  (at level 100, right associativity) : comp_scope.
Local Open Scope comp_scope.

(** Computations on the object store. *)
Definition M (A : Type) : Type := comp store A.

(** [for x in l: body(x)]. *)
Fixpoint for_each {S A : Type} (l : list A) (body : A -> comp S unit)
  : comp S unit :=
  match l with
  | [] => ret tt
  | x :: l' => body x ;; for_each l' body
  end.

(** [params[key]]: the value, or [KeyError] when the key is absent. *)
Definition item {S A : Type} (key : string) (field : option A) : comp S A :=
  match field with
  | Some v => ret v
  | None => raise (KeyError key)
  end.

(** [params.get(key, default)]. *)
Definition get_default {A : Type} (field : option A) (default : A) : A :=
  match field with
  | Some v => v
  | None => default
  end.

Definition log_info (msg : string) : M unit :=
  fun s => (inr tt, mk_store (next_uid s) (docs s) (logged s ++ [(INFO, msg)])).

Definition log_warning (msg : string) : M unit :=
  fun s =>
    (inr tt, mk_store (next_uid s) (docs s) (logged s ++ [(WARNING, msg)])).

(* ===================================================================== *)
(** * The lxml operations the module calls *)
(* ===================================================================== *)

(** A [datetime]. *)
Record datetime : Type := mk_datetime {
  year : Z;
  month : Z;
  day : Z;
  hour : Z;
  minute : Z;
  second : Z
}.

(** A number in at least [width] digits, zeros first. *)
Definition zero_padded (width : nat) (n : Z) : string :=
  let digits := Py.str n in
  Py.join "" (repeat "0" (width - String.length digits)) ++ digits.

(** [d.strftime('%Y-%m-%dT%H:%M:%S')]. *)
Definition strftime (d : datetime) : string :=
  zero_padded 4 (year d) ++ "-" ++ zero_padded 2 (month d) ++ "-"
  ++ zero_padded 2 (day d) ++ "T" ++ zero_padded 2 (hour d) ++ ":"
  ++ zero_padded 2 (minute d) ++ ":" ++ zero_padded 2 (second d).

(** What the program takes from outside: lxml's serialiser and parser and
    the clock.  [etree_fromstring s] stands for
    [etree.fromstring(s.encode('utf-8'))], [utcnow] for
    [datetime.utcnow()]. *)
Class Externals : Type := {
  etree_tostring : element -> string;
  etree_fromstring : string -> exn + element;
  utcnow : datetime
}.

(** [datetime.utcnow().strftime('%Y-%m-%dT%H:%M:%S')]. *)
Definition utcnow_strftime {ext : Externals} : string := strftime utcnow.

(** [etree.Element(tag, nsmap=.., attrib=..)]: a new tree. *)
Definition Element (t : string) (ns : list (option string * string))
    (at_ : list (string * string)) : M nat :=
  fun s =>
    let u := next_uid s in
    (inr u, mk_store (S u) (docs s ++ [Elem u (mk_edata t ns at_ None) []])
                     (logged s)).

(** The store after [etree.SubElement(parent, tag)], the new element
    having the text [txt]. *)
Definition with_child (s : store) (parent : nat) (t : string)
    (txt : option string) : store :=
  mk_store (S (next_uid s))
           (map (add_child parent
                   (Elem (next_uid s) (mk_edata t [] [] txt) []))
                (docs s))
           (logged s).

(** [etree.SubElement(parent, tag)], with [.text = v] when the source
    assigns the text of the new element at once ([txt = Some v]).  The
    element is made and attached first; the assignment then raises when
    lxml refuses the text, and the element stays without text. *)
Definition SubElement (parent : nat) (t : string) (txt : option string)
  : M nat :=
  fun s =>
    match txt with
    | None => (inr (next_uid s), with_child s parent t None)
    | Some v =>
        match lxml_utf8 v with
        | inr _ => (inr (next_uid s), with_child s parent t (Some v))
        | inl e => (inl e, with_child s parent t None)
        end
    end.

(** [parent.find(tag)]: the identity of the first matching child. *)
Definition find (parent : nat) (t : string) : M (option nat) :=
  fun s =>
    (inr match lookup_forest parent (docs s) with
         | Some p => option_map uid_of (find_child t p)
         | None => None
         end, s).

(** [root.findall(".//" + tag)]: the identities of the matching
    descendants, in document order. *)
Definition findall (root : nat) (t : string) : M (list nat) :=
  fun s =>
    (inr match lookup_forest root (docs s) with
         | Some r => map uid_of (findall_desc t r)
         | None => []
         end, s).

(** [parent.append(child)]: [child] leaves the place where it stands and
    becomes the last child of [parent]. *)
Definition append (parent child : nat) : M unit :=
  fun s =>
    match extract_forest child (docs s) with
    | Some (sub, rest) =>
        (inr tt, mk_store (next_uid s) (map (add_child parent sub) rest)
                          (logged s))
    | None => (inr tt, s)
    end.

Section WithExternals.
Context {ext : Externals}.

(** [etree.fromstring(text.encode('utf-8'))]: the parsed tree enters the
    store with fresh identities; a parser exception is raised as it is. *)
Definition fromstring (content : string) : M nat :=
  fun s =>
    match etree_fromstring content with
    | inl e => (inl e, s)
    | inr t =>
        let '(t', n') := relabel (next_uid s) t in
        (inr (next_uid s), mk_store n' (docs s ++ [t']) (logged s))
    end.

(** The tree a handle stands for, as the serialiser sees it. *)
Definition tree_of (s : store) (root : nat) : element :=
  match lookup_forest root (docs s) with
  | Some t => t
  | None => Elem root (mk_edata "" [] [] None) []
  end.

(* ===================================================================== *)
(** * class ARXMLGenerator *)
(* ===================================================================== *)

Definition AUTOSAR_NS : string := "http://autosar.org/schema/r4.0".
Definition XSI_NS : string := "http://www.w3.org/2001/XMLSchema-instance".

Definition NAMESPACES : list (option string * string) :=
  [ (None, AUTOSAR_NS); (Some "xsi", XSI_NS) ].

Definition SCHEMA_LOCATIONS : list (string * string) :=
  [ ("4.0.3", "AUTOSAR_4-0-3.xsd");
    ("4.2.2", "AUTOSAR_4-2-2.xsd");
    ("4.3.1", "AUTOSAR_00048.xsd");
    ("4.4.0", "AUTOSAR_00050.xsd") ].

Record ARXMLGenerator : Type := mk_generator {
  version : string;
  schema_location : string
}.

(** [ARXMLGenerator.__init__]. *)
Definition ARXMLGenerator_init (autosar_version : string) : ARXMLGenerator :=
  mk_generator autosar_version
    (Py.dict_get String.eqb SCHEMA_LOCATIONS autosar_version
                 "AUTOSAR_4-2-2.xsd").

(** [ARXMLGenerator.create_root]. *)
Definition create_root (self : ARXMLGenerator) : M nat :=
  Element "AUTOSAR" NAMESPACES
    [ ("{http://www.w3.org/2001/XMLSchema-instance}schemaLocation",
       ("http://autosar.org/schema/r4.0 " ++ schema_location self)%string) ].

(** [ARXMLGenerator.add_admin_data]. *)
Definition add_admin_data (self : ARXMLGenerator) (parent : nat)
    (doc_revision : string) : M nat :=
  admin_data <- SubElement parent "ADMIN-DATA" None ;;
  doc_revisions <- SubElement admin_data "DOC-REVISIONS" None ;;
  doc_revision_elem <- SubElement doc_revisions "DOC-REVISION" None ;;
  SubElement doc_revision_elem "REVISION-LABEL" (Some doc_revision) ;;
  SubElement doc_revision_elem "DATE" (Some utcnow_strftime) ;;
  ret admin_data.

(** [ARXMLGenerator.create_ar_package]. *)
Definition create_ar_package (self : ARXMLGenerator) (parent : nat)
    (short_name : string) : M nat :=
  found <- find parent "AR-PACKAGES" ;;
  ar_packages <- match found with
                 | None => SubElement parent "AR-PACKAGES" None
                 | Some a => ret a
                 end ;;
  ar_package <- SubElement ar_packages "AR-PACKAGE" None ;;
  SubElement ar_package "SHORT-NAME" (Some short_name) ;;
  ret ar_package.

(** [ARXMLGenerator.to_string] (always called with [pretty_print=True]). *)
Definition to_string (self : ARXMLGenerator) (root : nat) : M string :=
  fun s => (inr (etree_tostring (tree_of s root)), s).

(* ===================================================================== *)
(** * calculate_can_timing *)
(* ===================================================================== *)

Record timing : Type := mk_timing {
  prop_seg : Z;
  phase_seg1 : Z;
  phase_seg2 : Z;
  sjw : Z
}.

Definition timing_configs : list (Z * timing) :=
  [ (125%Z,  mk_timing 6 7 2 1);
    (250%Z,  mk_timing 6 7 2 1);
    (500%Z,  mk_timing 6 7 2 1);
    (1000%Z, mk_timing 5 6 2 1) ].

(** [timing_configs[500]]: the entry is in the table. *)
Definition timing_configs_500 : timing :=
  Py.dict_get Z.eqb timing_configs 500%Z (mk_timing 0 0 0 0).

Definition calculate_can_timing (baudrate_kbps : Z) : timing :=
  Py.dict_get Z.eqb timing_configs baudrate_kbps timing_configs_500.

(* ===================================================================== *)
(** * generate_can_config *)
(* ===================================================================== *)

(** The [params] dictionary of [generate_can_config]; an absent key is
    [None]. *)
Record can_params : Type := mk_can_params {
  ecuType : option string;
  baudrate : option Z;
  messageObjects : option Z;
  errorHandling : option bool;
  wakeupSupport : option bool
}.

(** The values the input schema of the generateCanConfig tool allows
    (TOOLS in server/app.py). *)
Definition ECU_TYPES : list string :=
  ["powertrain"; "body"; "chassis"; "telematics"; "gateway"].

Definition BAUDRATES : list Z := [125; 250; 500; 1000]%Z.

(** The body of the loop over the message objects. *)
Definition can_message_object (can_controller : nat) (i : Z) : M unit :=
  msg_obj <- SubElement can_controller "CAN-HW-OBJECT" None ;;
  SubElement msg_obj "SHORT-NAME" (Some ("CanHwObject_" ++ Py.str i)) ;;
  SubElement msg_obj "OBJECT-TYPE"
             (Some (if (i mod 2 =? 0)%Z then "TRANSMIT" else "RECEIVE")) ;;
  SubElement msg_obj "ID-TYPE" (Some "STANDARD") ;;
  SubElement msg_obj "CAN-OBJECT-ID" (Some (Py.str (256 + i))) ;;
  ret tt.

Definition generate_can_config (params : can_params) : M string :=
  ecu <- item "ecuType" (ecuType params) ;;
  baud <- item "baudrate" (baudrate params) ;;
  log_info ("Generating CAN config for " ++ ecu ++ " ECU at "
            ++ Py.str baud ++ " kbps") ;;
  (* Initialize ARXML generator *)
  let generator := ARXMLGenerator_init "4.2.2" in
  root <- create_root generator ;;
  add_admin_data generator root "1.0.0" ;;
  (* Create package structure *)
  can_package <- create_ar_package generator root "CanConfiguration" ;;
  elements <- SubElement can_package "ELEMENTS" None ;;
  (* Create CAN controller configuration *)
  can_controller <- SubElement elements "CAN-CONTROLLER" None ;;
  ecu <- item "ecuType" (ecuType params) ;;
  SubElement can_controller "SHORT-NAME" (Some ("CanController_" ++ ecu)) ;;
  (* Baudrate configuration *)
  baudrate_config <-
    SubElement can_controller "CAN-CONTROLLER-BAUDRATE-CONFIG" None ;;
  baud <- item "baudrate" (baudrate params) ;;
  SubElement baudrate_config "BAUDRATE" (Some (Py.str (baud * 1000))) ;;
  baud <- item "baudrate" (baudrate params) ;;
  let timing_params := calculate_can_timing baud in
  SubElement baudrate_config "PROP-SEG"
             (Some (Py.str (prop_seg timing_params))) ;;
  SubElement baudrate_config "PHASE-SEG1"
             (Some (Py.str (phase_seg1 timing_params))) ;;
  SubElement baudrate_config "PHASE-SEG2"
             (Some (Py.str (phase_seg2 timing_params))) ;;
  SubElement baudrate_config "SYNC-JUMP-WIDTH"
             (Some (Py.str (sjw timing_params))) ;;
  (* Message object configuration *)
  count <- item "messageObjects" (messageObjects params) ;;
  for_each (Py.range count) (can_message_object can_controller) ;;
  (* Error handling configuration *)
  when (get_default (errorHandling params) true) (
    error_config <- SubElement can_controller "CAN-ERROR-HANDLING" None ;;
    SubElement error_config "BUS-OFF-RECOVERY" (Some "AUTOMATIC") ;;
    SubElement error_config "ERROR-PASSIVE-MODE" (Some "ENABLED") ;;
    SubElement error_config "ERROR-WARNING-THRESHOLD" (Some "96") ;;
    ret tt) ;;
  (* Wakeup support *)
  when (get_default (wakeupSupport params) false) (
    wakeup_config <- SubElement can_controller "CAN-WAKEUP-SUPPORT" None ;;
    SubElement wakeup_config "WAKEUP-ENABLED" (Some "true") ;;
    SubElement wakeup_config "WAKEUP-FILTER-ENABLED" (Some "true") ;;
    ret tt) ;;
  to_string generator root.

(* ===================================================================== *)
(** * generate_nvm_config *)
(* ===================================================================== *)

Record nvm_params : Type := mk_nvm_params {
  blockCount : option Z;
  blockSize : option Z;
  writeStrategy : option string;
  crcProtection : option bool;
  redundancy : option bool;
  wearLeveling : option bool
}.

(** The values the input schema of the generateNvmConfig tool allows. *)
Definition WRITE_STRATEGIES : list string :=
  ["immediate"; "deferred"; "triggered"].

Definition write_strategy_map : list (string * string) :=
  [ ("immediate", "NVM_WRITE_BLOCK_ONCE");
    ("deferred", "NVM_WRITE_BLOCK_CYCLIC");
    ("triggered", "NVM_WRITE_BLOCK_TRIGGERED") ].

(** The body of the loop over the blocks. *)
Definition nvm_block (params : nvm_params) (blocks_container : nat) (i : Z)
  : M unit :=
  block <- SubElement blocks_container "NVM-BLOCK" None ;;
  SubElement block "SHORT-NAME" (Some ("NvMBlock_" ++ Py.str i)) ;;
  SubElement block "NVM-BLOCK-ID" (Some (Py.str (i + 1))) ;;
  size <- item "blockSize" (blockSize params) ;;
  SubElement block "NVM-BLOCK-LENGTH" (Some (Py.str size)) ;;
  (* Write strategy *)
  strategy <- item "writeStrategy" (writeStrategy params) ;;
  SubElement block "NVM-WRITE-STRATEGY"
    (Some (Py.dict_get String.eqb write_strategy_map strategy
                       "NVM_WRITE_BLOCK_CYCLIC")) ;;
  (* CRC protection *)
  when (get_default (crcProtection params) true) (
    crc_config <- SubElement block "NVM-BLOCK-CRC-TYPE" None ;;
    SubElement crc_config "CRC-TYPE" (Some "NVM_CRC_16") ;;
    ret tt) ;;
  (* Redundancy *)
  when (get_default (redundancy params) false) (
    redundancy_config <- SubElement block "NVM-REDUNDANCY" None ;;
    SubElement redundancy_config "REDUNDANT-BLOCK-COUNT" (Some "1") ;;
    ret tt) ;;
  (* Storage location (simulated EEPROM) *)
  storage <- SubElement block "NVM-BLOCK-STORAGE" None ;;
  SubElement storage "STORAGE-DEVICE" (Some "EEPROM") ;;
  size <- item "blockSize" (blockSize params) ;;
  SubElement storage "STORAGE-ADDRESS" (Some (Py.hex (i * size))) ;;
  ret tt.

Definition generate_nvm_config (params : nvm_params) : M string :=
  count <- item "blockCount" (blockCount params) ;;
  size <- item "blockSize" (blockSize params) ;;
  log_info ("Generating NvM config with " ++ Py.str count ++ " blocks of "
            ++ Py.str size ++ " bytes") ;;
  (* Initialize ARXML generator *)
  let generator := ARXMLGenerator_init "4.2.2" in
  root <- create_root generator ;;
  add_admin_data generator root "1.0.0" ;;
  (* Create package structure *)
  nvm_package <- create_ar_package generator root "NvMConfiguration" ;;
  elements <- SubElement nvm_package "ELEMENTS" None ;;
  (* Create NvM configuration container *)
  nvm_config <- SubElement elements "NVM-BLOCK-DESCRIPTOR" None ;;
  SubElement nvm_config "SHORT-NAME" (Some "NvMBlockConfiguration") ;;
  (* Generate individual blocks *)
  blocks_container <- SubElement nvm_config "NVM-BLOCKS" None ;;
  count <- item "blockCount" (blockCount params) ;;
  for_each (Py.range count) (nvm_block params blocks_container) ;;
  (* Wear leveling configuration *)
  when (get_default (wearLeveling params) true) (
    wear_config <- SubElement nvm_config "NVM-WEAR-LEVELING" None ;;
    SubElement wear_config "WEAR-LEVELING-ENABLED" (Some "true") ;;
    SubElement wear_config "WEAR-LEVELING-THRESHOLD" (Some "1000") ;;
    ret tt) ;;
  to_string generator root.

(* ===================================================================== *)
(** * validate_arxml *)
(* ===================================================================== *)

(** The returned dictionary. *)
Record report : Type := mk_report {
  valid : bool;
  errors : list string;
  warnings : list string;
  recommendations : list string;
  elementCount : nat
}.

(** The local variables of [validate_arxml] that outlive the [try] block:
    the three lists and the binding of [root] ([None] while unbound). *)
Record locals : Type := mk_locals {
  l_errors : list string;
  l_warnings : list string;
  l_recommendations : list string;
  l_root : option element
}.

Definition errors_append (msg : string) : comp locals unit :=
  fun l => (inr tt, mk_locals (l_errors l ++ [msg]) (l_warnings l)
                              (l_recommendations l) (l_root l)).

Definition warnings_append (msg : string) : comp locals unit :=
  fun l => (inr tt, mk_locals (l_errors l) (l_warnings l ++ [msg])
                              (l_recommendations l) (l_root l)).

Definition recommendations_append (msg : string) : comp locals unit :=
  fun l => (inr tt, mk_locals (l_errors l) (l_warnings l)
                              (l_recommendations l ++ [msg]) (l_root l)).

(** [root = etree.fromstring(...)]: binds [root], or raises. *)
Definition bind_root (content : string) : comp locals element :=
  fun l =>
    match etree_fromstring content with
    | inl e => (inl e, l)
    | inr r => (inr r, mk_locals (l_errors l) (l_warnings l)
                                 (l_recommendations l) (Some r))
    end.

Definition is_empty {A : Type} (l : list A) : bool :=
  match l with [] => true | _ => false end.

(** [', '.join(names)] where a name may be [None]: joining a [None] is a
    [TypeError] naming the position of the first one. *)
Fixpoint first_none (names : list (option string)) (i : nat) : option nat :=
  match names with
  | [] => None
  | None :: _ => Some i
  | Some _ :: rest => first_none rest (S i)
  end.

Fixpoint somes (names : list (option string)) : list string :=
  match names with
  | [] => []
  | Some x :: rest => x :: somes rest
  | None :: rest => somes rest
  end.

Definition join_names {S : Type} (sep : string) (names : list (option string))
  : comp S string :=
  match first_none names 0 with
  | Some i =>
      raise (TypeError ("sequence item " ++ Py.str (Z.of_nat i)
                        ++ ": expected str instance, NoneType found"))
  | None => ret (Py.join sep (somes names))
  end.

(** The body of the [try] block. *)
Definition validate_body (arxml_content : string) : comp locals unit :=
  (* Parse XML *)
  root <- bind_root arxml_content ;;
  (* Check for required root element *)
  when (negb (String.eqb (tag_of root) "AUTOSAR")
        && negb (Py.endswith (tag_of root) "}AUTOSAR"))
       (errors_append "Root element must be <AUTOSAR>") ;;
  (* Check for AR-PACKAGES *)
  let ar_packages :=
    findall_desc "{http://autosar.org/schema/r4.0}AR-PACKAGES" root in
  when (is_empty ar_packages && is_empty (findall_desc "AR-PACKAGES" root))
       (warnings_append "No AR-PACKAGES found in configuration") ;;
  (* Validate namespace *)
  when (negb (Py.contains "http://autosar.org/schema/r4.0"
                (Py.dict_get text_eqb (nsmap (data_of root)) None "")))
       (warnings_append "Standard AUTOSAR namespace not declared") ;;
  (* Check for SHORT-NAME uniqueness (simplified check) *)
  let short_names :=
    map text_of
        (findall_desc "{http://autosar.org/schema/r4.0}SHORT-NAME" root) in
  let short_names :=
    if is_empty short_names
    then map text_of (findall_desc "SHORT-NAME" root)
    else short_names in
  let duplicates :=
    Py.set_of text_eqb
      (filter (fun name => (1 <? Py.count text_eqb short_names name)%nat)
              short_names) in
  when (negb (is_empty duplicates)) (
    joined <- join_names ", " duplicates ;;
    warnings_append ("Duplicate SHORT-NAMEs found: " ++ joined)) ;;
  (* Recommendations *)
  when (Py.len arxml_content <? 500)%nat
       (recommendations_append
          "Configuration seems minimal; consider adding more modules") ;;
  recommendations_append
    "Consider adding ADMIN-DATA section with revision history" ;;
  recommendations_append
    "Verify parameter values against ECU hardware specifications".

(** The [try] block with its two handlers. *)
Definition validate_try (arxml_content : string) : comp locals unit :=
  try_except (validate_body arxml_content) (fun e =>
    match e with
    | XMLSyntaxError _ => errors_append ("XML syntax error: " ++ exn_str e)
    | _ => errors_append ("Validation error: " ++ exn_str e)
    end).

(** [validate_arxml(arxml_content, autosar_version)]: the outcome of the
    call, an exception or the report.  The version is only logged. *)
Definition validate_arxml (arxml_content : string) (autosar_version : string)
  : exn + report :=
  match validate_try arxml_content (mk_locals [] [] [] None) with
  | (inl e, _) => inl e
  | (inr _, l) =>
      inr (mk_report (is_empty (l_errors l))
                     (l_errors l) (l_warnings l) (l_recommendations l)
                     (match l_root l with
                      | Some root => List.length (findall_star root)
                      | None => 0
                      end))
  end.

(* ===================================================================== *)
(** * merge_configurations *)
(* ===================================================================== *)

(** One entry of [modules]: a dictionary with the keys ['type'] and
    ['arxml'], either of which may be absent. *)
Record module_config : Type := mk_module {
  m_type : option string;
  m_arxml : option string
}.

(** What the loop of [merge_configurations] does with one module. *)
Definition merge_module (ecu_package : nat) (module : module_config)
  : M unit :=
  let module_type := get_default (m_type module) "Unknown" in
  let module_arxml := get_default (m_arxml module) "" in
  if String.eqb module_arxml "" then ret tt (* continue *)
  else
    try_except (
      (* Parse module ARXML *)
      module_root <- fromstring module_arxml ;;
      (* Find AR-PACKAGES in module *)
      module_packages <-
        findall module_root "{http://autosar.org/schema/r4.0}AR-PACKAGE" ;;
      module_packages <-
        (if is_empty module_packages
         then findall module_root "AR-PACKAGE"
         else ret module_packages) ;;
      (* Append to main configuration *)
      for_each module_packages (fun pkg => append ecu_package pkg))
    (fun e =>
      log_warning ("Failed to merge module " ++ module_type ++ ": "
                   ++ exn_str e)).

Definition merge_configurations (modules : list module_config)
    (project_name ecu_name : string) : M string :=
  log_info ("Merging " ++ Py.str (Z.of_nat (List.length modules))
            ++ " modules for project " ++ project_name) ;;
  (* Initialize generator *)
  let generator := ARXMLGenerator_init "4.2.2" in
  root <- create_root generator ;;
  add_admin_data generator root "1.0.0" ;;
  (* Create main ECU package *)
  ecu_package <- create_ar_package generator root project_name ;;
  (* Add ECU description *)
  elements <- SubElement ecu_package "ELEMENTS" None ;;
  ecu_instance <- SubElement elements "ECU-INSTANCE" None ;;
  SubElement ecu_instance "SHORT-NAME" (Some ecu_name) ;;
  (* Merge each module *)
  for_each modules (merge_module ecu_package) ;;
  to_string generator root.

End WithExternals.

(* ===================================================================== *)
(** * A reference XML reader and writer *)
(* ===================================================================== *)

(** A small implementation of [Externals], used to run the program on
    concrete documents.  The writer prints a tree the way lxml's
    pretty-printer lays it out; the reader handles the XML declaration,
    comments, elements, attributes, namespace declarations, character data
    and the five predefined entities. *)
Module RefXml.

Definition drop (n : nat) (s : string) : string :=
  substring n (String.length s - n) s.

Definition is_space (c : ascii) : bool :=
  Ascii.eqb c " " || Ascii.eqb c "009" || Ascii.eqb c "010" || Ascii.eqb c "013".

Fixpoint all_space (s : string) : bool :=
  match s with
  | EmptyString => true
  | String c s' => is_space c && all_space s'
  end.

Definition is_name_char (c : ascii) : bool :=
  negb (is_space c || Ascii.eqb c ">" || Ascii.eqb c "/" || Ascii.eqb c "="
        || Ascii.eqb c "<").

(** The longest prefix whose characters satisfy [p], and the rest. *)
Fixpoint span (p : ascii -> bool) (s : string) : string * string :=
  match s with
  | EmptyString => ("", "")
  | String c s' =>
      if p c then let (a, b) := span p s' in (String c a, b) else ("", s)
  end.

(** What follows the first occurrence of [pat]. *)
Fixpoint skip_past (pat : string) (s : string) : option string :=
  if prefix pat s then Some (drop (String.length pat) s)
  else match s with
       | EmptyString => None
       | String _ s' => skip_past pat s'
       end.

Fixpoint unescape_aux (skip : nat) (s : string) : string :=
  match s with
  | EmptyString => ""
  | String c s' =>
      match skip with
      | S k => unescape_aux k s'
      | O =>
          if Ascii.eqb c "&" then
            if prefix "lt;" s' then String "<" (unescape_aux 3 s')
            else if prefix "gt;" s' then String ">" (unescape_aux 3 s')
            else if prefix "amp;" s' then String "&" (unescape_aux 4 s')
            else if prefix "quot;" s' then String "034" (unescape_aux 5 s')
            else if prefix "apos;" s' then String "'" (unescape_aux 5 s')
            else String c (unescape_aux 0 s')
          else String c (unescape_aux 0 s')
      end
  end.

Definition unescape (s : string) : string := unescape_aux 0 s.

Fixpoint escape (s : string) : string :=
  match s with
  | EmptyString => ""
  | String c s' =>
      (if Ascii.eqb c "&" then "&amp;"
       else if Ascii.eqb c "<" then "&lt;"
       else if Ascii.eqb c ">" then "&gt;"
       else String c "") ++ escape s'
  end.

Inductive token : Type :=
| TOpen (name : string) (attrs : list (string * string)) (selfclose : bool)
| TClose (name : string)
| TText (s : string).

(** The attributes of a start tag, whether it closes itself, and the rest
    of the input; [None] when the tag never ends. *)
Fixpoint parse_attrs (fuel : nat) (s : string)
  : option (list (string * string) * bool * string) :=
  match fuel with
  | O => None
  | S f =>
      let (_, s1) := span is_space s in
      match s1 with
      | EmptyString => None
      | String c s2 =>
          if Ascii.eqb c ">" then Some ([], false, s2)
          else if Ascii.eqb c "/" then
            match s2 with
            | String c' s3 => if Ascii.eqb c' ">" then Some ([], true, s3)
                              else None
            | EmptyString => None
            end
          else
            let (name, s3) := span is_name_char s1 in
            match s3 with
            | String e (String q s4) =>
                if Ascii.eqb e "="
                   && (Ascii.eqb q "034" || Ascii.eqb q "'") then
                  let (value, s5) := span (fun x => negb (Ascii.eqb x q)) s4 in
                  match s5 with
                  | String _ s6 =>
                      match parse_attrs f s6 with
                      | Some (rest, sc, s7) =>
                          Some ((name, unescape value) :: rest, sc, s7)
                      | None => None
                      end
                  | EmptyString => None
                  end
                else None
            | _ => None
            end
      end
  end.

Definition cons_tok (t : token) (r : exn + list token) : exn + list token :=
  match r with
  | inr l => inr (t :: l)
  | inl e => inl e
  end.

Fixpoint tokenize (fuel : nat) (s : string) : exn + list token :=
  match fuel with
  | O => inl (XMLSyntaxError "Memory allocation failed")
  | S f =>
      match s with
      | EmptyString => inr []
      | String c rest =>
          if Ascii.eqb c "<" then
            if prefix "?" rest then
              match skip_past "?>" rest with
              | Some r => tokenize f r
              | None => inl (XMLSyntaxError "ParsePI: PI never end")
              end
            else if prefix "!--" rest then
              match skip_past "-->" rest with
              | Some r => tokenize f r
              | None => inl (XMLSyntaxError "Comment not terminated")
              end
            else if prefix "/" rest then
              let (name, r) := span is_name_char (drop 1 rest) in
              let (_, r1) := span is_space r in
              match r1 with
              | String g r2 =>
                  if Ascii.eqb g ">" then cons_tok (TClose name) (tokenize f r2)
                  else inl (XMLSyntaxError ("expected '>' after </" ++ name))
              | EmptyString =>
                  inl (XMLSyntaxError ("expected '>' after </" ++ name))
              end
            else
              let (name, r) := span is_name_char rest in
              if String.eqb name "" then
                inl (XMLSyntaxError "StartTag: invalid element name")
              else
                match parse_attrs (S (String.length r)) r with
                | Some (attrs, sc, r') =>
                    cons_tok (TOpen name attrs sc) (tokenize f r')
                | None =>
                    inl (XMLSyntaxError
                           ("Couldn't find end of Start Tag " ++ name))
                end
          else
            let (txt, r) := span (fun x => negb (Ascii.eqb x "<")) s in
            cons_tok (TText (unescape txt)) (tokenize f r)
      end
  end.

(** Elements before namespaces are resolved. *)
Inductive raw : Type :=
| Raw (name : string) (attrs : list (string * string)) (txt : string)
      (children : list raw).

(** An element whose end tag has not been read yet; children are kept
    last-first. *)
Record frame : Type := mk_frame {
  f_name : string;
  f_attrs : list (string * string);
  f_text : string;
  f_children : list raw
}.

Definition close_frame (fr : frame) : raw :=
  Raw (f_name fr) (f_attrs fr) (f_text fr) (rev (f_children fr)).

Definition push_child (r : raw) (fr : frame) : frame :=
  mk_frame (f_name fr) (f_attrs fr) (f_text fr) (r :: f_children fr).

Fixpoint build (toks : list token) (stack : list frame) (done : option raw)
  : exn + raw :=
  match toks with
  | [] =>
      match stack, done with
      | [], Some r => inr r
      | [], None => inl (XMLSyntaxError "Document is empty")
      | _ :: _, _ => inl (XMLSyntaxError "Premature end of data in tag")
      end
  | TText t :: rest =>
      match stack with
      | [] =>
          if all_space t then build rest stack done
          else match done with
               | None => inl (XMLSyntaxError "Start tag expected, '<' not found")
               | Some _ =>
                   inl (XMLSyntaxError "Extra content at the end of the document")
               end
      | fr :: st =>
          match f_children fr with
          | [] =>
              build rest
                (mk_frame (f_name fr) (f_attrs fr) (f_text fr ++ t) [] :: st)
                done
          | _ :: _ => build rest stack done   (* tail text is not kept *)
          end
      end
  | TOpen n a sc :: rest =>
      match stack, done with
      | [], Some _ =>
          inl (XMLSyntaxError "Extra content at the end of the document")
      | [], None =>
          if sc then build rest [] (Some (Raw n a "" []))
          else build rest [mk_frame n a "" []] None
      | fr :: st, _ =>
          if sc then build rest (push_child (Raw n a "" []) fr :: st) done
          else build rest (mk_frame n a "" [] :: stack) done
      end
  | TClose n :: rest =>
      match stack with
      | [] => inl (XMLSyntaxError ("Unexpected end tag : " ++ n))
      | fr :: st =>
          if String.eqb (f_name fr) n then
            match st with
            | [] => build rest [] (Some (close_frame fr))
            | p :: st' => build rest (push_child (close_frame fr) p :: st') done
            end
          else inl (XMLSyntaxError
                      ("Opening and ending tag mismatch: " ++ f_name fr
                       ++ " and " ++ n))
      end
  end.

(** Namespace declarations among attributes. *)
Definition ns_decl (a : string * string) : option (option string * string) :=
  let (k, v) := a in
  if String.eqb k "xmlns" then Some (None, v)
  else if prefix "xmlns:" k then Some (Some (drop 6 k), v)
  else None.

Fixpoint ns_decls (attrs : list (string * string))
  : list (option string * string) :=
  match attrs with
  | [] => []
  | a :: rest =>
      match ns_decl a with
      | Some d => d :: ns_decls rest
      | None => ns_decls rest
      end
  end.

Fixpoint ns_lookup (scope : list (option string * string)) (p : option string)
  : option string :=
  match scope with
  | [] => None
  | (q, uri) :: rest => if text_eqb p q then Some uri else ns_lookup rest p
  end.

(** [own] declarations override those of the enclosing [scope]. *)
Definition ns_extend (own scope : list (option string * string))
  : list (option string * string) :=
  own ++ filter (fun d => match ns_lookup own (fst d) with
                          | Some _ => false
                          | None => true
                          end) scope.

(** A name as written ([p:local] or [local]) in lxml's notation. *)
Definition qname (scope : list (option string * string)) (is_element : bool)
    (n : string) : string :=
  let (a, b) := span (fun c => negb (Ascii.eqb c ":")) n in
  match b with
  | String _ local =>
      match ns_lookup scope (Some a) with
      | Some uri => "{" ++ uri ++ "}" ++ local
      | None => n
      end
  | EmptyString =>
      if is_element then
        match ns_lookup scope None with
        | Some uri => if String.eqb uri "" then n else "{" ++ uri ++ "}" ++ n
        | None => n
        end
      else n
  end.

Fixpoint plain_attrs (scope : list (option string * string))
    (attrs : list (string * string)) : list (string * string) :=
  match attrs with
  | [] => []
  | (k, v) :: rest =>
      match ns_decl (k, v) with
      | Some _ => plain_attrs scope rest
      | None => (qname scope false k, v) :: plain_attrs scope rest
      end
  end.

Fixpoint resolve (scope : list (option string * string)) (r : raw) : element :=
  match r with
  | Raw n attrs txt ch =>
      let scope' := ns_extend (ns_decls attrs) scope in
      Elem 0 (mk_edata (qname scope' true n) scope'
                       (plain_attrs scope' attrs)
                       (if String.eqb txt "" then None else Some txt))
           (map (resolve scope') ch)
  end.

Definition parse (s : string) : exn + element :=
  match tokenize (S (String.length s)) s with
  | inl e => inl e
  | inr toks =>
      match build toks [] None with
      | inl e => inl e
      | inr r => inr (resolve [] r)
      end
  end.

(** ** Writer *)

Fixpoint prefix_of (scope : list (option string * string)) (uri : string)
  : option (option string) :=
  match scope with
  | [] => None
  | (p, u) :: rest => if String.eqb u uri then Some p else prefix_of rest uri
  end.

(** A name in lxml's notation as it is written under [scope]. *)
Definition written (scope : list (option string * string)) (n : string)
  : string :=
  if prefix "{" n then
    let (uri, b) := span (fun c => negb (Ascii.eqb c "}")) (drop 1 n) in
    let local := drop 1 b in
    match prefix_of scope uri with
    | Some (Some p) => p ++ ":" ++ local
    | _ => local
    end
  else n.

Definition dquote : string := String "034" "".

Definition render_decl (d : option string * string) : string :=
  match d with
  | (None, uri) => " xmlns=" ++ dquote ++ escape uri ++ dquote
  | (Some p, uri) => " xmlns:" ++ p ++ "=" ++ dquote ++ escape uri ++ dquote
  end.

Definition render_attr (scope : list (option string * string))
    (a : string * string) : string :=
  " " ++ written scope (fst a) ++ "=" ++ dquote ++ escape (snd a) ++ dquote.

Definition newline : string := String "010" "".

Fixpoint render (scope : list (option string * string)) (indent : string)
    (e : element) : string :=
  match e with
  | Elem _ d ch =>
      let own := filter (fun x => match ns_lookup scope (fst x) with
                                  | Some u => negb (String.eqb u (snd x))
                                  | None => true
                                  end) (nsmap d) in
      let scope' := ns_extend own scope in
      let name := written scope' (tag d) in
      let head := indent ++ "<" ++ name
                  ++ String.concat "" (map render_decl own)
                  ++ String.concat "" (map (render_attr scope') (attrib d)) in
      match ch, text d with
      | [], None => head ++ "/>" ++ newline
      | [], Some t => head ++ ">" ++ escape t ++ "</" ++ name ++ ">" ++ newline
      | _ :: _, _ =>
          head ++ ">" ++ newline
          ++ String.concat "" (map (render scope' (indent ++ "  ")) ch)
          ++ indent ++ "</" ++ name ++ ">" ++ newline
      end
  end.

Definition tostring (e : element) : string :=
  "<?xml version='1.0' encoding='UTF-8'?>" ++ newline ++ render [] "" e.

(** [etree.fromstring(s.encode('utf-8'))]. *)
Definition fromstring (s : string) : exn + element :=
  match encode_utf8 s with
  | inl e => inl e
  | inr bytes => parse bytes
  end.

(** The reference instance; the clock reads a fixed instant. *)
Definition externals : Externals :=
  {| etree_tostring := tostring;
     etree_fromstring := fromstring;
     utcnow := mk_datetime 2024 1 1 0 0 0 |}.

End RefXml.


(* ===================================================================== *)
(** * Facts about the store operations *)
(* ===================================================================== *)

Local Open Scope list_scope.

(** ** Texts that are accepted *)

(** A text of plain characters: every byte is below 128 and is none of
    the control characters lxml refuses. *)
Fixpoint plain (s : string) : bool :=
  match s with
  | EmptyString => true
  | String c rest => (Py.byte c <? 128)%Z && xmlIsChar_ch c && plain rest
  end.

Lemma plain_app (a b : string) :
  plain (a ++ b)%string = plain a && plain b.
Proof.
  induction a as [|c a IH]; [reflexivity|].
  change (plain (String c a ++ b)%string)
    with ((Py.byte c <? 128)%Z && xmlIsChar_ch c && plain (a ++ b)%string).
  rewrite IH, andb_assoc. reflexivity.
Qed.

Lemma plain_first_surrogate (a b : string) : forall i,
  plain a = true ->
  exists j, first_surrogate (a ++ b)%string i = first_surrogate b j.
Proof.
  induction a as [|c a IH]; intros i Ha; [exists i; reflexivity|].
  cbn [plain] in Ha. apply andb_true_iff in Ha as [Hc Ha].
  apply andb_true_iff in Hc as [Hc _]. apply Z.ltb_lt in Hc.
  change (String c a ++ b)%string with (String c (a ++ b)%string).
  cbn [first_surrogate].
  assert (E : surrogate_at (String c (a ++ b)) = None).
  { unfold surrogate_at. destruct (a ++ b)%string as [|c1 [|c2 r]];
      try reflexivity.
    replace (Py.byte c =? 237)%Z with false
      by (symmetry; apply Z.eqb_neq; lia).
    reflexivity. }
  rewrite E. apply IH. exact Ha.
Qed.

Lemma plain_is_valid (a b : string) :
  plain a = true ->
  is_valid_xml_utf8 (a ++ b)%string = is_valid_xml_utf8 b.
Proof.
  induction a as [|c a IH]; intros Ha; [reflexivity|].
  cbn [plain] in Ha. apply andb_true_iff in Ha as [Hc Ha].
  apply andb_true_iff in Hc as [Hlt Hch]. apply Z.ltb_lt in Hlt.
  change (String c a ++ b)%string with (String c (a ++ b)%string).
  cbn [is_valid_xml_utf8].
  replace (128 <=? Py.byte c)%Z with false
    by (symmetry; apply Z.leb_gt; exact Hlt).
  rewrite Hch, IH by exact Ha. reflexivity.
Qed.

(** A plain prefix neither makes a text acceptable nor unacceptable. *)
Lemma xml_compatible_prefix (a b : string) :
  plain a = true -> xml_compatible (a ++ b)%string = xml_compatible b.
Proof.
  intros Ha. unfold xml_compatible, lxml_utf8, encode_utf8.
  destruct (plain_first_surrogate a b 0 Ha) as (j & Ej). rewrite Ej.
  assert (Hj : forall i k, (first_surrogate b i = None <->
                            first_surrogate b k = None)).
  { clear. induction b as [|c b IH]; intros i k; cbn [first_surrogate];
      destruct (surrogate_at _); try tauto; try (split; discriminate).
    apply IH. }
  destruct (first_surrogate b j) as [[[i1 r1] c1]|] eqn:E1,
           (first_surrogate b 0) as [[[i2 r2] c2]|] eqn:E2;
    try reflexivity.
  - apply (Hj 0 j) in E2. rewrite E2 in E1. discriminate E1.
  - apply (Hj j 0) in E1. rewrite E1 in E2. discriminate E2.
  - rewrite plain_is_valid by exact Ha.
    destruct (is_valid_xml_utf8 b); reflexivity.
Qed.

Lemma append_empty (a : string) : (a ++ "")%string = a.
Proof.
  induction a as [|c a IH]; [reflexivity|].
  change (String c a ++ "")%string with (String c (a ++ "")%string).
  rewrite IH. reflexivity.
Qed.

Lemma plain_compatible (a : string) :
  plain a = true -> xml_compatible a = true.
Proof.
  intros Ha. pose proof (xml_compatible_prefix a "" Ha) as H.
  rewrite append_empty in H. rewrite H. reflexivity.
Qed.

(** An accepted text goes through [_utf8] as it is. *)
Lemma lxml_utf8_compatible (v : string) :
  xml_compatible v = true -> lxml_utf8 v = inr v.
Proof.
  unfold xml_compatible, lxml_utf8, encode_utf8.
  destruct (first_surrogate v 0) as [[[i r] c]|]; [discriminate|].
  destruct (is_valid_xml_utf8 v); [reflexivity | discriminate].
Qed.

(** A refused text makes [_utf8] raise. *)
Lemma lxml_utf8_refused (v : string) :
  xml_compatible v = false -> exists e, lxml_utf8 v = inl e.
Proof.
  unfold xml_compatible. destruct (lxml_utf8 v) as [e|b]; [|discriminate].
  intros _. exists e. reflexivity.
Qed.

(** Numbers print as plain texts. *)
Lemma plain_decimal (d : Decimal.uint) :
  plain (DecimalString.NilEmpty.string_of_uint d) = true.
Proof. induction d; cbn [DecimalString.NilEmpty.string_of_uint plain]; auto. Qed.

Lemma plain_str (z : Z) : plain (Py.str z) = true.
Proof.
  unfold Py.str, DecimalString.NilZero.string_of_int,
    DecimalString.NilZero.string_of_uint.
  destruct (Z.to_int z) as [d | d]; destruct d;
    try reflexivity; try apply plain_decimal;
    change (plain (String "-" ?x)) with (plain x);
    cbn [plain]; try reflexivity.
Qed.

Lemma plain_hexadecimal (d : Hexadecimal.uint) :
  plain (HexadecimalString.NilEmpty.string_of_uint d) = true.
Proof.
  induction d; cbn [HexadecimalString.NilEmpty.string_of_uint plain]; auto.
Qed.

Lemma plain_hex_digits (z : Z) : plain (Py.hex_digits z) = true.
Proof.
  unfold Py.hex_digits, HexadecimalString.NilZero.string_of_int,
    HexadecimalString.NilZero.string_of_uint.
  destruct (Z.to_hex_int z) as [d | d]; destruct d;
    try reflexivity; try apply plain_hexadecimal;
    cbn [plain]; try reflexivity.
Qed.

Lemma plain_hex (z : Z) : plain (Py.hex z) = true.
Proof.
  unfold Py.hex. destruct (z <? 0)%Z; rewrite plain_app, plain_hex_digits;
    reflexivity.
Qed.

Lemma plain_zero_padded (width : nat) (n : Z) :
  plain (zero_padded width n) = true.
Proof.
  unfold zero_padded. rewrite plain_app, plain_str, andb_true_r.
  induction (width - String.length (Py.str n)) as [|k IH]; [reflexivity|].
  cbn [repeat Py.join]. destruct (repeat "0"%string k); [reflexivity|].
  rewrite !plain_app, IH. reflexivity.
Qed.

Lemma plain_strftime (d : datetime) : plain (strftime d) = true.
Proof.
  unfold strftime. rewrite !plain_app, !plain_zero_padded. reflexivity.
Qed.

Lemma plain_write_strategy (strategy : string) :
  plain (Py.dict_get String.eqb write_strategy_map strategy
                     "NVM_WRITE_BLOCK_CYCLIC") = true.
Proof.
  unfold write_strategy_map. cbn [Py.dict_get].
  destruct (String.eqb "immediate" strategy); [reflexivity|].
  destruct (String.eqb "deferred" strategy); [reflexivity|].
  destruct (String.eqb "triggered" strategy); reflexivity.
Qed.

(** The values of ecuType that the input schema allows are accepted. *)
Lemma ECU_TYPES_compatible (ecu : string) :
  In ecu ECU_TYPES -> xml_compatible ecu = true.
Proof.
  intros H. unfold ECU_TYPES in H. cbn [In] in H.
  decompose [or] H; try contradiction; subst; reflexivity.
Qed.

(** Show that a text is plain, or that lxml accepts it. *)
Ltac plain_text :=
  repeat first
    [ assumption
    | apply plain_str
    | apply plain_hex
    | apply plain_hex_digits
    | apply plain_strftime
    | apply plain_write_strategy
    | apply plain_zero_padded
    | match goal with
      | |- plain (if ?b then _ else _) = true => destruct b
      | |- plain (_ ++ _)%string = true =>
          rewrite plain_app; apply andb_true_intro; split
      end
    | reflexivity ].

Ltac xml_text :=
  first [ assumption
        | apply plain_compatible; solve [plain_text]
        | rewrite xml_compatible_prefix by solve [plain_text]; assumption
        | reflexivity ].

(** What a step asks of the text it assigns. *)
Definition text_ok (txt : option string) : Prop :=
  match txt with
  | Some v => xml_compatible v = true
  | None => True
  end.

Ltac text_accepted := cbn [text_ok]; first [exact I | xml_text].

Lemma SubElement_accepted (p : nat) (t : string) (txt : option string)
    (s : store) :
  text_ok txt ->
  SubElement p t txt s = (inr (next_uid s), with_child s p t txt).
Proof.
  intros H. unfold SubElement. destruct txt as [v|]; [|reflexivity].
  rewrite (lxml_utf8_compatible v H). reflexivity.
Qed.

Lemma SubElement_refused (p : nat) (t v : string) (e : exn) (s : store) :
  lxml_utf8 v = inl e ->
  SubElement p t (Some v) s = (inl e, with_child s p t None).
Proof. intros H. unfold SubElement. rewrite H. reflexivity. Qed.


Lemma uids_Elem u d ch : uids (Elem u d ch) = u :: forest_uids ch.
Proof.
  unfold uids, subtree, forest_uids. cbn [map descendants uid_of]. f_equal.
  induction ch as [|c ch IH]; [reflexivity|].
  cbn [flat_map]. rewrite map_app, IH. reflexivity.
Qed.

Lemma forest_uids_app l1 l2 :
  forest_uids (l1 ++ l2) = forest_uids l1 ++ forest_uids l2.
Proof. unfold forest_uids. apply flat_map_app. Qed.

Lemma forest_uids_cons c l :
  forest_uids (c :: l) = uids c ++ forest_uids l.
Proof. reflexivity. Qed.

Lemma add_child_Elem p c u d ch :
  add_child p c (Elem u d ch) =
  Elem u d (map (add_child p c) ch ++ (if (u =? p)%nat then [c] else [])).
Proof. reflexivity. Qed.

(** Adding a child under an identity that does not occur changes nothing. *)
Lemma add_child_fresh p c e : ~ In p (uids e) -> add_child p c e = e.
Proof.
  induction e as [u d ch IH] using element_ind'. intros Hp.
  rewrite uids_Elem in Hp. rewrite add_child_Elem.
  assert (Hu : (u =? p)%nat = false).
  { apply Nat.eqb_neq. intros ->. apply Hp. left. reflexivity. }
  rewrite Hu, app_nil_r. f_equal.
  assert (Hch : ~ In p (forest_uids ch)) by (intros H; apply Hp; right; exact H).
  clear Hp Hu. induction IH as [|x l Hx _ IHl]; [reflexivity|].
  rewrite forest_uids_cons in Hch. cbn [map]. f_equal.
  - apply Hx. intros H. apply Hch, in_or_app. left. exact H.
  - apply IHl. intros H. apply Hch, in_or_app. right. exact H.
Qed.

Lemma add_child_fresh_forest p c l :
  ~ In p (forest_uids l) -> map (add_child p c) l = l.
Proof.
  induction l as [|x l IH]; [reflexivity|]. rewrite forest_uids_cons.
  intros H. cbn [map]. f_equal.
  - apply add_child_fresh. intros Hx. apply H, in_or_app. left. exact Hx.
  - apply IH. intros Hx. apply H, in_or_app. right. exact Hx.
Qed.

(** A document under construction, seen from the element that is being
    filled: [C kids] is the document in which the element [focus] has the
    children [fixed ++ kids]; every other identity of the frame is below
    [bound]. *)
Definition frame_of (C : list element -> element) (focus bound : nat) : Prop :=
  forall p c kids,
    (p = focus \/ bound <= p) ->
    add_child p c (C kids) =
    C (map (add_child p c) kids ++ (if (focus =? p)%nat then [c] else [])).

Section Frames.
Variables (C : list element -> element) (focus bound : nat).
Hypothesis HC : frame_of C focus bound.
Hypothesis Hfocus : focus < bound.

(** A new child of the focus goes after the children it has. *)
Lemma frame_add_focus c kids :
  ~ In focus (forest_uids kids) ->
  add_child focus c (C kids) = C (kids ++ [c]).
Proof.
  intros H. rewrite HC by (left; reflexivity).
  rewrite Nat.eqb_refl, add_child_fresh_forest by exact H. reflexivity.
Qed.

(** A new child of the last child of the focus. *)
Lemma frame_add_last c kids u d ch :
  bound <= u -> ~ In u (forest_uids kids) -> ~ In u (forest_uids ch) ->
  add_child u c (C (kids ++ [Elem u d ch])) = C (kids ++ [Elem u d (ch ++ [c])]).
Proof.
  intros Hu Hk Hc. rewrite HC by (right; exact Hu).
  assert (E : (focus =? u)%nat = false) by (apply Nat.eqb_neq; lia).
  rewrite E, app_nil_r, map_app, add_child_fresh_forest by exact Hk.
  cbn [map]. rewrite add_child_Elem, Nat.eqb_refl.
  rewrite add_child_fresh_forest by exact Hc. reflexivity.
Qed.

(** A new grandchild under the last child of the last child of the focus. *)
Lemma frame_add_last2 c kids u d ch v dv chv :
  bound <= v -> v <> u ->
  ~ In v (forest_uids kids) -> ~ In v (forest_uids ch) ->
  ~ In v (forest_uids chv) ->
  add_child v c (C (kids ++ [Elem u d (ch ++ [Elem v dv chv])])) =
  C (kids ++ [Elem u d (ch ++ [Elem v dv (chv ++ [c])])]).
Proof.
  intros Hv Hvu Hk Hc Hcv. rewrite HC by (right; exact Hv).
  assert (E : (focus =? v)%nat = false) by (apply Nat.eqb_neq; lia).
  rewrite E, app_nil_r, map_app, add_child_fresh_forest by exact Hk.
  cbn [map]. rewrite add_child_Elem.
  assert (E' : (u =? v)%nat = false) by (apply Nat.eqb_neq; lia).
  rewrite E', app_nil_r, map_app, add_child_fresh_forest by exact Hc.
  cbn [map]. rewrite add_child_Elem, Nat.eqb_refl.
  rewrite add_child_fresh_forest by exact Hcv. reflexivity.
Qed.

End Frames.

(** Stepping through a computation. *)
Lemma bind_SubElement {B : Type} p t txt (k : nat -> M B) N ds lg :
  text_ok txt ->
  bind (SubElement p t txt) k (mk_store N ds lg) =
  k N (mk_store (S N) (map (add_child p (Elem N (mk_edata t [] [] txt) [])) ds)
                lg).
Proof.
  intros H. unfold bind. rewrite (SubElement_accepted _ _ _ _ H). reflexivity.
Qed.

Lemma bind_Element {B : Type} t ns at_ (k : nat -> M B) N ds lg :
  bind (Element t ns at_) k (mk_store N ds lg) =
  k N (mk_store (S N) (ds ++ [Elem N (mk_edata t ns at_ None) []]) lg).
Proof. reflexivity. Qed.

Lemma bind_log_info {B : Type} msg (k : unit -> M B) N ds lg :
  bind (log_info msg) k (mk_store N ds lg) =
  k tt (mk_store N ds (lg ++ [(INFO, msg)])).
Proof. reflexivity. Qed.

Lemma bind_find {B : Type} p t (k : option nat -> M B) s :
  bind (find p t) k s =
  k match lookup_forest p (docs s) with
    | Some e => option_map uid_of (find_child t e)
    | None => None
    end s.
Proof. reflexivity. Qed.

Lemma bind_ret {S A B : Type} (a : A) (k : A -> comp S B) s :
  bind (ret a) k s = k a s.
Proof. reflexivity. Qed.

Lemma bind_bind {S A B D : Type} (m : comp S A) (k : A -> comp S B)
    (h : B -> comp S D) s :
  bind (bind m k) h s = bind m (fun a => bind (k a) h) s.
Proof. unfold bind. destruct (m s) as [[e|a] s']; reflexivity. Qed.

Lemma for_each_cons {S A : Type} (x : A) l (body : A -> comp S unit) s :
  for_each (x :: l) body s = bind (body x) (fun _ => for_each l body) s.
Proof. reflexivity. Qed.

Lemma for_each_app {S A : Type} (l1 l2 : list A) (body : A -> comp S unit) s :
  for_each (l1 ++ l2) body s =
  bind (for_each l1 body) (fun _ => for_each l2 body) s.
Proof.
  revert s. induction l1 as [|x l1 IH]; intros s.
  - cbn [app for_each]. rewrite bind_ret. reflexivity.
  - cbn [app for_each]. rewrite bind_bind. unfold bind in *.
    destruct (body x s) as [[e|[]] s']; [reflexivity|]. apply IH.
Qed.

(* ===================================================================== *)
(** * The document generate_can_config builds *)
(* ===================================================================== *)

(** Elements as [SubElement] makes them: with a text, or without. *)
Definition leaf (u : nat) (t : string) (txt : string) : element :=
  Elem u (mk_edata t [] [] (Some txt)) [].

Definition node (u : nat) (t : string) (ch : list element) : element :=
  Elem u (mk_edata t [] [] None) ch.

(** Decide the comparisons of the identity [p] with numerals. *)
Ltac eqb_false p :=
  repeat match goal with
         | |- context [(?a =? p)%nat] =>
             replace (a =? p)%nat with false
               by (symmetry; apply Nat.eqb_neq; lia)
         end.

Section Shapes.
Context {ext : Externals}.

(** The root element and the administrative block, common to the three
    documents the module builds. *)
Definition doc_root (ch : list element) : element :=
  Elem 0 (mk_edata "AUTOSAR" NAMESPACES
            [ ("{http://www.w3.org/2001/XMLSchema-instance}schemaLocation",
               ("http://autosar.org/schema/r4.0 "
                ++ schema_location (ARXMLGenerator_init "4.2.2"))%string) ]
            None) ch.

Definition admin_data_tree : element :=
  node 1 "ADMIN-DATA"
    [ node 2 "DOC-REVISIONS"
        [ node 3 "DOC-REVISION"
            [ leaf 4 "REVISION-LABEL" "1.0.0";
              leaf 5 "DATE" utcnow_strftime ] ] ].

(** The CAN document in which the controller has, after its short name and
    its baudrate configuration, the children [kids]. *)
Definition can_frame (ecu : string) (baud : Z) (kids : list element)
  : element :=
  doc_root
    [ admin_data_tree;
      node 6 "AR-PACKAGES"
        [ node 7 "AR-PACKAGE"
            [ leaf 8 "SHORT-NAME" "CanConfiguration";
              node 9 "ELEMENTS"
                [ node 10 "CAN-CONTROLLER"
                    ([ leaf 11 "SHORT-NAME" ("CanController_" ++ ecu);
                       node 12 "CAN-CONTROLLER-BAUDRATE-CONFIG"
                         [ leaf 13 "BAUDRATE" (Py.str (baud * 1000));
                           leaf 14 "PROP-SEG"
                             (Py.str (prop_seg (calculate_can_timing baud)));
                           leaf 15 "PHASE-SEG1"
                             (Py.str (phase_seg1 (calculate_can_timing baud)));
                           leaf 16 "PHASE-SEG2"
                             (Py.str (phase_seg2 (calculate_can_timing baud)));
                           leaf 17 "SYNC-JUMP-WIDTH"
                             (Py.str (sjw (calculate_can_timing baud))) ] ]
                     ++ kids) ] ] ] ].

(** The hardware object of index [i], allocated from identity [N] on. *)
Definition can_hw_object (N : nat) (i : Z) : element :=
  node N "CAN-HW-OBJECT"
    [ leaf (S N) "SHORT-NAME" ("CanHwObject_" ++ Py.str i);
      leaf (S (S N)) "OBJECT-TYPE"
           (if (i mod 2 =? 0)%Z then "TRANSMIT" else "RECEIVE");
      leaf (S (S (S N))) "ID-TYPE" "STANDARD";
      leaf (S (S (S (S N)))) "CAN-OBJECT-ID" (Py.str (256 + i)) ].

(** The hardware objects of indices [a .. a+k-1]. *)
Definition can_hw_objects (a k : nat) : list element :=
  map (fun i => can_hw_object (18 + 5 * i) (Z.of_nat i)) (seq a k).

Definition can_error_handling (N : nat) : element :=
  node N "CAN-ERROR-HANDLING"
    [ leaf (S N) "BUS-OFF-RECOVERY" "AUTOMATIC";
      leaf (S (S N)) "ERROR-PASSIVE-MODE" "ENABLED";
      leaf (S (S (S N))) "ERROR-WARNING-THRESHOLD" "96" ].

Definition can_wakeup_support (N : nat) : element :=
  node N "CAN-WAKEUP-SUPPORT"
    [ leaf (S N) "WAKEUP-ENABLED" "true";
      leaf (S (S N)) "WAKEUP-FILTER-ENABLED" "true" ].

(** The whole CAN document for [n] message objects. *)
Definition can_document (ecu : string) (baud : Z) (n : nat)
    (error_handling wakeup : bool) : element :=
  can_frame ecu baud
    (can_hw_objects 0 n
     ++ (if error_handling then [can_error_handling (18 + 5 * n)] else [])
     ++ (if wakeup
         then [can_wakeup_support
                 (18 + 5 * n + (if error_handling then 4 else 0))]
         else [])).

Lemma can_frame_frame ecu baud : frame_of (can_frame ecu baud) 10 18.
Proof.
  intros p c kids [-> | Hp].
  - reflexivity.
  - unfold can_frame, doc_root, admin_data_tree, node, leaf.
    cbn [add_child map app]. eqb_false p.
    cbn [app]. rewrite ?app_nil_r. reflexivity.
Qed.

End Shapes.

(** Identities that cannot be the one in hand. *)
Ltac notin :=
  cbn [forest_uids flat_map uids subtree descendants map uid_of app
       node leaf In];
  rewrite ?app_nil_r; cbn [In]; intuition lia.

(** Run the straight-line part of a generator on a concrete store. *)
Ltac run_prefix :=
  repeat first
    [ progress cbn [item map add_child app Nat.eqb docs
                    lookup_forest lookup_in lookup find_child List.find
                    children_of
                    tag_of data_of tag option_map uid_of
                    String.eqb Ascii.eqb Bool.eqb]
    | rewrite bind_bind
    | rewrite bind_ret
    | rewrite bind_SubElement by text_accepted
    | rewrite bind_Element
    | rewrite bind_log_info
    | rewrite bind_find ].

Section CanRun.
Context {ext : Externals}.
Variables (ecu : string) (baud : Z).
Hypothesis Hecu : xml_compatible ecu = true.

Local Abbreviation C := (can_frame ecu baud).

(** One turn of the loop adds one hardware object after the children the
    controller has. *)
Lemma can_message_object_run N i kids lg :
  18 <= N ->
  (forall u, In u (forest_uids kids) -> 18 <= u < N) ->
  can_message_object 10 i (mk_store N [C kids] lg) =
  (inr tt, mk_store (5 + N) [C (kids ++ [can_hw_object N i])] lg).
Proof.
  intros HN Hk.
  assert (H10 : ~ In 10 (forest_uids kids)) by (intros H; apply Hk in H; lia).
  assert (HNk : ~ In N (forest_uids kids)) by (intros H; apply Hk in H; lia).
  pose proof (can_frame_frame ecu baud) as HC.
  unfold can_message_object.
  rewrite bind_SubElement by text_accepted. cbn [map].
  rewrite (frame_add_focus _ _ _ HC) by exact H10.
  rewrite bind_SubElement by text_accepted. cbn [map].
  rewrite (frame_add_last _ _ _ HC) by (lia || assumption || notin).
  rewrite bind_SubElement by text_accepted. cbn [map].
  rewrite (frame_add_last _ _ _ HC) by (lia || assumption || notin).
  rewrite bind_SubElement by text_accepted. cbn [map].
  rewrite (frame_add_last _ _ _ HC) by (lia || assumption || notin).
  rewrite bind_SubElement by text_accepted. cbn [map].
  rewrite (frame_add_last _ _ _ HC) by (lia || assumption || notin).
  reflexivity.
Qed.

Lemma can_hw_object_uids N i u :
  In u (uids (can_hw_object N i)) -> N <= u < 5 + N.
Proof. unfold can_hw_object. notin. Qed.

Lemma can_hw_objects_uids a k u :
  In u (forest_uids (can_hw_objects a k)) ->
  18 + 5 * a <= u < 18 + 5 * (a + k).
Proof.
  unfold can_hw_objects, forest_uids. rewrite in_flat_map.
  intros (x & Hx & Hu). apply in_map_iff in Hx as (i & <- & Hi).
  apply in_seq in Hi. apply can_hw_object_uids in Hu. lia.
Qed.

(** The loop over the indices [a .. a+k-1]. *)
Lemma can_loop_run k : forall a kids lg,
  (forall u, In u (forest_uids kids) -> 18 <= u < 18 + 5 * a) ->
  for_each (map Z.of_nat (seq a k)) (can_message_object 10)
           (mk_store (18 + 5 * a) [C kids] lg) =
  (inr tt, mk_store (18 + 5 * (a + k))
                    [C (kids ++ can_hw_objects a k)] lg).
Proof.
  induction k as [|k IH]; intros a kids lg Hk.
  - cbn [seq map for_each can_hw_objects]. rewrite app_nil_r, Nat.add_0_r.
    reflexivity.
  - cbn [seq map]. rewrite for_each_cons. unfold bind.
    rewrite can_message_object_run by (lia || exact Hk).
    replace (5 + (18 + 5 * a)) with (18 + 5 * S a) by lia.
    rewrite IH.
    + replace (S a + k) with (a + S k) by lia.
      rewrite <- app_assoc. reflexivity.
    + intros u Hu. rewrite forest_uids_app in Hu.
      apply in_app_or in Hu as [Hu | Hu].
      * apply Hk in Hu. lia.
      * rewrite forest_uids_cons in Hu. cbn [forest_uids flat_map] in Hu.
        rewrite app_nil_r in Hu. apply can_hw_object_uids in Hu. lia.
Qed.

Lemma can_loop_run0 (n : Z) lg :
  for_each (Py.range n) (can_message_object 10) (mk_store 18 [C []] lg) =
  (inr tt, mk_store (18 + 5 * Z.to_nat n)
                    [C (can_hw_objects 0 (Z.to_nat n))] lg).
Proof.
  unfold Py.range.
  exact (can_loop_run (Z.to_nat n) 0 [] lg (fun u (H : In u []) => match H with end)).
Qed.

Lemma lookup_can_frame kids rest :
  lookup_forest 0 (C kids :: rest) = Some (C kids).
Proof. reflexivity. Qed.

Lemma to_string_run g root s :
  to_string g root s = (inr (etree_tostring (tree_of s root)), s).
Proof. reflexivity. Qed.

(** Side conditions on identities after the loop. *)
Ltac after_loop :=
  first
    [ lia
    | let H := fresh in
      intros H; rewrite ?forest_uids_app in H;
      repeat (apply in_app_or in H as [H | H]);
      try (apply can_hw_objects_uids in H; lia);
      revert H; unfold can_error_handling, can_wakeup_support; notin ].

(** Running the generator on a record that has its three required keys. *)
Lemma generate_can_config_run (p : can_params) (n : Z) :
  ecuType p = Some ecu -> baudrate p = Some baud ->
  messageObjects p = Some n ->
  let eh := get_default (errorHandling p) true in
  let wk := get_default (wakeupSupport p) false in
  let doc := can_document ecu baud (Z.to_nat n) eh wk in
  generate_can_config p new_store =
  (inr (etree_tostring doc),
   mk_store (18 + 5 * Z.to_nat n + (if eh then 4 else 0)
             + (if wk then 3 else 0))
            [doc]
            [(INFO, ("Generating CAN config for " ++ ecu ++ " ECU at "
                     ++ Py.str baud ++ " kbps")%string)]).
Proof.
  intros He Hb Hn eh wk doc. subst doc eh wk.
  unfold generate_can_config. rewrite He, Hb, Hn.
  unfold new_store, create_root, add_admin_data, create_ar_package.
  run_prefix.
  match goal with
  | |- context [mk_store 18 [?T] ?lg] => change T with (C [])
  end.
  unfold bind at 1. rewrite can_loop_run0.
  pose proof (can_frame_frame ecu baud) as HC.
  unfold can_document.
  set (k := Z.to_nat n).
  destruct (get_default (errorHandling p) true);
    destruct (get_default (wakeupSupport p) false);
    cbn [when];
    repeat (rewrite bind_bind || rewrite bind_ret);
    repeat (rewrite bind_SubElement by text_accepted; cbn [map];
            first [ rewrite (frame_add_focus _ _ _ HC) by after_loop
                  | rewrite (frame_add_last _ _ _ HC) by after_loop ];
            cbn [app]; repeat (rewrite bind_bind || rewrite bind_ret));
    rewrite to_string_run; unfold tree_of; cbn [docs];
    rewrite lookup_can_frame;
    unfold can_error_handling, can_wakeup_support, node, leaf;
    cbn [app]; rewrite ?app_nil_r, <- ?app_assoc; cbn [app];
    rewrite ?Nat.add_succ_r, ?Nat.add_0_r; reflexivity.
Qed.

End CanRun.

(* ===================================================================== *)
(** * The document generate_nvm_config builds *)
(* ===================================================================== *)

Section NvmShapes.
Context {ext : Externals}.

(** The NvM document in which the blocks container has the children [kids]
    and the block descriptor has, after the container, the children
    [tail]. *)
Definition nvm_frame (kids tail : list element) : element :=
  doc_root
    [ admin_data_tree;
      node 6 "AR-PACKAGES"
        [ node 7 "AR-PACKAGE"
            [ leaf 8 "SHORT-NAME" "NvMConfiguration";
              node 9 "ELEMENTS"
                [ node 10 "NVM-BLOCK-DESCRIPTOR"
                    ([ leaf 11 "SHORT-NAME" "NvMBlockConfiguration";
                       node 12 "NVM-BLOCKS" kids ]
                     ++ tail) ] ] ] ].

(** How many identities one block takes. *)
Definition nvm_stride (crc red : bool) : nat :=
  8 + (if crc then 2 else 0) + (if red then 2 else 0).

(** The block of index [i], allocated from identity [N] on. *)
Definition nvm_block_tree (size : Z) (strategy : string) (crc red : bool)
    (N : nat) (i : Z) : element :=
  let c := if crc then 2 else 0 in
  let r := if red then 2 else 0 in
  node N "NVM-BLOCK"
    ([ leaf (N + 1) "SHORT-NAME" ("NvMBlock_" ++ Py.str i);
       leaf (N + 2) "NVM-BLOCK-ID" (Py.str (i + 1));
       leaf (N + 3) "NVM-BLOCK-LENGTH" (Py.str size);
       leaf (N + 4) "NVM-WRITE-STRATEGY"
            (Py.dict_get String.eqb write_strategy_map strategy
                         "NVM_WRITE_BLOCK_CYCLIC") ]
     ++ (if crc
         then [ node (N + 5) "NVM-BLOCK-CRC-TYPE"
                  [ leaf (N + 6) "CRC-TYPE" "NVM_CRC_16" ] ]
         else [])
     ++ (if red
         then [ node (N + 5 + c) "NVM-REDUNDANCY"
                  [ leaf (N + 6 + c) "REDUNDANT-BLOCK-COUNT" "1" ] ]
         else [])
     ++ [ node (N + 5 + c + r) "NVM-BLOCK-STORAGE"
            [ leaf (N + 6 + c + r) "STORAGE-DEVICE" "EEPROM";
              leaf (N + 7 + c + r) "STORAGE-ADDRESS" (Py.hex (i * size)) ] ]).

(** The blocks of indices [a .. a+k-1]. *)
Definition nvm_blocks (size : Z) (strategy : string) (crc red : bool)
    (a k : nat) : list element :=
  map (fun i => nvm_block_tree size strategy crc red
                               (13 + nvm_stride crc red * i) (Z.of_nat i))
      (seq a k).

Definition nvm_wear_leveling (N : nat) : element :=
  node N "NVM-WEAR-LEVELING"
    [ leaf (N + 1) "WEAR-LEVELING-ENABLED" "true";
      leaf (N + 2) "WEAR-LEVELING-THRESHOLD" "1000" ].

(** The whole NvM document for [n] blocks. *)
Definition nvm_document (size : Z) (strategy : string) (n : nat)
    (crc red wear : bool) : element :=
  nvm_frame (nvm_blocks size strategy crc red 0 n)
            (if wear then [nvm_wear_leveling (13 + nvm_stride crc red * n)]
             else []).

Lemma nvm_frame_blocks : frame_of (fun kids => nvm_frame kids []) 12 13.
Proof.
  intros p c kids [-> | Hp].
  - reflexivity.
  - unfold nvm_frame, doc_root, admin_data_tree, node, leaf.
    cbn [add_child map app]. eqb_false p.
    cbn [app]. rewrite ?app_nil_r. reflexivity.
Qed.

Lemma nvm_frame_tail kids bound :
  13 <= bound ->
  (forall u, In u (forest_uids kids) -> 13 <= u < bound) ->
  frame_of (nvm_frame kids) 10 bound.
Proof.
  intros Hb Hk p c tail Hp.
  assert (Hfresh : ~ In p (forest_uids kids)).
  { intros H. apply Hk in H. lia. }
  unfold nvm_frame, doc_root, admin_data_tree, node, leaf.
  cbn [add_child map app].
  rewrite (add_child_fresh_forest _ _ _ Hfresh).
  destruct Hp as [-> | Hp].
  - cbn [Nat.eqb app]. rewrite ?app_nil_r. reflexivity.
  - eqb_false p. cbn [app]. rewrite ?app_nil_r. reflexivity.
Qed.

End NvmShapes.

Section NvmRun.
Context {ext : Externals}.
Variables (size : Z) (strategy : string).
Variable p : nvm_params.
Hypothesis Hsize : blockSize p = Some size.
Hypothesis Hstrategy : writeStrategy p = Some strategy.

Local Abbreviation crc := (get_default (crcProtection p) true).
Local Abbreviation red := (get_default (redundancy p) false).
Local Abbreviation B := (fun kids => nvm_frame kids []).

(** One turn of the loop adds one block after those the container has. *)
Lemma nvm_block_run N i kids lg :
  13 <= N ->
  (forall u, In u (forest_uids kids) -> 13 <= u < N) ->
  nvm_block p 12 i (mk_store N [B kids] lg) =
  (inr tt,
   mk_store (nvm_stride crc red + N)
            [B (kids ++ [nvm_block_tree size strategy crc red N i])] lg).
Proof.
  intros HN Hk.
  assert (H12 : ~ In 12 (forest_uids kids)) by (intros H; apply Hk in H; lia).
  assert (HNk : ~ In N (forest_uids kids)) by (intros H; apply Hk in H; lia).
  pose proof nvm_frame_blocks as HC.
  unfold nvm_block, nvm_block_tree, nvm_stride.
  rewrite Hsize, Hstrategy.
  destruct (get_default (crcProtection p) true);
    destruct (get_default (redundancy p) false);
    cbn [when item];
    repeat (rewrite bind_bind || rewrite bind_ret);
    repeat (rewrite bind_SubElement by text_accepted; cbn [map];
            first
              [ rewrite (frame_add_focus _ _ _ HC) by exact H12
              | rewrite (frame_add_last _ _ _ HC)
                  by first [ lia | assumption | notin ]
              | rewrite (frame_add_last2 _ _ _ HC)
                  by first [ lia | assumption
                           | let H := fresh in
                             intros H; apply Hk in H; lia
                           | notin ] ];
            repeat (rewrite bind_bind || rewrite bind_ret));
    unfold ret, node, leaf; cbn [app];
    rewrite ?Nat.add_succ_r, ?Nat.add_0_r; reflexivity.
Qed.

Lemma nvm_block_tree_uids N i u :
  In u (uids (nvm_block_tree size strategy crc red N i)) ->
  N <= u < nvm_stride crc red + N.
Proof.
  unfold nvm_block_tree, nvm_stride.
  destruct (get_default (crcProtection p) true);
    destruct (get_default (redundancy p) false); notin.
Qed.

Lemma nvm_blocks_uids a k u :
  In u (forest_uids (nvm_blocks size strategy crc red a k)) ->
  13 + nvm_stride crc red * a <= u < 13 + nvm_stride crc red * (a + k).
Proof.
  unfold nvm_blocks, forest_uids. rewrite in_flat_map.
  intros (x & Hx & Hu). apply in_map_iff in Hx as (i & <- & Hi).
  apply in_seq in Hi. apply nvm_block_tree_uids in Hu. nia.
Qed.

(** The loop over the indices [a .. a+k-1]. *)
Lemma nvm_loop_run k : forall a kids lg,
  (forall u, In u (forest_uids kids) ->
             13 <= u < 13 + nvm_stride crc red * a) ->
  for_each (map Z.of_nat (seq a k)) (nvm_block p 12)
           (mk_store (13 + nvm_stride crc red * a) [B kids] lg) =
  (inr tt, mk_store (13 + nvm_stride crc red * (a + k))
                    [B (kids ++ nvm_blocks size strategy crc red a k)] lg).
Proof.
  induction k as [|k IH]; intros a kids lg Hk.
  - cbn [seq map for_each nvm_blocks]. rewrite app_nil_r, Nat.add_0_r.
    reflexivity.
  - cbn [seq map]. rewrite for_each_cons. unfold bind.
    rewrite nvm_block_run by (lia || exact Hk).
    replace (nvm_stride crc red + (13 + nvm_stride crc red * a))
      with (13 + nvm_stride crc red * S a) by lia.
    rewrite IH.
    + replace (S a + k) with (a + S k) by lia.
      rewrite <- app_assoc. reflexivity.
    + intros u Hu. rewrite forest_uids_app in Hu.
      apply in_app_or in Hu as [Hu | Hu].
      * apply Hk in Hu. lia.
      * rewrite forest_uids_cons in Hu. cbn [forest_uids flat_map] in Hu.
        rewrite app_nil_r in Hu. apply nvm_block_tree_uids in Hu. lia.
Qed.

Lemma nvm_loop_run0 (n : Z) lg :
  for_each (Py.range n) (nvm_block p 12) (mk_store 13 [B []] lg) =
  (inr tt, mk_store (13 + nvm_stride crc red * Z.to_nat n)
                    [B (nvm_blocks size strategy crc red 0 (Z.to_nat n))] lg).
Proof.
  unfold Py.range.
  pose proof (nvm_loop_run (Z.to_nat n) 0 [] lg) as H.
  rewrite Nat.mul_0_r, Nat.add_0_r in H. apply H.
  intros u [].
Qed.

Lemma lookup_nvm_frame kids tail rest :
  lookup_forest 0 (nvm_frame kids tail :: rest) = Some (nvm_frame kids tail).
Proof. reflexivity. Qed.

(** Running the generator on a record that has its three required keys. *)
Lemma generate_nvm_config_run (n : Z) :
  blockCount p = Some n ->
  let wear := get_default (wearLeveling p) true in
  let doc := nvm_document size strategy (Z.to_nat n) crc red wear in
  generate_nvm_config p new_store =
  (inr (etree_tostring doc),
   mk_store (13 + nvm_stride crc red * Z.to_nat n + (if wear then 3 else 0))
            [doc]
            [(INFO, ("Generating NvM config with " ++ Py.str n
                     ++ " blocks of " ++ Py.str size ++ " bytes")%string)]).
Proof.
  intros Hn wear doc. subst doc wear.
  unfold generate_nvm_config. rewrite Hn, Hsize.
  unfold new_store, create_root, add_admin_data, create_ar_package.
  run_prefix.
  match goal with
  | |- context [mk_store 13 [?T] ?lg] => change T with (B [])
  end.
  unfold bind at 1. rewrite nvm_loop_run0.
  unfold nvm_document.
  set (k := Z.to_nat n).
  set (kids := nvm_blocks size strategy crc red 0 k).
  assert (Hk : forall u, In u (forest_uids kids) ->
                         13 <= u < 13 + nvm_stride crc red * k).
  { intros u Hu. apply nvm_blocks_uids in Hu. lia. }
  pose proof (nvm_frame_tail kids _ (Nat.le_add_r 13 _) Hk) as HC.
  destruct (get_default (wearLeveling p) true);
    cbn [when];
    repeat (rewrite bind_bind || rewrite bind_ret);
    repeat (rewrite bind_SubElement by text_accepted; cbn [map];
            first [ rewrite (frame_add_focus _ _ _ HC) by notin
                  | rewrite (frame_add_last _ _ _ HC)
                      by first [ lia | notin ] ];
            repeat (rewrite bind_bind || rewrite bind_ret));
    rewrite to_string_run; unfold tree_of; cbn [docs];
    rewrite lookup_nvm_frame;
    unfold nvm_wear_leveling, node, leaf; cbn [app];
    rewrite ?Nat.add_succ_r, ?Nat.add_0_r; reflexivity.
Qed.

End NvmRun.

(* ===================================================================== *)
(** * Reading the generated documents *)
(* ===================================================================== *)

(** The text of the first child with tag [t] ([e.find(t).text]). *)
Definition child_text (t : string) (e : element) : option string :=
  match find_child t e with
  | Some c => text_of c
  | None => None
  end.

Definition has_tag (t : string) (e : element) : bool :=
  String.eqb (tag_of e) t.

Lemma filter_flat_map {A B : Type} (P : B -> bool) (f : A -> list B) l :
  filter P (flat_map f l) = flat_map (fun x => filter P (f x)) l.
Proof.
  induction l as [|x l IH]; [reflexivity|].
  cbn [flat_map]. rewrite filter_app, IH. reflexivity.
Qed.

Lemma flat_map_singleton {A B : Type} (f : A -> B) l :
  flat_map (fun x => [f x]) l = map f l.
Proof.
  induction l as [|x l IH]; [reflexivity|].
  cbn [flat_map map app]. rewrite IH. reflexivity.
Qed.

Lemma flat_map_nil {A B : Type} (l : list A) :
  flat_map (fun _ => @nil B) l = [].
Proof. induction l as [|x l IH]; [reflexivity|]. exact IH. Qed.

Lemma flat_map_map {A B D : Type} (f : A -> B) (g : B -> list D) l :
  flat_map g (map f l) = flat_map (fun x => g (f x)) l.
Proof.
  induction l as [|x l IH]; [reflexivity|]. cbn [map flat_map].
  rewrite IH. reflexivity.
Qed.

Lemma range_length (n : Z) : (0 <= n)%Z -> Z.of_nat (length (Py.range n)) = n.
Proof.
  intros H. unfold Py.range. rewrite length_map, length_seq. lia.
Qed.

Section CanRead.
Context {ext : Externals}.
Variables (ecu : string) (baud : Z).

(** The elements of the frame itself, in document order: the seventeen
    that precede the children [kids] of the controller. *)
Definition can_spine (kids : list element) : list element :=
  firstn 17 (descendants (can_frame ecu baud kids)).

Lemma can_frame_descendants kids :
  descendants (can_frame ecu baud kids) =
  can_spine kids ++ flat_map subtree kids.
Proof.
  unfold can_spine, can_frame, doc_root, admin_data_tree, node, leaf.
  cbn [descendants flat_map app]. rewrite ?app_nil_r.
  cbn [firstn app]. reflexivity.
Qed.

(** The children of the controller that follow the hardware objects. *)
Definition can_tail (n : nat) (eh wk : bool) : list element :=
  (if eh then [can_error_handling (18 + 5 * n)] else [])
  ++ (if wk
      then [can_wakeup_support (18 + 5 * n + (if eh then 4 else 0))]
      else []).

Lemma can_document_descendants n eh wk :
  descendants (can_document ecu baud n eh wk) =
  can_spine (can_hw_objects 0 n ++ can_tail n eh wk)
  ++ flat_map subtree (can_hw_objects 0 n)
  ++ flat_map subtree (can_tail n eh wk).
Proof.
  unfold can_document. fold (can_tail n eh wk).
  rewrite can_frame_descendants, flat_map_app. reflexivity.
Qed.

(** The hardware objects are all the elements with that tag. *)
Lemma can_document_hw_objects n eh wk :
  findall_desc "CAN-HW-OBJECT" (can_document ecu baud n eh wk) =
  can_hw_objects 0 n.
Proof.
  unfold findall_desc. rewrite can_document_descendants, !filter_app.
  replace (filter _ (can_spine _)) with (@nil element) by reflexivity.
  replace (filter _ (flat_map subtree (can_tail n eh wk)))
    with (@nil element) by (destruct eh, wk; reflexivity).
  rewrite app_nil_r. cbn [app].
  unfold can_hw_objects. rewrite filter_flat_map, flat_map_map.
  apply flat_map_singleton.
Qed.

End CanRead.

(* ===================================================================== *)
(** * The timing table *)
(* ===================================================================== *)

(** C3.  For every integer baudrate the timing resolver returns a tuple:
    (6, 7, 2, 1) for 125, 250 and 500, (5, 6, 2, 1) for 1000, and for every
    other integer the tuple of 500, which is (6, 7, 2, 1). *)
Theorem calculate_can_timing_table (baudrate_kbps : Z) :
  calculate_can_timing baudrate_kbps =
    (if existsb (Z.eqb baudrate_kbps) [125; 250; 500]%Z
     then mk_timing 6 7 2 1
     else if (baudrate_kbps =? 1000)%Z then mk_timing 5 6 2 1
     else calculate_can_timing 500)
  /\ calculate_can_timing 500 = mk_timing 6 7 2 1
  /\ calculate_can_timing 125 = mk_timing 6 7 2 1
  /\ calculate_can_timing 250 = mk_timing 6 7 2 1
  /\ calculate_can_timing 1000 = mk_timing 5 6 2 1.
Proof.
  repeat split; try reflexivity.
  unfold calculate_can_timing, timing_configs.
  cbn [Py.dict_get existsb].
  rewrite (Z.eqb_sym baudrate_kbps 125), (Z.eqb_sym baudrate_kbps 250),
    (Z.eqb_sym baudrate_kbps 500), (Z.eqb_sym baudrate_kbps 1000).
  destruct (125 =? baudrate_kbps)%Z; [reflexivity|].
  destruct (250 =? baudrate_kbps)%Z; [reflexivity|].
  destruct (500 =? baudrate_kbps)%Z; [reflexivity|].
  destruct (1000 =? baudrate_kbps)%Z; reflexivity.
Qed.

(* ===================================================================== *)
(** * The CAN generator *)
(* ===================================================================== *)

Lemma even_mod2 (i : Z) : (i mod 2 =? 0)%Z = Z.even i.
Proof. rewrite Zmod_even. destruct (Z.even i); reflexivity. Qed.

(** C1. For a record with [messageObjects = n], [1 <= n <= 128], an ECU type
    that lxml accepts as a text (every ECU type of the schema is one) and a
    baudrate, the generator returns the serialisation of a document with one
    controller whose CAN-HW-OBJECT children are all the hardware objects of
    the document; there are exactly [n] of them, their directions alternate
    from TRANSMIT at index 0, their identifiers are 256, 257, ..., 256 + n -
    1, and the baudrate configuration of the controller holds the baudrate
    times 1000 and the four fields of [calculate_can_timing]. *)
Theorem generate_can_config_objects {ext : Externals} (params : can_params)
    (ecu : string) (baud n : Z) :
  ecuType params = Some ecu ->
  xml_compatible ecu = true ->
  baudrate params = Some baud ->
  messageObjects params = Some n ->
  (1 <= n <= 128)%Z ->
  exists doc s ctrl cfg,
    generate_can_config params new_store = (inr (etree_tostring doc), s)
    /\ findall_desc "CAN-CONTROLLER" doc = [ctrl]
    /\ findall_desc "CAN-CONTROLLER-BAUDRATE-CONFIG" doc = [cfg]
    /\ find_child "CAN-CONTROLLER-BAUDRATE-CONFIG" ctrl = Some cfg
    /\ findall_desc "CAN-HW-OBJECT" doc =
       filter (has_tag "CAN-HW-OBJECT") (children_of ctrl)
    /\ Z.of_nat (length (findall_desc "CAN-HW-OBJECT" doc)) = n
    /\ map (child_text "OBJECT-TYPE") (findall_desc "CAN-HW-OBJECT" doc) =
       map (fun i => Some (if Z.even i then "TRANSMIT" else "RECEIVE"))
           (Py.range n)
    /\ map (child_text "CAN-OBJECT-ID") (findall_desc "CAN-HW-OBJECT" doc) =
       map (fun i => Some (Py.str (256 + i))) (Py.range n)
    /\ child_text "BAUDRATE" cfg = Some (Py.str (baud * 1000))
    /\ child_text "PROP-SEG" cfg =
       Some (Py.str (prop_seg (calculate_can_timing baud)))
    /\ child_text "PHASE-SEG1" cfg =
       Some (Py.str (phase_seg1 (calculate_can_timing baud)))
    /\ child_text "PHASE-SEG2" cfg =
       Some (Py.str (phase_seg2 (calculate_can_timing baud)))
    /\ child_text "SYNC-JUMP-WIDTH" cfg =
       Some (Py.str (sjw (calculate_can_timing baud))).
Proof.
  intros He Hecu Hb Hn Hrange.
  pose proof (generate_can_config_run ecu baud Hecu params n He Hb Hn) as Hrun.
  cbv zeta in Hrun.
  set (eh := get_default (errorHandling params) true) in *.
  set (wk := get_default (wakeupSupport params) false) in *.
  set (k := Z.to_nat n) in *.
  eexists (can_document ecu baud k eh wk), _, _, _.
  split; [exact Hrun|].
  rewrite can_document_hw_objects.
  unfold findall_desc. rewrite can_document_descendants, !filter_app.
  split; [|split; [|split; [|split; [|split; [|split; [|split]]]]]].
  - replace (filter _ (flat_map subtree (can_hw_objects 0 k)))
      with (@nil element).
    2:{ unfold can_hw_objects. rewrite filter_flat_map, flat_map_map.
        symmetry. apply flat_map_nil. }
    replace (filter _ (flat_map subtree (can_tail k eh wk)))
      with (@nil element) by (destruct eh, wk; reflexivity).
    reflexivity.
  - replace (filter _ (flat_map subtree (can_hw_objects 0 k)))
      with (@nil element).
    2:{ unfold can_hw_objects. rewrite filter_flat_map, flat_map_map.
        symmetry. apply flat_map_nil. }
    replace (filter _ (flat_map subtree (can_tail k eh wk)))
      with (@nil element) by (destruct eh, wk; reflexivity).
    reflexivity.
  - reflexivity.
  - cbn [children_of app filter has_tag tag_of data_of tag node leaf
         String.eqb Ascii.eqb Bool.eqb].
    rewrite filter_app.
    replace (filter _ (can_tail k eh wk)) with (@nil element)
      by (destruct eh, wk; reflexivity).
    rewrite app_nil_r. unfold can_hw_objects.
    induction (seq 0 k) as [|i l IH]; [reflexivity|].
    cbn [map filter]. rewrite <- IH. reflexivity.
  - unfold can_hw_objects. rewrite length_map, length_seq. lia.
  - unfold can_hw_objects, Py.range. rewrite !map_map.
    apply map_ext. intros i. unfold child_text. cbn.
    rewrite even_mod2. reflexivity.
  - unfold can_hw_objects, Py.range. rewrite !map_map.
    apply map_ext. intros i. reflexivity.
  - repeat split; reflexivity.
Qed.

(** A record with two message objects, as in the module's own test. *)
Definition can_params_example : can_params :=
  mk_can_params (Some "powertrain") (Some 500%Z) (Some 2%Z) None None.

Lemma generate_can_config_objects_witness :
  exists doc s ctrl cfg,
    @generate_can_config RefXml.externals can_params_example new_store =
      (inr (RefXml.tostring doc), s)
    /\ findall_desc "CAN-CONTROLLER" doc = [ctrl]
    /\ findall_desc "CAN-CONTROLLER-BAUDRATE-CONFIG" doc = [cfg]
    /\ find_child "CAN-CONTROLLER-BAUDRATE-CONFIG" ctrl = Some cfg
    /\ findall_desc "CAN-HW-OBJECT" doc =
       filter (has_tag "CAN-HW-OBJECT") (children_of ctrl)
    /\ Z.of_nat (length (findall_desc "CAN-HW-OBJECT" doc)) = 2%Z
    /\ map (child_text "OBJECT-TYPE") (findall_desc "CAN-HW-OBJECT" doc) =
       [Some "TRANSMIT"; Some "RECEIVE"]
    /\ map (child_text "CAN-OBJECT-ID") (findall_desc "CAN-HW-OBJECT" doc) =
       [Some "256"; Some "257"]
    /\ child_text "BAUDRATE" cfg = Some "500000"
    /\ child_text "PROP-SEG" cfg = Some "6"
    /\ child_text "PHASE-SEG1" cfg = Some "7"
    /\ child_text "PHASE-SEG2" cfg = Some "2"
    /\ child_text "SYNC-JUMP-WIDTH" cfg = Some "1".
Proof.
  assert (R : (1 <= 2 <= 128)%Z) by lia.
  exact (@generate_can_config_objects RefXml.externals can_params_example
           "powertrain" 500%Z 2%Z eq_refl eq_refl eq_refl eq_refl R).
Defined.

(* ===================================================================== *)
(** * The NvM generator *)
(* ===================================================================== *)

Section NvmRead.
Context {ext : Externals}.
Variables (size : Z) (strategy : string) (crc red : bool).

(** The elements of the frame itself: the twelve that precede the blocks. *)
Definition nvm_spine (kids tail : list element) : list element :=
  firstn 12 (descendants (nvm_frame kids tail)).

Lemma nvm_frame_descendants kids tail :
  descendants (nvm_frame kids tail) =
  nvm_spine kids tail ++ flat_map subtree kids ++ flat_map subtree tail.
Proof.
  unfold nvm_spine, nvm_frame, doc_root, admin_data_tree, node, leaf.
  cbn [descendants flat_map app]. rewrite ?app_nil_r.
  cbn [firstn app]. reflexivity.
Qed.

Definition nvm_tail (n : nat) (wear : bool) : list element :=
  if wear then [nvm_wear_leveling (13 + nvm_stride crc red * n)] else [].

Lemma nvm_document_descendants n wear :
  descendants (nvm_document size strategy n crc red wear) =
  nvm_spine (nvm_blocks size strategy crc red 0 n) (nvm_tail n wear)
  ++ flat_map subtree (nvm_blocks size strategy crc red 0 n)
  ++ flat_map subtree (nvm_tail n wear).
Proof. unfold nvm_document. apply nvm_frame_descendants. Qed.

(** The blocks are all the elements with that tag. *)
Lemma nvm_document_blocks n wear :
  findall_desc "NVM-BLOCK" (nvm_document size strategy n crc red wear) =
  nvm_blocks size strategy crc red 0 n.
Proof.
  unfold findall_desc. rewrite nvm_document_descendants, !filter_app.
  replace (filter _ (nvm_spine _ _)) with (@nil element) by reflexivity.
  replace (filter _ (flat_map subtree (nvm_tail n wear)))
    with (@nil element) by (destruct wear; reflexivity).
  rewrite app_nil_r. cbn [app].
  unfold nvm_blocks. rewrite filter_flat_map, flat_map_map.
  rewrite <- flat_map_singleton. apply flat_map_ext. intros i.
  destruct crc, red; reflexivity.
Qed.

End NvmRead.

(** The write-strategy table as the claim spells it. *)
Definition write_strategy_constant (strategy : string) : string :=
  if String.eqb strategy "immediate" then "NVM_WRITE_BLOCK_ONCE"
  else if String.eqb strategy "deferred" then "NVM_WRITE_BLOCK_CYCLIC"
  else if String.eqb strategy "triggered" then "NVM_WRITE_BLOCK_TRIGGERED"
  else "NVM_WRITE_BLOCK_CYCLIC".

Lemma write_strategy_map_get (strategy : string) :
  Py.dict_get String.eqb write_strategy_map strategy "NVM_WRITE_BLOCK_CYCLIC"
  = write_strategy_constant strategy.
Proof.
  unfold write_strategy_constant, write_strategy_map. cbn [Py.dict_get].
  rewrite (String.eqb_sym "immediate"), (String.eqb_sym "deferred"),
    (String.eqb_sym "triggered").
  reflexivity.
Qed.

(** C2.  For a record with [blockCount = n] in [1, 256], [blockSize = s] in
    [1, 65535] and a write strategy, the generator returns the
    serialisation of a document with exactly [n] blocks; in document order
    their identifiers are 1, ..., n, each length is [s], the storage
    address of block [i] is the hexadecimal rendering of [i * s], and the
    write strategy is the table entry of the input, NVM_WRITE_BLOCK_CYCLIC
    for a string that is not a key of the table. *)
Theorem generate_nvm_config_blocks {ext : Externals} (params : nvm_params)
    (n s : Z) (strategy : string) :
  blockCount params = Some n ->
  blockSize params = Some s ->
  writeStrategy params = Some strategy ->
  (1 <= n <= 256)%Z ->
  (1 <= s <= 65535)%Z ->
  exists doc st,
    generate_nvm_config params new_store = (inr (etree_tostring doc), st)
    /\ Z.of_nat (length (findall_desc "NVM-BLOCK" doc)) = n
    /\ map (child_text "NVM-BLOCK-ID") (findall_desc "NVM-BLOCK" doc) =
       map (fun i => Some (Py.str (i + 1))) (Py.range n)
    /\ map (child_text "NVM-BLOCK-LENGTH") (findall_desc "NVM-BLOCK" doc) =
       map (fun _ => Some (Py.str s)) (Py.range n)
    /\ map (fun b => map text_of (findall_desc "STORAGE-ADDRESS" b))
           (findall_desc "NVM-BLOCK" doc) =
       map (fun i => [Some ("0x" ++ Py.hex_digits (i * s))%string])
           (Py.range n)
    /\ map (child_text "NVM-WRITE-STRATEGY") (findall_desc "NVM-BLOCK" doc) =
       map (fun _ => Some (write_strategy_constant strategy)) (Py.range n)
    /\ write_strategy_constant "immediate" = "NVM_WRITE_BLOCK_ONCE"
    /\ write_strategy_constant "deferred" = "NVM_WRITE_BLOCK_CYCLIC"
    /\ write_strategy_constant "triggered" = "NVM_WRITE_BLOCK_TRIGGERED"
    /\ (forall other,
          existsb (String.eqb other) ["immediate"; "deferred"; "triggered"]
          = false ->
          write_strategy_constant other = "NVM_WRITE_BLOCK_CYCLIC").
Proof.
  intros Hn Hs Hw Hnr Hsr.
  pose proof (generate_nvm_config_run s strategy params Hs Hw n Hn) as Hrun.
  cbv zeta in Hrun.
  set (crc := get_default (crcProtection params) true) in *.
  set (red := get_default (redundancy params) false) in *.
  set (wear := get_default (wearLeveling params) true) in *.
  set (k := Z.to_nat n) in *.
  eexists (nvm_document s strategy k crc red wear), _.
  split; [exact Hrun|].
  rewrite nvm_document_blocks. unfold nvm_blocks, Py.range.
  fold k. rewrite !map_map, length_map, length_seq.
  split; [lia|].
  split; [apply map_ext; intros i; destruct crc, red; reflexivity|].
  split; [apply map_ext; intros i; destruct crc, red; reflexivity|].
  split.
  { apply map_ext. intros i.
    replace (map text_of _) with [Some (Py.hex (Z.of_nat i * s))]
      by (destruct crc, red; reflexivity).
    unfold Py.hex.
    destruct (Z.ltb_spec (Z.of_nat i * s) 0) as [Hneg|_]; [nia|reflexivity]. }
  split.
  { apply map_ext. intros i. rewrite <- write_strategy_map_get.
    destruct crc, red; reflexivity. }
  repeat split; try reflexivity.
  intros other. unfold write_strategy_constant. cbn [existsb].
  rewrite !orb_false_r. intros H.
  apply orb_false_elim in H as [H1 H].
  apply orb_false_elim in H as [H2 H3].
  rewrite H1, H2, H3. reflexivity.
Qed.

(** A record with three blocks of sixteen bytes. *)
Definition nvm_params_example : nvm_params :=
  mk_nvm_params (Some 3%Z) (Some 16%Z) (Some "immediate") None None None.

Lemma generate_nvm_config_blocks_witness :
  exists doc st,
    @generate_nvm_config RefXml.externals nvm_params_example new_store =
      (inr (RefXml.tostring doc), st)
    /\ Z.of_nat (length (findall_desc "NVM-BLOCK" doc)) = 3%Z
    /\ map (child_text "NVM-BLOCK-ID") (findall_desc "NVM-BLOCK" doc) =
       [Some "1"; Some "2"; Some "3"]
    /\ map (child_text "NVM-BLOCK-LENGTH") (findall_desc "NVM-BLOCK" doc) =
       [Some "16"; Some "16"; Some "16"]
    /\ map (fun b => map text_of (findall_desc "STORAGE-ADDRESS" b))
           (findall_desc "NVM-BLOCK" doc) =
       [[Some "0x0"]; [Some "0x10"]; [Some "0x20"]]
    /\ map (child_text "NVM-WRITE-STRATEGY") (findall_desc "NVM-BLOCK" doc) =
       [Some "NVM_WRITE_BLOCK_ONCE"; Some "NVM_WRITE_BLOCK_ONCE";
        Some "NVM_WRITE_BLOCK_ONCE"]
    /\ write_strategy_constant "immediate" = "NVM_WRITE_BLOCK_ONCE"
    /\ write_strategy_constant "deferred" = "NVM_WRITE_BLOCK_CYCLIC"
    /\ write_strategy_constant "triggered" = "NVM_WRITE_BLOCK_TRIGGERED"
    /\ (forall other,
          existsb (String.eqb other) ["immediate"; "deferred"; "triggered"]
          = false ->
          write_strategy_constant other = "NVM_WRITE_BLOCK_CYCLIC").
Proof.
  assert (R1 : (1 <= 3 <= 256)%Z) by lia.
  assert (R2 : (1 <= 16 <= 65535)%Z) by lia.
  exact (@generate_nvm_config_blocks RefXml.externals nvm_params_example
           3%Z 16%Z "immediate" eq_refl eq_refl eq_refl R1 R2).
Defined.

(* ===================================================================== *)
(** * The validator *)
(* ===================================================================== *)

Section Validator.
Context {ext : Externals}.

(** What the checks of [validate_arxml] read off a parsed document. *)
Definition root_tag_ok (root : element) : bool :=
  String.eqb (tag_of root) "AUTOSAR" || Py.endswith (tag_of root) "}AUTOSAR".

Definition has_packages (root : element) : bool :=
  negb (is_empty
          (findall_desc "{http://autosar.org/schema/r4.0}AR-PACKAGES" root))
  || negb (is_empty (findall_desc "AR-PACKAGES" root)).

(** [root.nsmap.get(None, '') or '']. *)
Definition default_namespace (root : element) : string :=
  Py.dict_get text_eqb (nsmap (data_of root)) None "".

Definition short_names (root : element) : list (option string) :=
  let qualified :=
    map text_of
        (findall_desc "{http://autosar.org/schema/r4.0}SHORT-NAME" root) in
  if is_empty qualified then map text_of (findall_desc "SHORT-NAME" root)
  else qualified.

Definition duplicates (root : element) : list (option string) :=
  Py.set_of text_eqb
    (filter (fun name => (1 <? Py.count text_eqb (short_names root) name)%nat)
            (short_names root)).

Definition namespace_warning : string :=
  "Standard AUTOSAR namespace not declared".

Definition root_errors (root : element) : list string :=
  if root_tag_ok root then [] else ["Root element must be <AUTOSAR>"].

Definition structure_warnings (root : element) : list string :=
  (if has_packages root then [] else ["No AR-PACKAGES found in configuration"])
  ++ (if Py.contains AUTOSAR_NS (default_namespace root) then []
      else [namespace_warning]).

Definition all_recommendations (content : string) : list string :=
  (if (Py.len content <? 500)%nat
   then ["Configuration seems minimal; consider adding more modules"]
   else [])
  ++ ["Consider adding ADMIN-DATA section with revision history";
      "Verify parameter values against ECU hardware specifications"].

(** The report for a document that parses. *)
Definition parsed_report (content : string) (root : element) : report :=
  let count := length (findall_star root) in
  match duplicates root with
  | [] =>
      mk_report (is_empty (root_errors root)) (root_errors root)
                (structure_warnings root) (all_recommendations content) count
  | _ :: _ =>
      match first_none (duplicates root) 0 with
      | Some i =>
          mk_report false
            (root_errors root
             ++ [("Validation error: sequence item " ++ Py.str (Z.of_nat i)
                  ++ ": expected str instance, NoneType found")%string])
            (structure_warnings root) [] count
      | None =>
          mk_report (is_empty (root_errors root)) (root_errors root)
            (structure_warnings root
             ++ [("Duplicate SHORT-NAMEs found: "
                  ++ Py.join ", " (somes (duplicates root)))%string])
            (all_recommendations content) count
      end
  end.

Lemma validate_arxml_parsed content version root :
  etree_fromstring content = inr root ->
  validate_arxml content version = inr (parsed_report content root).
Proof.
  intros Hparse.
  unfold validate_arxml, validate_try, try_except, validate_body.
  unfold bind at 1. unfold bind_root at 1. rewrite Hparse.
  fold (short_names root). fold (duplicates root).
  unfold parsed_report, root_errors, structure_warnings, all_recommendations,
    root_tag_ok, has_packages, default_namespace, namespace_warning,
    AUTOSAR_NS.
  destruct (String.eqb (tag_of root) "AUTOSAR");
    destruct (Py.endswith (tag_of root) "}AUTOSAR");
    destruct (is_empty
                (findall_desc "{http://autosar.org/schema/r4.0}AR-PACKAGES"
                              root));
    destruct (is_empty (findall_desc "AR-PACKAGES" root));
    destruct (Py.contains "http://autosar.org/schema/r4.0"
                (Py.dict_get text_eqb (nsmap (data_of root)) None ""));
    destruct (Py.len content <? 500)%nat;
    destruct (duplicates root) as [|d ds];
    cbn [when negb andb orb is_empty];
    unfold join_names;
    try destruct (first_none (d :: ds) 0);
    reflexivity.
Qed.

(** The report for a document that fails to parse. *)
Lemma validate_arxml_failed content version e :
  etree_fromstring content = inl e ->
  validate_arxml content version =
  inr (mk_report false
         [match e with
          | XMLSyntaxError msg => ("XML syntax error: " ++ msg)%string
          | _ => ("Validation error: " ++ exn_str e)%string
          end] [] [] 0).
Proof.
  intros Hparse.
  unfold validate_arxml, validate_try, try_except, validate_body.
  unfold bind at 1. unfold bind_root at 1. rewrite Hparse.
  destruct e; reflexivity.
Qed.

Lemma is_empty_nil {A : Type} (l : list A) : is_empty l = true <-> l = [].
Proof. destruct l; split; intros H; (reflexivity || discriminate). Qed.

(** C4 (amended).  For every input string the validator returns a report
    and does not raise; the report is valid exactly when its error list is
    empty, whatever the warnings and recommendations are.  When reading
    the input fails, the report is not valid, its element count is zero
    and it has exactly one error: "XML syntax error: " and the message
    when the failure is a syntax error of the parser, and "Validation
    error: " and the message for every other failure of that line, such
    as the encoding error for a string that holds a surrogate. *)
Theorem validate_arxml_never_raises (content version : string) :
  exists r,
    validate_arxml content version = inr r
    /\ (valid r = true <-> errors r = [])
    /\ (forall msg,
          etree_fromstring content = inl (XMLSyntaxError msg) ->
          errors r = [("XML syntax error: " ++ msg)%string]
          /\ elementCount r = 0
          /\ valid r = false)
    /\ (forall e,
          etree_fromstring content = inl e ->
          is_syntax_error e = false ->
          errors r = [("Validation error: " ++ exn_str e)%string]
          /\ elementCount r = 0
          /\ valid r = false).
Proof.
  destruct (etree_fromstring content) as [e | root] eqn:Hparse.
  - rewrite (validate_arxml_failed content version e Hparse).
    eexists. split; [reflexivity|]. cbn [valid errors elementCount].
    split; [split; discriminate|]. split.
    + intros msg Hmsg. injection Hmsg as ->. repeat split.
    + intros e' He' Hsyntax. injection He' as <-.
      destruct e; try discriminate Hsyntax; repeat split.
  - rewrite (validate_arxml_parsed content version root Hparse).
    eexists. split; [reflexivity|]. split; [|split].
    + unfold parsed_report.
      destruct (duplicates root) as [|d ds];
        [|destruct (first_none (d :: ds) 0)];
        cbn [valid errors]; try apply is_empty_nil.
      split; [discriminate|]. intros H.
      apply app_eq_nil in H as [_ H]. discriminate.
    + intros msg Hmsg. discriminate.
    + intros e Hmsg. discriminate.
Qed.

(** C9 (amended).  For every document that parses, the namespace warning
    is among the warnings exactly when the expected namespace URI does not
    occur inside the declared default namespace, and then it is there
    once; a document that declares no default namespace counts as
    declaring the empty string. *)
Theorem validate_arxml_namespace_warning (content version : string)
    (root : element) :
  etree_fromstring content = inr root ->
  exists r,
    validate_arxml content version = inr r
    /\ filter (String.eqb namespace_warning) (warnings r) =
       (if Py.contains "http://autosar.org/schema/r4.0"
                       (default_namespace root)
        then [] else [namespace_warning]).
Proof.
  intros Hparse.
  rewrite (validate_arxml_parsed content version root Hparse).
  eexists. split; [reflexivity|].
  unfold parsed_report, structure_warnings, AUTOSAR_NS.
  destruct (duplicates root) as [|d ds];
    [|destruct (first_none (d :: ds) 0)];
    cbn [warnings];
    destruct (has_packages root);
    destruct (Py.contains "http://autosar.org/schema/r4.0"
                          (default_namespace root));
    reflexivity.
Qed.

End Validator.

(** Scenario: a text that is not XML. *)
Example validate_arxml_not_xml :
  @validate_arxml RefXml.externals "<not-xml" "4.2.2" =
  inr (mk_report false
         ["XML syntax error: Couldn't find end of Start Tag not-xml"]
         [] [] 0).
Proof. reflexivity. Qed.

(** The Python string that holds the lone surrogate U+D800. *)
Definition lone_surrogate : string :=
  String (ascii_of_nat 237) (String (ascii_of_nat 160)
    (String (ascii_of_nat 128) "")).

(** C4, as stated, fails: for this input the parse line fails, in
    [arxml_content.encode('utf-8')], with an error that is not a syntax
    error of the parser, and the one error of the report does not begin
    with "XML syntax error". *)
Lemma validate_arxml_encode_error :
  exists e r,
    RefXml.fromstring lone_surrogate = inl e
    /\ is_syntax_error e = false
    /\ @validate_arxml RefXml.externals lone_surrogate "4.2.2" = inr r
    /\ errors r =
       ["Validation error: 'utf-8' codec can't encode character '\ud800' in position 0: surrogates not allowed"]
    /\ map (String.prefix "XML syntax error") (errors r) = [false]
    /\ elementCount r = 0
    /\ valid r = false.
Proof. do 2 eexists. repeat split; vm_compute; reflexivity. Qed.

(** A document whose default namespace extends the expected URI. *)
Definition extended_namespace_doc : string :=
  "<AUTOSAR xmlns='http://autosar.org/schema/r4.0/extended'><AR-PACKAGES/></AUTOSAR>".

(** C9, as stated, fails: the document parses, its default namespace is
    not the expected URI, and yet the namespace warning is not issued (the
    only warning is about the packages, which are in the other
    namespace). *)
Lemma validate_arxml_namespace_counterexample :
  exists root r,
    RefXml.parse extended_namespace_doc = inr root
    /\ default_namespace root = "http://autosar.org/schema/r4.0/extended"
    /\ String.eqb (default_namespace root) "http://autosar.org/schema/r4.0"
       = false
    /\ @validate_arxml RefXml.externals extended_namespace_doc "4.2.2" = inr r
    /\ warnings r = ["No AR-PACKAGES found in configuration"].
Proof. do 2 eexists. repeat split; vm_compute; reflexivity. Qed.

Lemma validate_arxml_namespace_warning_witness :
  exists r,
    @validate_arxml RefXml.externals
      "<AUTOSAR xmlns='urn:other'><AR-PACKAGES/></AUTOSAR>" "4.2.2" = inr r
    /\ filter (String.eqb namespace_warning) (warnings r) =
       [namespace_warning].
Proof.
  exact (@validate_arxml_namespace_warning RefXml.externals
           "<AUTOSAR xmlns='urn:other'><AR-PACKAGES/></AUTOSAR>" "4.2.2"
           _ eq_refl).
Defined.

(* ===================================================================== *)
(** * Short names of the generated documents *)
(* ===================================================================== *)

(** [str] is injective: distinct integers print differently. *)
Lemma to_int_not_nil (z : Z) :
  Z.to_int z <> Decimal.Pos Decimal.Nil /\ Z.to_int z <> Decimal.Neg Decimal.Nil.
Proof.
  destruct z as [|q|q]; cbn [Z.to_int]; split; try discriminate;
    intros H; injection H as H;
    exact (DecimalPos.Unsigned.to_uint_nonnil q H).
Qed.

Lemma str_inj (a b : Z) : Py.str a = Py.str b -> a = b.
Proof.
  unfold Py.str. intros H.
  apply (f_equal DecimalString.NilZero.int_of_string) in H.
  destruct (to_int_not_nil a) as [Ha1 Ha2].
  destruct (to_int_not_nil b) as [Hb1 Hb2].
  rewrite !DecimalString.NilZero.isi in H by assumption.
  injection H as H. apply DecimalZ.to_int_inj. exact H.
Qed.

Lemma append_inj_l (pre a b : string) :
  (pre ++ a)%string = (pre ++ b)%string -> a = b.
Proof.
  induction pre as [|c pre IH]; cbn [append]; intros H; [exact H|].
  injection H as H. apply IH. exact H.
Qed.

Lemma numbered_names_NoDup (pre : string) (a k : nat) :
  NoDup (map (fun i => Some (pre ++ Py.str (Z.of_nat i))%string) (seq a k)).
Proof.
  apply Injective_map_NoDup; [|apply seq_NoDup].
  intros i j H. injection H as H.
  apply append_inj_l, str_inj in H. lia.
Qed.

Section ShortNames.
Context {ext : Externals}.

(** The texts of the SHORT-NAME elements of a tree as built (no
    namespace in the tags), in document order. *)
Definition built_short_names (doc : element) : list (option string) :=
  map text_of (findall_desc "SHORT-NAME" doc).

Lemma can_document_short_names ecu baud n eh wk :
  built_short_names (can_document ecu baud n eh wk) =
  Some "CanConfiguration"
  :: Some ("CanController_" ++ ecu)%string
  :: map (fun i => Some ("CanHwObject_" ++ Py.str (Z.of_nat i))%string)
         (seq 0 n).
Proof.
  unfold built_short_names, findall_desc.
  rewrite can_document_descendants, !filter_app, !map_app.
  replace (filter _ (flat_map subtree (can_tail n eh wk)))
    with (@nil element) by (destruct eh, wk; reflexivity).
  cbn [map]. rewrite app_nil_r.
  replace (map text_of (filter _ (can_spine ecu baud _)))
    with [Some "CanConfiguration"; Some ("CanController_" ++ ecu)%string]
    by reflexivity.
  cbn [app]. do 2 f_equal.
  unfold can_hw_objects. rewrite filter_flat_map, flat_map_map.
  induction (seq 0 n) as [|i l IH]; [reflexivity|].
  cbn [flat_map map]. rewrite map_app, IH. reflexivity.
Qed.

Lemma can_short_names_NoDup ecu n :
  NoDup (Some "CanConfiguration"
         :: Some ("CanController_" ++ ecu)%string
         :: map (fun i => Some ("CanHwObject_" ++ Py.str (Z.of_nat i))%string)
                (seq 0 n)).
Proof.
  constructor; [|constructor].
  - intros [H | H]; [discriminate H|].
    apply in_map_iff in H as (i & H & _). discriminate H.
  - intros H. apply in_map_iff in H as (i & H & _). discriminate H.
  - apply numbered_names_NoDup.
Qed.

Lemma nvm_document_short_names size strategy n crc red wear :
  built_short_names (nvm_document size strategy n crc red wear) =
  Some "NvMConfiguration"
  :: Some "NvMBlockConfiguration"
  :: map (fun i => Some ("NvMBlock_" ++ Py.str (Z.of_nat i))%string)
         (seq 0 n).
Proof.
  unfold built_short_names, findall_desc.
  rewrite nvm_document_descendants, !filter_app, !map_app.
  replace (filter _ (flat_map subtree (nvm_tail crc red n wear)))
    with (@nil element) by (destruct wear; reflexivity).
  cbn [map]. rewrite app_nil_r.
  replace (map text_of (filter _ (nvm_spine _ _)))
    with [Some "NvMConfiguration"; Some "NvMBlockConfiguration"]
    by reflexivity.
  cbn [app]. do 2 f_equal.
  unfold nvm_blocks. rewrite filter_flat_map, flat_map_map.
  induction (seq 0 n) as [|i l IH]; [reflexivity|].
  cbn [flat_map map]. rewrite map_app, IH.
  destruct crc, red; reflexivity.
Qed.

Lemma nvm_short_names_NoDup n :
  NoDup (Some "NvMConfiguration"
         :: Some "NvMBlockConfiguration"
         :: map (fun i => Some ("NvMBlock_" ++ Py.str (Z.of_nat i))%string)
                (seq 0 n)).
Proof.
  constructor; [|constructor].
  - intros [H | H]; [discriminate H|].
    apply in_map_iff in H as (i & H & _). discriminate H.
  - intros H. apply in_map_iff in H as (i & H & _). discriminate H.
  - apply numbered_names_NoDup.
Qed.

End ShortNames.

(* ===================================================================== *)
(** * Reading back what was written *)
(* ===================================================================== *)

(** The text lxml reports for an element that was written with text [t]:
    an empty text is not distinguished from no text. *)
Definition read_text (t : option string) : option string :=
  match t with
  | Some EmptyString => None
  | _ => t
  end.

(** A name in a namespace, in lxml's notation. *)
Definition clark (ns local : string) : string := ("{" ++ ns ++ "}") ++ local.

Definition all2 {A B : Type} (f : A -> B -> bool)
  : list A -> list B -> bool :=
  fix go (l : list A) (l' : list B) : bool :=
    match l, l' with
    | [], [] => true
    | x :: l, y :: l' => f x y && go l l'
    | _, _ => false
    end.

(** [reads_back ns built parsed]: [parsed] is what a parser returns for the
    serialisation of [built], a tree whose tags carry no namespace, written
    under the default namespace [ns].  The trees have the same shape; every
    tag is read in the namespace [ns]; an element without children keeps
    its text (one with children reads the indentation the pretty-printer
    put there, about which nothing is said). *)
Fixpoint reads_back (ns : string) (built parsed : element) : bool :=
  match built, parsed with
  | Elem _ d ch, Elem _ d' ch' =>
      negb (Py.startswith (tag d) "{")
      && String.eqb (tag d') (clark ns (tag d))
      && (if is_empty ch then text_eqb (text d') (read_text (text d))
          else true)
      && all2 (reads_back ns) ch ch'
  end.

Lemma text_eqb_eq (a b : option string) : text_eqb a b = true <-> a = b.
Proof.
  destruct a as [x|], b as [y|]; cbn [text_eqb]; split; intros H;
    try discriminate; try reflexivity.
  - apply String.eqb_eq in H. subst. reflexivity.
  - injection H as ->. apply String.eqb_refl.
Qed.

Lemma eqb_append_l (pre a b : string) :
  String.eqb (pre ++ a) (pre ++ b) = String.eqb a b.
Proof.
  destruct (String.eqb_spec a b) as [-> | Hab].
  - apply String.eqb_refl.
  - apply String.eqb_neq. intros H. apply Hab, (append_inj_l pre). exact H.
Qed.

(** What [reads_back] says about one element and its reading. *)
Definition read_as (ns : string) (x x' : element) : Prop :=
  Py.startswith (tag_of x) "{" = false
  /\ tag_of x' = clark ns (tag_of x)
  /\ (children_of x = [] -> text_of x' = read_text (text_of x)).

Lemma reads_back_root ns t t' : reads_back ns t t' = true -> read_as ns t t'.
Proof.
  destruct t as [u d ch], t' as [u' d' ch']. cbn [reads_back].
  rewrite !andb_true_iff. intros [[[H1 H2] H3] _].
  unfold read_as, tag_of, text_of. cbn [data_of children_of].
  split; [apply negb_true_iff; exact H1|].
  split; [apply String.eqb_eq; exact H2|].
  intros ->. cbn [is_empty] in H3. apply text_eqb_eq. exact H3.
Qed.

Lemma reads_back_descendants ns t :
  forall t', reads_back ns t t' = true ->
             Forall2 (read_as ns) (descendants t) (descendants t').
Proof.
  induction t as [u d ch IH] using element_ind'. intros [u' d' ch'].
  cbn [reads_back]. rewrite !andb_true_iff. intros [_ Hall].
  cbn [descendants]. revert ch' Hall.
  induction IH as [|c l Hc _ IHl]; intros [|c' l'] Hall;
    cbn [all2] in Hall; try discriminate.
  - constructor.
  - apply andb_true_iff in Hall as [Hcc Hll]. cbn [flat_map].
    apply Forall2_app.
    + constructor; [apply reads_back_root; exact Hcc | apply Hc; exact Hcc].
    + apply IHl. exact Hll.
Qed.

Lemma Forall2_filter {A B : Type} (R : A -> B -> Prop)
    (P : A -> bool) (Q : B -> bool) l l' :
  Forall2 R l l' ->
  (forall x y, R x y -> P x = Q y) ->
  Forall2 R (filter P l) (filter Q l').
Proof.
  intros H HPQ. induction H as [|x y l l' Hxy _ IH]; [constructor|].
  cbn [filter]. rewrite <- (HPQ x y Hxy).
  destruct (P x); [constructor; assumption | exact IH].
Qed.

(** Searching the parsed document for a tag in the namespace finds the
    readings of the elements with that tag in the built one. *)
Lemma read_as_findall ns (T : string) t t' :
  reads_back ns t t' = true ->
  Forall2 (read_as ns) (findall_desc T t)
          (findall_desc (clark ns T) t').
Proof.
  intros H. unfold findall_desc.
  apply Forall2_filter; [apply reads_back_descendants; exact H|].
  intros x y (_ & Hy & _). rewrite Hy.
  symmetry. apply eqb_append_l.
Qed.

(** A parsed document has no element without a namespace. *)
Lemma read_as_no_plain ns (T : string) t t' :
  reads_back ns t t' = true ->
  Py.startswith T "{" = false ->
  findall_desc T t' = [].
Proof.
  intros H HT. unfold findall_desc.
  pose proof (reads_back_descendants ns t t' H) as HF.
  induction HF as [|x y l l' (_ & Hy & _) _ IH]; [reflexivity|].
  cbn [filter]. rewrite Hy, IH.
  destruct (String.eqb_spec (clark ns (tag_of x)) T) as [E|_];
    [|reflexivity].
  subst T. unfold Py.startswith, clark in HT. cbn in HT.
  destruct ((ns ++ "}") ++ tag_of x)%string; discriminate HT.
Qed.

Lemma NoDup_count (l : list (option string)) (x : option string) :
  NoDup l -> Py.count text_eqb l x <= 1.
Proof.
  unfold Py.count. induction 1 as [|a l Ha _ IH]; [cbn; lia|].
  cbn [filter]. destruct (text_eqb x a) eqn:E; [|exact IH].
  apply text_eqb_eq in E. subst a. cbn [length].
  assert (Hnil : filter (text_eqb x) l = []).
  { clear IH. induction l as [|b l IHl]; [reflexivity|]. cbn [filter].
    destruct (text_eqb x b) eqn:E.
    - apply text_eqb_eq in E. subst b. exfalso. apply Ha. left. reflexivity.
    - apply IHl. intros H. apply Ha. right. exact H. }
  rewrite Hnil. cbn. lia.
Qed.

Lemma NoDup_no_duplicates (l : list (option string)) :
  NoDup l ->
  filter (fun name => (1 <? Py.count text_eqb l name)%nat) l = [].
Proof.
  intros H.
  assert (G : forall m, filter (fun name => (1 <? Py.count text_eqb l name)%nat) m = []).
  { induction m as [|a m IH]; [reflexivity|]. cbn [filter].
    pose proof (NoDup_count l a H) as Hc.
    destruct (Nat.ltb_spec 1 (Py.count text_eqb l a)); [lia | exact IH]. }
  apply G.
Qed.

Section ReadBack.
Context {ext : Externals}.

(** The library reads back the document it wrote: the assumption about
    lxml under which the validator is run on generated text. *)
Definition parses_back (doc : element) : Prop :=
  exists doc',
    etree_fromstring (etree_tostring doc) = inr doc'
    /\ reads_back (default_namespace doc) doc doc' = true
    /\ nsmap (data_of doc') = nsmap (data_of doc).

(** The report on a document the module built, once the library reads it
    back: valid, no error, no warning. *)
Lemma validate_built_document (doc : element) (version : string) :
  parses_back doc ->
  default_namespace doc = AUTOSAR_NS ->
  tag_of doc = "AUTOSAR" ->
  findall_desc "AR-PACKAGES" doc <> [] ->
  Forall (fun x => children_of x = []) (findall_desc "SHORT-NAME" doc) ->
  NoDup (map read_text (built_short_names doc)) ->
  validate_arxml (etree_tostring doc) version =
  inr (mk_report true [] []
         (all_recommendations (etree_tostring doc))
         (length (descendants doc))).
Proof.
  intros (doc' & Hp & Hrb & Hns) Hdef Htag Hpk Hleaf Hnodup.
  rewrite Hdef in Hrb.
  rewrite (validate_arxml_parsed _ version _ Hp).
  (* short names *)
  assert (Hsn : short_names doc' = map read_text (built_short_names doc)).
  { unfold short_names, built_short_names.
    pose proof (read_as_findall AUTOSAR_NS "SHORT-NAME" doc doc' Hrb) as F.
    change (clark AUTOSAR_NS "SHORT-NAME")
      with "{http://autosar.org/schema/r4.0}SHORT-NAME" in F.
    rewrite (read_as_no_plain AUTOSAR_NS "SHORT-NAME" doc doc' Hrb eq_refl).
    assert (E : map text_of
                  (findall_desc "{http://autosar.org/schema/r4.0}SHORT-NAME"
                                doc') =
                map read_text (map text_of (findall_desc "SHORT-NAME" doc))).
    { induction F as [|x y l l' (_ & _ & Hxy) _ IH]; [reflexivity|].
      inversion Hleaf as [|? ? Hx Hl]; subst. cbn [map].
      rewrite (Hxy Hx), (IH Hl). reflexivity. }
    rewrite E.
    destruct (map read_text (map text_of (findall_desc "SHORT-NAME" doc)));
      reflexivity. }
  assert (Hdup : duplicates doc' = []).
  { unfold duplicates. rewrite Hsn, NoDup_no_duplicates by exact Hnodup.
    reflexivity. }
  assert (Herr : root_errors doc' = []).
  { unfold root_errors, root_tag_ok.
    destruct (reads_back_root _ _ _ Hrb) as (_ & Ht & _).
    rewrite Ht, Htag. reflexivity. }
  assert (Hwarn : structure_warnings doc' = []).
  { unfold structure_warnings, has_packages.
    pose proof (read_as_findall AUTOSAR_NS "AR-PACKAGES" doc doc' Hrb) as F.
    change (clark AUTOSAR_NS "AR-PACKAGES")
      with "{http://autosar.org/schema/r4.0}AR-PACKAGES" in F.
    destruct F as [|x y l l' _ _]; [contradiction|].
    cbn [is_empty negb orb].
    unfold default_namespace in *. rewrite Hns, Hdef. reflexivity. }
  unfold parsed_report. rewrite Hdup, Herr, Hwarn.
  unfold findall_star.
  rewrite <- (Forall2_length (reads_back_descendants _ _ _ Hrb)).
  reflexivity.
Qed.

End ReadBack.

(* ===================================================================== *)
(** * Validating generated documents *)
(* ===================================================================== *)

Lemma Forall_filter_flat_map {A B : Type} (P : B -> Prop) (Q : B -> bool)
    (f : A -> list B) (l : list A) :
  (forall x, Forall P (filter Q (f x))) ->
  Forall P (filter Q (flat_map f l)).
Proof.
  intros H. induction l as [|x l IH]; [constructor|].
  cbn [flat_map]. rewrite filter_app. apply Forall_app. split; [apply H|exact IH].
Qed.

Lemma read_text_numbered (pre : string) (c : ascii) (l : list nat) :
  map read_text
      (map (fun i => Some (String c pre ++ Py.str (Z.of_nat i))%string) l) =
  map (fun i => Some (String c pre ++ Py.str (Z.of_nat i))%string) l.
Proof. rewrite map_map. apply map_ext. intros i. reflexivity. Qed.

Section Generated.
Context {ext : Externals}.

(** The CAN document meets what [validate_built_document] asks of it. *)
Lemma can_document_validates ecu baud n eh wk version :
  parses_back (can_document ecu baud n eh wk) ->
  validate_arxml (etree_tostring (can_document ecu baud n eh wk)) version =
  inr (mk_report true [] []
         (all_recommendations (etree_tostring (can_document ecu baud n eh wk)))
         (length (descendants (can_document ecu baud n eh wk)))).
Proof.
  intros Hpb. apply validate_built_document; try exact Hpb;
    try reflexivity.
  - unfold findall_desc. rewrite can_document_descendants, !filter_app.
    cbn. discriminate.
  - unfold findall_desc. rewrite can_document_descendants, !filter_app.
    rewrite !Forall_app. repeat split.
    + cbn. repeat constructor.
    + unfold can_hw_objects. rewrite flat_map_map.
      apply Forall_filter_flat_map. intros i. cbn. repeat constructor.
    + destruct eh, wk; cbn; constructor.
  - rewrite can_document_short_names. cbn [map].
    rewrite (read_text_numbered "anHwObject_" "C").
    replace (read_text (Some ("CanController_" ++ ecu)%string))
      with (Some ("CanController_" ++ ecu)%string) by reflexivity.
    apply can_short_names_NoDup.
Qed.

(** The NvM document does too. *)
Lemma nvm_document_validates size strategy n crc red wear version :
  parses_back (nvm_document size strategy n crc red wear) ->
  validate_arxml
    (etree_tostring (nvm_document size strategy n crc red wear)) version =
  inr (mk_report true [] []
         (all_recommendations
            (etree_tostring (nvm_document size strategy n crc red wear)))
         (length (descendants (nvm_document size strategy n crc red wear)))).
Proof.
  intros Hpb. apply validate_built_document; try exact Hpb;
    try reflexivity.
  - unfold findall_desc. rewrite nvm_document_descendants, !filter_app.
    cbn. discriminate.
  - unfold findall_desc. rewrite nvm_document_descendants, !filter_app.
    rewrite !Forall_app. repeat split.
    + cbn. repeat constructor.
    + unfold nvm_blocks. rewrite flat_map_map.
      apply Forall_filter_flat_map. intros i.
      destruct crc, red; cbn; repeat constructor.
    + destruct wear; cbn; constructor.
  - rewrite nvm_document_short_names. cbn [map].
    rewrite (read_text_numbered "vMBlock_" "N").
    apply nvm_short_names_NoDup.
Qed.

End Generated.

(** C6.  Round trip: for a well-formed record (an ECU type and a baudrate
    of the schema, between 1 and 128 message objects) the generator returns
    the serialisation of the document it built, and provided the library
    reads that document back, the validator applied to the returned string
    reports it valid, with a positive element count. *)
Theorem validate_generated_can_config {ext : Externals} (params : can_params)
    (ecu : string) (baud n : Z) :
  ecuType params = Some ecu -> In ecu ECU_TYPES ->
  baudrate params = Some baud -> In baud BAUDRATES ->
  messageObjects params = Some n -> (1 <= n <= 128)%Z ->
  exists doc s,
    generate_can_config params new_store = (inr (etree_tostring doc), s)
    /\ docs s = [doc]
    /\ (parses_back doc ->
        exists r,
          validate_arxml (etree_tostring doc) "4.2.2" = inr r
          /\ valid r = true
          /\ 0 < elementCount r).
Proof.
  intros He Hin Hb _ Hn _.
  pose proof (generate_can_config_run ecu baud (ECU_TYPES_compatible ecu Hin) params n He Hb Hn) as Hrun.
  cbv zeta in Hrun.
  eexists _, _. split; [exact Hrun|]. split; [reflexivity|].
  intros Hpb. eexists. split; [apply can_document_validates; exact Hpb|].
  split; [reflexivity|]. cbn [elementCount].
  rewrite can_document_descendants, length_app.
  replace (length (can_spine _ _ _)) with 17 by reflexivity. lia.
Qed.

(** The parameters of the example, run through the reference library. *)
Definition can_output_example : (exn + string) * store :=
  @generate_can_config RefXml.externals can_params_example new_store.

Definition can_text_example : string :=
  match fst can_output_example with
  | inr text => text
  | inl _ => ""
  end.

Lemma validate_generated_can_config_witness :
  exists r,
    @validate_arxml RefXml.externals can_text_example "4.2.2" = inr r
    /\ valid r = true
    /\ 0 < elementCount r.
Proof.
  assert (R : (1 <= 2 <= 128)%Z) by lia.
  destruct (@validate_generated_can_config RefXml.externals can_params_example
              "powertrain" 500%Z 2%Z eq_refl (or_introl eq_refl)
              eq_refl (or_intror (or_intror (or_introl eq_refl)))
              eq_refl R)
    as (doc & s & Hrun & Hdocs & Hval).
  assert (Hs : s = snd can_output_example).
  { unfold can_output_example. rewrite Hrun. reflexivity. }
  assert (Hdoc : [doc] = docs (snd can_output_example)).
  { rewrite <- Hs, Hdocs. reflexivity. }
  vm_compute in Hdoc. injection Hdoc as Hdoc. subst doc.
  apply Hval. eexists. split; [vm_compute; reflexivity|].
  split; vm_compute; reflexivity.
Defined.

(** C10.  For a well-formed record, the SHORT-NAME texts of the document
    the CAN generator builds are the package name, "CanController_<ecu>"
    and "CanHwObject_0" .. "CanHwObject_{n-1}", pairwise distinct; those of
    the NvM document are the package name, "NvMBlockConfiguration" and
    "NvMBlock_0" .. "NvMBlock_{n-1}", pairwise distinct.  Provided the
    library reads the document back, the validator run on the generator's
    output issues no warning at all, so no duplicate-short-name warning. *)
Theorem generated_short_names_distinct {ext : Externals} :
  (forall (params : can_params) (ecu : string) (baud n : Z),
      ecuType params = Some ecu -> In ecu ECU_TYPES ->
      baudrate params = Some baud -> In baud BAUDRATES ->
      messageObjects params = Some n -> (1 <= n <= 128)%Z ->
      exists doc s,
        generate_can_config params new_store = (inr (etree_tostring doc), s)
        /\ docs s = [doc]
        /\ built_short_names doc =
           Some "CanConfiguration"
           :: Some ("CanController_" ++ ecu)%string
           :: map (fun i => Some ("CanHwObject_" ++ Py.str i)%string)
                  (Py.range n)
        /\ NoDup (built_short_names doc)
        /\ (parses_back doc ->
            exists r,
              validate_arxml (etree_tostring doc) "4.2.2" = inr r
              /\ warnings r = []))
  /\ (forall (params : nvm_params) (n size : Z) (strategy : string),
         blockCount params = Some n -> (1 <= n <= 256)%Z ->
         blockSize params = Some size -> (1 <= size <= 65535)%Z ->
         writeStrategy params = Some strategy ->
         In strategy WRITE_STRATEGIES ->
         exists doc s,
           generate_nvm_config params new_store =
             (inr (etree_tostring doc), s)
           /\ docs s = [doc]
           /\ built_short_names doc =
              Some "NvMConfiguration"
              :: Some "NvMBlockConfiguration"
              :: map (fun i => Some ("NvMBlock_" ++ Py.str i)%string)
                     (Py.range n)
           /\ NoDup (built_short_names doc)
           /\ (parses_back doc ->
               exists r,
                 validate_arxml (etree_tostring doc) "4.2.2" = inr r
                 /\ warnings r = [])).
Proof.
  split.
  - intros params ecu baud n He Hin Hb _ Hn _.
    pose proof (generate_can_config_run ecu baud
                  (ECU_TYPES_compatible ecu Hin) params n He Hb Hn) as Hrun.
    cbv zeta in Hrun.
    eexists _, _. split; [exact Hrun|]. split; [reflexivity|].
    rewrite can_document_short_names. unfold Py.range. rewrite map_map.
    split; [reflexivity|]. split; [apply can_short_names_NoDup|].
    intros Hpb. eexists.
    split; [apply can_document_validates; exact Hpb | reflexivity].
  - intros params n size strategy Hn _ Hs _ Hw _.
    pose proof (generate_nvm_config_run size strategy params Hs Hw n Hn)
      as Hrun.
    cbv zeta in Hrun.
    eexists _, _. split; [exact Hrun|]. split; [reflexivity|].
    rewrite nvm_document_short_names. unfold Py.range. rewrite map_map.
    split; [reflexivity|]. split; [apply nvm_short_names_NoDup|].
    intros Hpb. eexists.
    split; [apply nvm_document_validates; exact Hpb | reflexivity].
Qed.

Definition nvm_output_example : (exn + string) * store :=
  @generate_nvm_config RefXml.externals nvm_params_example new_store.

Definition nvm_text_example : string :=
  match fst nvm_output_example with
  | inr text => text
  | inl _ => ""
  end.

Lemma generated_short_names_distinct_witness :
  (exists r,
      @validate_arxml RefXml.externals can_text_example "4.2.2" = inr r
      /\ warnings r = [])
  /\ (exists r,
         @validate_arxml RefXml.externals nvm_text_example "4.2.2" = inr r
         /\ warnings r = []).
Proof.
  assert (R1 : (1 <= 2 <= 128)%Z) by lia.
  assert (R2 : (1 <= 3 <= 256)%Z) by lia.
  assert (R3 : (1 <= 16 <= 65535)%Z) by lia.
  destruct (@generated_short_names_distinct RefXml.externals) as [Hcan Hnvm].
  split.
  - destruct (Hcan can_params_example "powertrain" 500%Z 2%Z
                eq_refl (or_introl eq_refl)
                eq_refl (or_intror (or_intror (or_introl eq_refl)))
                eq_refl R1)
      as (doc & s & Hrun & Hdocs & _ & _ & Hval).
    assert (Hs : s = snd can_output_example).
    { unfold can_output_example. rewrite Hrun. reflexivity. }
    assert (Hdoc : [doc] = docs (snd can_output_example)).
    { rewrite <- Hs, Hdocs. reflexivity. }
    vm_compute in Hdoc. injection Hdoc as Hdoc. subst doc.
    apply Hval. eexists. split; [vm_compute; reflexivity|].
    split; vm_compute; reflexivity.
  - destruct (Hnvm nvm_params_example 3%Z 16%Z "immediate"
                eq_refl R2 eq_refl R3 eq_refl (or_introl eq_refl))
      as (doc & s & Hrun & Hdocs & _ & _ & Hval).
    assert (Hs : s = snd nvm_output_example).
    { unfold nvm_output_example. rewrite Hrun. reflexivity. }
    assert (Hdoc : [doc] = docs (snd nvm_output_example)).
    { rewrite <- Hs, Hdocs. reflexivity. }
    vm_compute in Hdoc. injection Hdoc as Hdoc. subst doc.
    apply Hval. eexists. split; [vm_compute; reflexivity|].
    split; vm_compute; reflexivity.
Defined.

(* ===================================================================== *)
(** * Missing required fields *)
(* ===================================================================== *)



(** The same for [generate_nvm_config]. *)
Definition nvm_first_missing (p : nvm_params) : option string :=
  match blockCount p, blockSize p, writeStrategy p with
  | None, _, _ => Some "blockCount"
  | Some _, None, _ => Some "blockSize"
  | Some _, Some _, None => Some "writeStrategy"
  | Some _, Some _, Some _ => None
  end.




(** A CAN record without messageObjects. *)
Definition can_params_no_count : can_params :=
  mk_can_params (Some "body") (Some 250%Z) None None None.







(* ===================================================================== *)
(** * Moving elements between trees *)
(* ===================================================================== *)

(** Every element of a list of trees, as its identity and its data. *)
Definition labels (l : list element) : list (nat * edata) :=
  map (fun e => (uid_of e, data_of e)) (flat_map subtree l).

Lemma labels_app l1 l2 : labels (l1 ++ l2) = labels l1 ++ labels l2.
Proof. unfold labels. rewrite flat_map_app, map_app. reflexivity. Qed.

Lemma labels_cons u d ch l :
  labels (Elem u d ch :: l) = (u, d) :: labels ch ++ labels l.
Proof.
  unfold labels. cbn [flat_map subtree descendants app map uid_of data_of].
  rewrite map_app. reflexivity.
Qed.

Lemma labels_uids l : map fst (labels l) = forest_uids l.
Proof.
  unfold labels, forest_uids, uids. rewrite map_map.
  induction l as [|c l IH]; [reflexivity|].
  cbn [flat_map]. rewrite !map_app, IH. reflexivity.
Qed.

Lemma extract_forest_cons u c l :
  extract_forest u (c :: l) =
  if (uid_of c =? u)%nat then Some (c, l)
  else match extract u c with
       | Some (sub, c') => Some (sub, c' :: l)
       | None =>
           match extract_forest u l with
           | Some (sub, l') => Some (sub, c :: l')
           | None => None
           end
       end.
Proof. reflexivity. Qed.

Lemma extract_Elem u v d ch :
  extract u (Elem v d ch) =
  match extract_forest u ch with
  | Some (sub, ch') => Some (sub, Elem v d ch')
  | None => None
  end.
Proof. reflexivity. Qed.

Section Extract.
Variable u : nat.

(** What is taken out has the identity asked for, and nothing is lost:
    the elements before are those of the part taken and of the rest. *)
Definition extract_ok (c : element) : Prop :=
  forall sub c', extract u c = Some (sub, c') ->
    uid_of sub = u /\ uid_of c' = uid_of c /\ data_of c' = data_of c
    /\ Permutation (labels [c]) (labels [sub] ++ labels [c']).

Lemma extract_forest_ok_aux l :
  Forall extract_ok l ->
  forall sub l', extract_forest u l = Some (sub, l') ->
    uid_of sub = u
    /\ Permutation (labels l) (labels [sub] ++ labels l')
    /\ (~ In u (map uid_of l) ->
        map uid_of l' = map uid_of l /\ map data_of l' = map data_of l).
Proof.
  induction 1 as [|c l Hc _ IH]; intros sub l' H; [discriminate|].
  rewrite extract_forest_cons in H.
  destruct (Nat.eqb_spec (uid_of c) u) as [E | E].
  - injection H as <- <-. split; [exact E|]. split.
    + change (c :: l) with ([c] ++ l). rewrite labels_app. reflexivity.
    + intros Hn. exfalso. apply Hn. left. exact E.
  - destruct (extract u c) as [[s c']|] eqn:Ec.
    + injection H as <- <-.
      destruct (Hc _ _ Ec) as (Hu & Hid & Hd & Hp).
      split; [exact Hu|]. split.
      * change (c :: l) with ([c] ++ l). change (c' :: l) with ([c'] ++ l).
        rewrite !labels_app, Hp, app_assoc. reflexivity.
      * intros _. cbn [map]. rewrite Hid, Hd. split; reflexivity.
    + destruct (extract_forest u l) as [[s l'']|] eqn:El; [|discriminate].
      injection H as <- <-.
      destruct (IH _ _ eq_refl) as (Hu & Hp & Htop).
      split; [exact Hu|]. split.
      * change (c :: l) with ([c] ++ l). change (c :: l'') with ([c] ++ l'').
        rewrite !labels_app, Hp.
        rewrite !app_assoc. apply Permutation_app_tail, Permutation_app_comm.
      * intros Hn. cbn [map] in *.
        destruct Htop as [H1 H2]; [intros Hin; apply Hn; right; exact Hin|].
        rewrite H1, H2. split; reflexivity.
Qed.

Lemma extract_ok_all (c : element) : extract_ok c.
Proof.
  induction c as [v d ch IH] using element_ind'. intros sub c' H.
  rewrite extract_Elem in H.
  destruct (extract_forest u ch) as [[s ch']|] eqn:E; [|discriminate].
  injection H as <- <-.
  destruct (extract_forest_ok_aux ch IH _ _ E) as (Hu & Hp & _).
  repeat split; [exact Hu|].
  change [Elem v d ch] with (Elem v d ch :: []).
  change [Elem v d ch'] with (Elem v d ch' :: []).
  rewrite !labels_cons. change (labels []) with (@nil (nat * edata)).
  rewrite !app_nil_r, Hp. apply Permutation_middle.
Qed.

Lemma extract_forest_ok l sub l' :
  extract_forest u l = Some (sub, l') ->
  uid_of sub = u
  /\ Permutation (labels l) (labels [sub] ++ labels l')
  /\ (~ In u (map uid_of l) ->
      map uid_of l' = map uid_of l /\ map data_of l' = map data_of l).
Proof.
  apply extract_forest_ok_aux. apply Forall_forall. intros c _.
  apply extract_ok_all.
Qed.

(** An identity that occurs can be taken out. *)
Lemma extract_forest_found_aux l :
  Forall (fun c => In u (forest_uids (children_of c)) ->
                   extract u c <> None) l ->
  In u (forest_uids l) -> extract_forest u l <> None.
Proof.
  induction 1 as [|c l Hc _ IH]; intros Hin; [contradiction|].
  rewrite extract_forest_cons.
  destruct (Nat.eqb_spec (uid_of c) u) as [E | E]; [discriminate|].
  rewrite forest_uids_cons in Hin. apply in_app_or in Hin.
  destruct (extract u c) as [[s c']|] eqn:Ec; [discriminate|].
  destruct Hin as [Hin | Hin].
  - destruct c as [v d ch]. rewrite uids_Elem in Hin.
    destruct Hin as [Hin | Hin]; [contradiction|].
    exfalso. exact (Hc Hin eq_refl).
  - specialize (IH Hin).
    destruct (extract_forest u l) as [[s l'']|]; [discriminate|].
    contradiction.
Qed.

Lemma extract_found (c : element) :
  In u (forest_uids (children_of c)) -> extract u c <> None.
Proof.
  induction c as [v d ch IH] using element_ind'. cbn [children_of].
  intros Hin. rewrite extract_Elem.
  pose proof (extract_forest_found_aux ch IH Hin) as H.
  destruct (extract_forest u ch) as [[s ch']|]; [discriminate|].
  contradiction.
Qed.

Lemma extract_forest_found l :
  In u (forest_uids l) -> extract_forest u l <> None.
Proof.
  apply extract_forest_found_aux. apply Forall_forall. intros c _.
  apply extract_found.
Qed.

End Extract.

(** ** Fresh identities for a parsed tree *)

Definition same_data (x y : element) : Prop := data_of x = data_of y.

(** [relabel] numbers the elements [n, n+1, ...] in document order and
    keeps their data. *)
Definition relabel_ok (t : element) : Prop :=
  forall n t' n', relabel n t = (t', n') ->
    uids t' = seq n (n' - n) /\ n < n'
    /\ uid_of t' = n /\ data_of t' = data_of t
    /\ Forall2 same_data (descendants t) (descendants t').

Lemma relabel_in_ok l :
  Forall relabel_ok l ->
  forall m l' m', relabel_in relabel m l = (l', m') ->
    forest_uids l' = seq m (m' - m) /\ m <= m'
    /\ Forall2 same_data (flat_map subtree l) (flat_map subtree l').
Proof.
  induction 1 as [|c l Hc _ IH]; intros m l' m' H.
  - injection H as <- <-. rewrite Nat.sub_diag. repeat constructor.
  - cbn [relabel_in] in H.
    destruct (relabel m c) as [c' m1] eqn:Ec.
    destruct (relabel_in relabel m1 l) as [l1 m2] eqn:El.
    injection H as <- <-.
    destruct (Hc _ _ _ Ec) as (Hu & Hlt & Hid & Hd & Hdesc).
    destruct (IH _ _ _ El) as (Hul & Hle & Hl).
    rewrite forest_uids_cons, Hu, Hul. split; [|split; [lia|]].
    + replace (m2 - m) with ((m1 - m) + (m2 - m1)) by lia.
      rewrite seq_app. do 2 f_equal. lia.
    + cbn [flat_map]. apply Forall2_app; [|exact Hl].
      constructor; [exact (eq_sym Hd) | exact Hdesc].
Qed.

Lemma relabel_ok_all (t : element) : relabel_ok t.
Proof.
  induction t as [u d ch IH] using element_ind'. intros n t' n' H.
  cbn [relabel] in H.
  destruct (relabel_in relabel (S n) ch) as [ch' m] eqn:E.
  injection H as <- <-.
  destruct (relabel_in_ok ch IH _ _ _ E) as (Hu & Hle & Hd).
  rewrite uids_Elem, Hu. repeat split; try lia.
  - replace (m - n) with (S (m - S n)) by lia. reflexivity.
  - exact Hd.
Qed.

Lemma Forall2_same_data_map l l' :
  Forall2 same_data l l' -> map data_of l = map data_of l'.
Proof. induction 1 as [|x y l l' H _ IH]; [reflexivity|]. cbn. f_equal; assumption. Qed.

(** A search by tag finds the same elements before and after. *)
Lemma relabel_findall (T : string) t n t' n' :
  relabel n t = (t', n') ->
  Forall2 same_data (findall_desc T t) (findall_desc T t').
Proof.
  intros H. destruct (relabel_ok_all t _ _ _ H) as (_ & _ & _ & _ & Hd).
  unfold findall_desc. apply Forall2_filter; [exact Hd|].
  intros x y Hxy. unfold tag_of. rewrite Hxy. reflexivity.
Qed.

(** ** Looking an identity up *)

Lemma lookup_forest_cons u c l :
  lookup_forest u (c :: l) =
  match lookup u c with
  | Some r => Some r
  | None => lookup_forest u l
  end.
Proof. reflexivity. Qed.

Lemma lookup_absent u (e : element) : ~ In u (uids e) -> lookup u e = None.
Proof.
  induction e as [v d ch IH] using element_ind'. rewrite uids_Elem.
  intros Hn. cbn [lookup].
  destruct (Nat.eqb_spec v u) as [E | E]; [exfalso; apply Hn; left; exact E|].
  assert (Hch : ~ In u (forest_uids ch)) by (intros H; apply Hn; right; exact H).
  clear Hn E. induction IH as [|c l Hc _ IHl]; [reflexivity|].
  rewrite forest_uids_cons in Hch. cbn [lookup_in].
  rewrite Hc by (intros H; apply Hch, in_or_app; left; exact H).
  apply IHl. intros H. apply Hch, in_or_app. right. exact H.
Qed.

Lemma lookup_forest_absent u l :
  ~ In u (forest_uids l) -> lookup_forest u l = None.
Proof.
  induction l as [|c l IH]; [reflexivity|]. rewrite forest_uids_cons.
  intros Hn. rewrite lookup_forest_cons.
  rewrite lookup_absent by (intros H; apply Hn, in_or_app; left; exact H).
  apply IH. intros H. apply Hn, in_or_app. right. exact H.
Qed.

Lemma lookup_forest_app u l1 l2 :
  ~ In u (forest_uids l1) ->
  lookup_forest u (l1 ++ l2) = lookup_forest u l2.
Proof.
  induction l1 as [|c l1 IH]; [reflexivity|]. rewrite forest_uids_cons.
  intros Hn. cbn [app]. rewrite lookup_forest_cons.
  rewrite lookup_absent by (intros H; apply Hn, in_or_app; left; exact H).
  apply IH. intros H. apply Hn, in_or_app. right. exact H.
Qed.

Lemma lookup_root (e : element) : lookup (uid_of e) e = Some e.
Proof. destruct e as [v d ch]. cbn [lookup uid_of]. rewrite Nat.eqb_refl. reflexivity. Qed.

(* ===================================================================== *)
(** * The document merge_configurations builds *)
(* ===================================================================== *)

Section MergeShape.
Context {ext : Externals}.
Variables (project_name ecu_name : string).

(** The merged document in which the project package has, after its short
    name and its ELEMENTS, the children [kids]. *)
Definition merge_frame (kids : list element) : element :=
  doc_root
    [ admin_data_tree;
      node 6 "AR-PACKAGES"
        [ node 7 "AR-PACKAGE"
            ([ leaf 8 "SHORT-NAME" project_name;
               node 9 "ELEMENTS"
                 [ node 10 "ECU-INSTANCE"
                     [ leaf 11 "SHORT-NAME" ecu_name ] ] ]
             ++ kids) ] ].

Lemma merge_frame_frame : frame_of merge_frame 7 12.
Proof.
  intros p c kids [-> | Hp].
  - reflexivity.
  - unfold merge_frame, doc_root, admin_data_tree, node, leaf.
    cbn [add_child map app]. eqb_false p.
    cbn [app]. rewrite ?app_nil_r. reflexivity.
Qed.

(** Taking out an identity that is not one of the frame's own. *)
Lemma merge_frame_extract v kids :
  12 <= v ->
  extract v (merge_frame kids) =
  match extract_forest v kids with
  | Some (sub, kids') => Some (sub, merge_frame kids')
  | None => None
  end.
Proof.
  intros Hv. unfold merge_frame, doc_root, admin_data_tree, node, leaf.
  cbn [extract extract_in uid_of app]. eqb_false v.
  fold (extract_forest v kids).
  destruct (extract_forest v kids) as [[sub kids']|]; reflexivity.
Qed.

Lemma merge_frame_uids kids :
  uids (merge_frame kids) = seq 0 12 ++ forest_uids kids.
Proof.
  rewrite <- (labels_uids kids). unfold labels. rewrite map_map.
  unfold merge_frame, doc_root, admin_data_tree, node, leaf.
  unfold uids, subtree.
  cbn [flat_map app descendants map uid_of seq fst].
  rewrite ?app_nil_r. reflexivity.
Qed.

End MergeShape.

Lemma labels_perm_uids A B u :
  Permutation (labels A) (labels B) ->
  In u (forest_uids A) -> In u (forest_uids B).
Proof.
  intros H. rewrite <- !labels_uids.
  apply Permutation_in, Permutation_map. exact H.
Qed.

Section MergeMoves.
Context {ext : Externals}.
Variables (project_name ecu_name : string).

Local Abbreviation F := (merge_frame project_name ecu_name).

(** One [append]: the element [v], wherever it stands among the moved
    packages [K] or in the parsed fragments [G], becomes the last child of
    the project package. *)
Lemma append_run v K G N lg :
  (forall u, In u (forest_uids (K ++ G)) -> 12 <= u) ->
  In v (forest_uids (K ++ G)) ->
  ~ In v (map uid_of K) ->
  exists K' G',
    append 7 v (mk_store N (F K :: G) lg) =
      (inr tt, mk_store N (F K' :: G') lg)
    /\ Permutation (labels (K' ++ G')) (labels (K ++ G))
    /\ map uid_of K' = map uid_of K ++ [v].
Proof.
  intros Hlow Hin Htop.
  assert (Hv : 12 <= v) by (apply Hlow; exact Hin).
  pose proof (merge_frame_frame project_name ecu_name) as HF.
  unfold append. cbn [docs next_uid logged].
  rewrite extract_forest_cons.
  replace (uid_of (F K) =? v)%nat with false
    by (symmetry; apply Nat.eqb_neq; cbn; lia).
  rewrite merge_frame_extract by exact Hv.
  destruct (extract_forest v K) as [[sub K1]|] eqn:EK.
  - destruct (extract_forest_ok v K sub K1 EK) as (Hu & Hp & Hkeep).
    destruct (Hkeep Htop) as [Huid _].
    assert (HpA : Permutation (labels ((K1 ++ [sub]) ++ G)) (labels (K ++ G))).
    { rewrite !labels_app, Hp.
      apply Permutation_app_tail, Permutation_app_comm. }
    exists (K1 ++ [sub]), G. split; [|split; [exact HpA|]].
    + cbn [map]. f_equal. f_equal.
      rewrite (frame_add_focus _ _ _ HF).
      * rewrite add_child_fresh_forest; [reflexivity|].
        intros H7. assert (12 <= 7); [|lia]. apply Hlow.
        rewrite forest_uids_app. apply in_or_app. right. exact H7.
      * intros H7. assert (12 <= 7); [|lia]. apply Hlow.
        apply (labels_perm_uids _ _ _ HpA).
        rewrite !forest_uids_app. apply in_or_app. left.
        apply in_or_app. left. exact H7.
    + rewrite map_app, Huid. cbn [map]. rewrite Hu. reflexivity.
  - assert (HinG : In v (forest_uids G)).
    { rewrite forest_uids_app in Hin. apply in_app_or in Hin as [H | H];
        [|exact H].
      exfalso. exact (extract_forest_found v K H EK). }
    destruct (extract_forest v G) as [[sub G1]|] eqn:EG;
      [|exfalso; exact (extract_forest_found v G HinG EG)].
    destruct (extract_forest_ok v G sub G1 EG) as (Hu & Hp & _).
    assert (HpA : Permutation (labels ((K ++ [sub]) ++ G1)) (labels (K ++ G))).
    { rewrite !labels_app, Hp, <- app_assoc. reflexivity. }
    exists (K ++ [sub]), G1. split; [|split; [exact HpA|]].
    + cbn [map]. f_equal. f_equal.
      rewrite (frame_add_focus _ _ _ HF).
      * rewrite add_child_fresh_forest; [reflexivity|].
        intros H7. assert (12 <= 7); [|lia]. apply Hlow.
        apply (labels_perm_uids _ _ _ HpA).
        rewrite !forest_uids_app. apply in_or_app. right. exact H7.
      * intros H7. assert (12 <= 7); [|lia]. apply Hlow.
        rewrite forest_uids_app. apply in_or_app. left. exact H7.
    + rewrite map_app. cbn [map]. rewrite Hu. reflexivity.
Qed.

(** The loop over the packages found in one fragment. *)
Lemma appends_run L : forall K G N lg,
  (forall u, In u (forest_uids (K ++ G)) -> 12 <= u) ->
  (forall v, In v L -> In v (forest_uids (K ++ G))) ->
  NoDup L ->
  (forall v, In v L -> ~ In v (map uid_of K)) ->
  exists K' G',
    for_each L (append 7) (mk_store N (F K :: G) lg) =
      (inr tt, mk_store N (F K' :: G') lg)
    /\ Permutation (labels (K' ++ G')) (labels (K ++ G))
    /\ map uid_of K' = map uid_of K ++ L.
Proof.
  induction L as [|v L IH]; intros K G N lg Hlow Hin Hnd Htop.
  - exists K, G. rewrite app_nil_r. repeat split. reflexivity.
  - inversion Hnd as [|? ? Hv HL]; subst.
    destruct (append_run v K G N lg Hlow (Hin v (or_introl eq_refl))
                (Htop v (or_introl eq_refl)))
      as (K1 & G1 & Hrun & Hp & Hu).
    destruct (IH K1 G1 N lg) as (K2 & G2 & Hrun2 & Hp2 & Hu2).
    + intros u H. apply Hlow. exact (labels_perm_uids _ _ _ Hp H).
    + intros w H.
      apply (labels_perm_uids _ _ _ (Permutation_sym Hp)).
      apply Hin. right. exact H.
    + exact HL.
    + intros w H. rewrite Hu. intros Hw. apply in_app_or in Hw as [Hw | [-> | []]].
      * exact (Htop w (or_intror H) Hw).
      * exact (Hv H).
    + exists K2, G2. split; [|split].
      * rewrite for_each_cons. unfold bind. rewrite Hrun. exact Hrun2.
      * rewrite Hp2. exact Hp.
      * rewrite Hu2, Hu, <- app_assoc. reflexivity.
Qed.

End MergeMoves.

(** ** One module of the merge *)

Lemma labels_functional (P : list (nat * edata)) k x y :
  NoDup (map fst P) -> In (k, x) P -> In (k, y) P -> x = y.
Proof.
  induction P as [|[k' z] P IH]; intros Hnd Hx Hy; [contradiction|].
  cbn [map fst] in Hnd. inversion Hnd as [|? ? Hk HP]; subst.
  destruct Hx as [Hx | Hx], Hy as [Hy | Hy].
  - congruence.
  - injection Hx as -> ->. exfalso. apply Hk.
    apply (in_map fst) in Hy. exact Hy.
  - injection Hy as -> ->. exfalso. apply Hk.
    apply (in_map fst) in Hx. exact Hx.
  - exact (IH HP Hx Hy).
Qed.

(** Elements with the same identities, all known to [P], have the same
    data. *)
Lemma data_by_uid (P : list (nat * edata)) A : forall B,
  NoDup (map fst P) ->
  map uid_of A = map uid_of B ->
  (forall e, In e A -> In (uid_of e, data_of e) P) ->
  (forall x, In x B -> In (uid_of x, data_of x) P) ->
  map data_of A = map data_of B.
Proof.
  induction A as [|a A IH]; intros [|b B] Hnd Hu HA HB;
    try discriminate; [reflexivity|].
  cbn [map] in *. injection Hu as Hab Hu. f_equal.
  - apply (labels_functional P (uid_of a)); [exact Hnd | | ].
    + apply HA. left. reflexivity.
    + rewrite Hab. apply HB. left. reflexivity.
  - apply IH; [exact Hnd | exact Hu | |].
    + intros e H. apply HA. right. exact H.
    + intros x H. apply HB. right. exact H.
Qed.

Lemma in_labels_subtree x t l :
  In t l -> In x (subtree t) -> In (uid_of x, data_of x) (labels l).
Proof.
  intros Ht Hx. unfold labels.
  apply (in_map (fun e => (uid_of e, data_of e))).
  apply in_flat_map. exists t. split; assumption.
Qed.

Lemma in_labels_top x l : In x l -> In (uid_of x, data_of x) (labels l).
Proof. intros H. apply (in_labels_subtree x x l H). left. reflexivity. Qed.

Lemma NoDup_map_filter {A B : Type} (f : A -> B) (P : A -> bool) l :
  NoDup (map f l) -> NoDup (map f (filter P l)).
Proof.
  induction l as [|x l IH]; intros H; [constructor|].
  cbn [map] in H. inversion H as [|? ? Hx Hl]; subst. cbn [filter].
  destruct (P x); [|exact (IH Hl)].
  cbn [map]. constructor; [|exact (IH Hl)].
  intros Hin. apply Hx. apply in_map_iff in Hin as (y & Hy & Hyl).
  apply filter_In in Hyl as [Hyl _]. rewrite <- Hy. apply in_map. exact Hyl.
Qed.

(** The packages of a fragment: those in the AUTOSAR namespace, or, when
    there is none, those without a namespace. *)
Definition found_packages (t : element) : list element :=
  let qualified :=
    findall_desc "{http://autosar.org/schema/r4.0}AR-PACKAGE" t in
  if is_empty qualified then findall_desc "AR-PACKAGE" t else qualified.

Lemma found_packages_descendants t x :
  In x (found_packages t) -> In x (descendants t).
Proof.
  unfold found_packages, findall_desc.
  destruct (is_empty _); intros H; apply filter_In in H as [H _]; exact H.
Qed.

Lemma found_packages_relabel t n t' n' :
  relabel n t = (t', n') ->
  map data_of (found_packages t') = map data_of (found_packages t).
Proof.
  intros H. unfold found_packages.
  pose proof (relabel_findall "{http://autosar.org/schema/r4.0}AR-PACKAGE"
                              _ _ _ _ H) as Hq.
  pose proof (relabel_findall "AR-PACKAGE" _ _ _ _ H) as Hu.
  symmetry. destruct Hq as [|x y l l' Hxy Hl].
  - cbn [is_empty]. apply Forall2_same_data_map. exact Hu.
  - cbn [is_empty]. apply Forall2_same_data_map. constructor; assumption.
Qed.

Lemma found_packages_NoDup t :
  NoDup (uids t) -> NoDup (map uid_of (found_packages t)).
Proof.
  intros H. unfold uids, subtree in H. cbn [map] in H.
  inversion H as [|? ? _ Hd]; subst.
  unfold found_packages, findall_desc.
  destruct (is_empty _); apply NoDup_map_filter; exact Hd.
Qed.

(** The state of the merge between two modules: the identities of the moved
    packages [K] and of the parsed fragments [G] are distinct, above those
    of the frame and below the next free one. *)
Definition merge_inv (K G : list element) (N : nat) : Prop :=
  NoDup (forest_uids (K ++ G))
  /\ (forall u, In u (forest_uids (K ++ G)) -> 12 <= u < N)
  /\ 12 <= N.

Section MergeModule.
Context {ext : Externals}.
Variables (project_name ecu_name : string).

Local Abbreviation F := (merge_frame project_name ecu_name).

(** A module without text is passed over: the store does not change. *)
Lemma merge_module_skip (m : module_config) (s : store) :
  get_default (m_arxml m) "" = "" ->
  merge_module 7 m s = (inr tt, s).
Proof. intros H. unfold merge_module. rewrite H. reflexivity. Qed.

(** A module whose text the parser rejects leaves the trees as they are
    and adds one warning to the log. *)
Lemma merge_module_failed (m : module_config) (e : exn) N ds lg :
  get_default (m_arxml m) "" <> "" ->
  etree_fromstring (get_default (m_arxml m) "") = inl e ->
  merge_module 7 m (mk_store N ds lg) =
  (inr tt,
   mk_store N ds
     (lg ++ [(WARNING,
              ("Failed to merge module " ++ get_default (m_type m) "Unknown"
               ++ ": " ++ exn_str e)%string)])).
Proof.
  intros Hne Hparse. unfold merge_module.
  rewrite (proj2 (String.eqb_neq _ _) Hne).
  unfold try_except. unfold bind at 1. unfold fromstring at 1.
  rewrite Hparse. reflexivity.
Qed.

Lemma in_forest_uids_top x l : In x l -> In (uid_of x) (forest_uids l).
Proof.
  intros H. unfold forest_uids. apply in_flat_map. exists x.
  split; [exact H|]. unfold uids, subtree. left. reflexivity.
Qed.

Lemma found_uids_eq t' :
  (if is_empty
        (map uid_of
           (findall_desc "{http://autosar.org/schema/r4.0}AR-PACKAGE" t'))
   then map uid_of (findall_desc "AR-PACKAGE" t')
   else map uid_of
          (findall_desc "{http://autosar.org/schema/r4.0}AR-PACKAGE" t')) =
  map uid_of (found_packages t').
Proof.
  unfold found_packages.
  destruct (findall_desc "{http://autosar.org/schema/r4.0}AR-PACKAGE" t');
    reflexivity.
Qed.

(** A module that parses: its packages, in document order, become the last
    children of the project package. *)
Lemma merge_module_parsed (m : module_config) (t : element) K G N lg :
  get_default (m_arxml m) "" <> "" ->
  etree_fromstring (get_default (m_arxml m) "") = inr t ->
  merge_inv K G N ->
  exists K' G' N',
    merge_module 7 m (mk_store N (F K :: G) lg) =
      (inr tt, mk_store N' (F K' :: G') lg)
    /\ merge_inv K' G' N'
    /\ map data_of K' = map data_of K ++ map data_of (found_packages t).
Proof.
  intros Hne Hparse (Hnd & Hrange & HN).
  unfold merge_module.
  rewrite (proj2 (String.eqb_neq _ _) Hne).
  unfold try_except. unfold bind at 1. unfold fromstring at 1.
  rewrite Hparse. cbn [next_uid docs logged].
  destruct (relabel N t) as [t' N'] eqn:Er.
  destruct (relabel_ok_all t _ _ _ Er) as (Hu & Hlt & Hid & Hd & Hdesc).
  (* the handle of the parsed root stands for the relabelled tree *)
  assert (Hlook : lookup_forest N ((F K :: G) ++ [t']) = Some t').
  { change ((F K :: G) ++ [t']) with ((F K :: G) ++ [t']).
    rewrite lookup_forest_app.
    - rewrite lookup_forest_cons, <- Hid, lookup_root. reflexivity.
    - rewrite forest_uids_cons, merge_frame_uids.
      intros H. apply in_app_or in H as [H | H].
      + apply in_app_or in H as [H | H].
        * apply in_seq in H. lia.
        * assert (12 <= N < N); [|lia]. apply Hrange.
          rewrite forest_uids_app. apply in_or_app. left. exact H.
      + assert (12 <= N < N); [|lia]. apply Hrange.
        rewrite forest_uids_app. apply in_or_app. right. exact H. }
  unfold bind at 1. unfold findall at 1. cbn [docs]. rewrite Hlook.
  unfold bind at 1.
  replace ((if is_empty (map uid_of (findall_desc _ t'))
            then findall N "AR-PACKAGE"
            else ret (map uid_of (findall_desc _ t')))
             (mk_store N' ((F K :: G) ++ [t']) lg))
    with (@inr exn _ (map uid_of (found_packages t')),
          mk_store N' ((F K :: G) ++ [t']) lg).
  2:{ rewrite <- found_uids_eq.
      destruct (is_empty _); [|reflexivity].
      unfold findall. cbn [docs]. rewrite Hlook. reflexivity. }
  cbn [app].
  set (L := map uid_of (found_packages t')).
  assert (Hall : forest_uids (K ++ G ++ [t']) =
                 forest_uids (K ++ G) ++ seq N (N' - N)).
  { rewrite app_assoc, forest_uids_app, forest_uids_cons, Hu.
    cbn [forest_uids flat_map]. rewrite app_nil_r. reflexivity. }
  assert (HL : forall v, In v L -> In v (seq N (N' - N))).
  { intros v Hv. unfold L in Hv. apply in_map_iff in Hv as (x & <- & Hx).
    apply found_packages_descendants in Hx. rewrite <- Hu.
    unfold uids, subtree. right. apply in_map. exact Hx. }
  assert (HndAll : NoDup (forest_uids (K ++ G ++ [t']))).
  { rewrite Hall. apply NoDup_app; [exact Hnd | apply seq_NoDup |].
    intros u H1 H2. apply Hrange in H1. apply in_seq in H2. lia. }
  destruct (appends_run project_name ecu_name L K (G ++ [t']) N' lg)
    as (K' & G' & Hrun & Hperm & Huids).
  { intros u H. rewrite Hall in H. apply in_app_or in H as [H | H].
    - apply Hrange in H. lia.
    - apply in_seq in H. lia. }
  { intros v Hv. rewrite Hall. apply in_or_app. right. apply HL. exact Hv. }
  { unfold L. apply found_packages_NoDup. rewrite Hu. apply seq_NoDup. }
  { intros v Hv Htop. apply HL, in_seq in Hv.
    assert (12 <= v < N); [|lia]. apply Hrange.
    rewrite forest_uids_app. apply in_or_app. left.
    apply in_map_iff in Htop as (x & <- & Hx).
    apply in_forest_uids_top. exact Hx. }
  exists K', G', N'. split; [|split].
  - change (fun pkg : nat => append 7 pkg) with (append 7).
    rewrite Hrun. reflexivity.
  - split; [|split; [|lia]].
    + rewrite <- labels_uids.
      apply (Permutation_NoDup (l := map fst (labels (K ++ G ++ [t'])))).
      * apply Permutation_map, Permutation_sym. exact Hperm.
      * rewrite labels_uids. exact HndAll.
    + intros u H. apply (labels_perm_uids _ _ _ Hperm) in H.
      rewrite Hall in H. apply in_app_or in H as [H | H].
      * apply Hrange in H. lia.
      * apply in_seq in H. lia.
  - rewrite <- (found_packages_relabel t N t' N' Er), <- map_app.
    apply (data_by_uid (labels (K ++ G ++ [t']))).
    + rewrite labels_uids. exact HndAll.
    + rewrite Huids, map_app. reflexivity.
    + intros e He. apply (Permutation_in _ Hperm).
      apply in_labels_top. apply in_or_app. left. exact He.
    + intros x Hx. apply in_app_or in Hx as [Hx | Hx].
      * apply in_labels_top. apply in_or_app. left. exact Hx.
      * apply (in_labels_subtree x t').
        -- apply in_or_app. right. apply in_or_app. right. left. reflexivity.
        -- right. apply found_packages_descendants. exact Hx.
Qed.

(** What one module contributes: the data of the packages that become
    children of the project package, and the warnings that are logged. *)
Definition module_packages (m : module_config) : list edata :=
  let text := get_default (m_arxml m) "" in
  if String.eqb text "" then []
  else match etree_fromstring text with
       | inr t => map data_of (found_packages t)
       | inl _ => []
       end.

Definition module_warnings (m : module_config) : list (level * string) :=
  let text := get_default (m_arxml m) "" in
  if String.eqb text "" then []
  else match etree_fromstring text with
       | inr _ => []
       | inl e =>
           [(WARNING,
             ("Failed to merge module " ++ get_default (m_type m) "Unknown"
              ++ ": " ++ exn_str e)%string)]
       end.

(** The loop over the modules. *)
Lemma merge_modules_run (modules : list module_config) : forall K G N lg,
  merge_inv K G N ->
  exists K' G' N',
    for_each modules (merge_module 7) (mk_store N (F K :: G) lg) =
      (inr tt,
       mk_store N' (F K' :: G') (lg ++ flat_map module_warnings modules))
    /\ merge_inv K' G' N'
    /\ map data_of K' = map data_of K ++ flat_map module_packages modules.
Proof.
  induction modules as [|m modules IH]; intros K G N lg Hinv.
  - exists K, G, N. cbn [for_each flat_map]. rewrite !app_nil_r.
    split; [reflexivity | split; [exact Hinv | reflexivity]].
  - rewrite for_each_cons. unfold bind.
    cbn [flat_map]. unfold module_packages at 1, module_warnings at 1.
    destruct (String.eqb_spec (get_default (m_arxml m) "") "") as [E | E].
    + rewrite merge_module_skip by exact E.
      destruct (IH K G N lg Hinv) as (K' & G' & N' & Hrun & Hinv' & Hd).
      exists K', G', N'.
      split; [exact Hrun | split; [exact Hinv' | exact Hd]].
    + destruct (etree_fromstring (get_default (m_arxml m) ""))
        as [e | t] eqn:Hparse.
      * rewrite (merge_module_failed m e) by assumption.
        destruct (IH K G N (lg ++ [(WARNING,
                    ("Failed to merge module "
                     ++ get_default (m_type m) "Unknown"
                     ++ ": " ++ exn_str e)%string)]) Hinv)
          as (K' & G' & N' & Hrun & Hinv' & Hd).
        exists K', G', N'. rewrite Hrun, <- app_assoc.
        split; [reflexivity | split; [exact Hinv' | exact Hd]].
      * destruct (merge_module_parsed m t K G N lg E Hparse Hinv)
          as (K1 & G1 & N1 & Hrun1 & Hinv1 & Hd1).
        rewrite Hrun1.
        destruct (IH K1 G1 N1 lg Hinv1)
          as (K' & G' & N' & Hrun & Hinv' & Hd).
        exists K', G', N'. rewrite Hrun, Hd, Hd1, <- app_assoc.
        split; [reflexivity | split; [exact Hinv' | reflexivity]].
Qed.

End MergeModule.

(** C5. When lxml accepts the project name and the ECU name as texts,
    [merge_configurations] returns a document for every list of modules: no
    module makes it raise. The document is the frame with the project
    package, and the children of that package after its short name and its
    ELEMENTS carry, in order, the data of the packages found in the modules,
    module after module in input order: none for a module whose text is
    empty or absent, none for a module whose text fails to parse, and for a
    module that parses every AR-PACKAGE element found in it. The log holds,
    after the opening message, one warning for each module that failed to
    parse and nothing else. *)
Theorem merge_configurations_partial {ext : Externals}
    (modules : list module_config) (project_name ecu_name : string) :
  xml_compatible project_name = true ->
  xml_compatible ecu_name = true ->
  exists K G N,
    merge_configurations modules project_name ecu_name new_store =
      (inr (etree_tostring (merge_frame project_name ecu_name K)),
       mk_store N (merge_frame project_name ecu_name K :: G)
         ((INFO, ("Merging " ++ Py.str (Z.of_nat (length modules))
                  ++ " modules for project " ++ project_name)%string)
          :: flat_map module_warnings modules))
    /\ map data_of K = flat_map module_packages modules.
Proof.
  intros Hproject Hecu. unfold merge_configurations.
  unfold new_store, create_root, add_admin_data, create_ar_package.
  run_prefix.
  match goal with
  | |- context [mk_store 12 [?T] ?lg] =>
      change T with (merge_frame project_name ecu_name [])
  end.
  destruct (merge_modules_run project_name ecu_name modules [] [] 12
              [(INFO, ("Merging " ++ Py.str (Z.of_nat (length modules))
                       ++ " modules for project " ++ project_name)%string)])
    as (K & G & N & Hrun & _ & Hd).
  { split; [constructor | split; [intros u [] | lia]]. }
  exists K, G, N. unfold bind at 1. rewrite Hrun.
  split; [reflexivity | exact Hd].
Qed.

Lemma merge_configurations_partial_witness :
  exists K G N,
    @merge_configurations RefXml.externals
      [ mk_module (Some "CAN") (Some "<A><AR-PACKAGE/></A>");
        mk_module (Some "NvM") (Some "");
        mk_module (Some "OS") (Some "<not-xml");
        mk_module None None ]
      "Proj" "ECU1" new_store =
      (inr (RefXml.tostring (@merge_frame RefXml.externals "Proj" "ECU1" K)),
       mk_store N (@merge_frame RefXml.externals "Proj" "ECU1" K :: G)
         [ (INFO, "Merging 4 modules for project Proj");
           (WARNING,
            "Failed to merge module OS: Couldn't find end of Start Tag not-xml") ])
    /\ map data_of K = [mk_edata "AR-PACKAGE" [] [] None].
Proof.
  exact (@merge_configurations_partial RefXml.externals
           [ mk_module (Some "CAN") (Some "<A><AR-PACKAGE/></A>");
             mk_module (Some "NvM") (Some "");
             mk_module (Some "OS") (Some "<not-xml");
             mk_module None None ]
           "Proj" "ECU1" eq_refl eq_refl).
Defined.

(* ===================================================================== *)
(** * create_ar_package on an arbitrary store *)
(* ===================================================================== *)

(** The children of the element a handle stands for, and what is seen of
    them: the identities, or the texts, of those with a given tag. *)
Definition kids (s : store) (p : nat) : list element :=
  match lookup_forest p (docs s) with
  | Some e => children_of e
  | None => []
  end.

Definition child_ids (s : store) (p : nat) (t : string) : list nat :=
  map uid_of (filter (has_tag t) (kids s p)).

Definition child_texts (s : store) (p : nat) (t : string)
  : list (option string) :=
  map text_of (filter (has_tag t) (kids s p)).

(** Every identity in use is below the next free one. *)
Definition store_ok (s : store) : Prop :=
  forall u, In u (forest_uids (docs s)) -> u < next_uid s.

Definition present (s : store) (p : nat) : Prop :=
  In p (forest_uids (docs s)).

Section AddChild.
Variables (p N : nat) (d : edata).

Local Abbreviation c := (Elem N d []).

Lemma add_child_uid e : uid_of (add_child p c e) = uid_of e.
Proof. destruct e; reflexivity. Qed.

Lemma add_child_data e : data_of (add_child p c e) = data_of e.
Proof. destruct e; reflexivity. Qed.

Lemma lookup_forest_app_found u l1 l2 x :
  lookup_forest u l1 = Some x -> lookup_forest u (l1 ++ l2) = Some x.
Proof.
  induction l1 as [|a l1 IH]; [discriminate|].
  cbn [app]. rewrite !lookup_forest_cons.
  destruct (lookup u a); [trivial | exact IH].
Qed.

(** Looking up an identity other than the new one finds the same element,
    with the new child added where it belongs. *)
Lemma lookup_add_child q e :
  q <> N ->
  lookup q (add_child p c e) = option_map (add_child p c) (lookup q e).
Proof.
  intros Hq. induction e as [u de ch IH] using element_ind'.
  rewrite add_child_Elem. cbn [lookup].
  destruct (Nat.eqb_spec u q) as [E | E].
  - cbn [option_map]. rewrite add_child_Elem. reflexivity.
  - fold (lookup_forest q (map (add_child p c) ch
                           ++ (if (u =? p)%nat then [c] else []))).
    fold (lookup_forest q ch).
    clear E. induction IH as [|x l Hx _ IHl].
    + cbn [map app]. destruct (u =? p)%nat; [|reflexivity].
      rewrite lookup_forest_cons. cbn [lookup].
      replace (N =? q)%nat with false
        by (symmetry; apply Nat.eqb_neq; lia).
      reflexivity.
    + cbn [map app]. rewrite !lookup_forest_cons, Hx.
      destruct (lookup q x); [reflexivity | exact IHl].
Qed.

Lemma lookup_forest_add_child q l :
  q <> N ->
  lookup_forest q (map (add_child p c) l) =
  option_map (add_child p c) (lookup_forest q l).
Proof.
  intros Hq. induction l as [|x l IH]; [reflexivity|].
  cbn [map]. rewrite !lookup_forest_cons, lookup_add_child by exact Hq.
  destruct (lookup q x); [reflexivity | exact IH].
Qed.

(** Looking up the new identity finds the new element. *)
Lemma lookup_new_aux l :
  Forall (fun e => In p (uids e) -> ~ In N (uids e) ->
                   lookup N (add_child p c e) = Some c) l ->
  In p (forest_uids l) -> ~ In N (forest_uids l) ->
  lookup_forest N (map (add_child p c) l) = Some c.
Proof.
  induction 1 as [|x l Hx _ IH]; intros Hp HN; [contradiction|].
  rewrite forest_uids_cons in Hp, HN. cbn [map].
  rewrite lookup_forest_cons.
  assert (HNx : ~ In N (uids x)) by (intros H; apply HN, in_or_app; left; exact H).
  assert (HNl : ~ In N (forest_uids l)) by (intros H; apply HN, in_or_app; right; exact H).
  destruct (in_dec Nat.eq_dec p (uids x)) as [Hpx | Hpx].
  - rewrite (Hx Hpx HNx). reflexivity.
  - rewrite add_child_fresh by exact Hpx.
    rewrite lookup_absent by exact HNx.
    apply IH; [|exact HNl].
    apply in_app_or in Hp as [Hp | Hp]; [contradiction | exact Hp].
Qed.

Lemma lookup_new e :
  In p (uids e) -> ~ In N (uids e) -> lookup N (add_child p c e) = Some c.
Proof.
  induction e as [u de ch IH] using element_ind'.
  rewrite uids_Elem. intros Hp HN. rewrite add_child_Elem. cbn [lookup].
  replace (u =? N)%nat with false
    by (symmetry; apply Nat.eqb_neq; intros ->; apply HN; left; reflexivity).
  fold (lookup_forest N (map (add_child p c) ch
                         ++ (if (u =? p)%nat then [c] else []))).
  assert (HNch : ~ In N (forest_uids ch))
    by (intros H; apply HN; right; exact H).
  destruct (in_dec Nat.eq_dec p (forest_uids ch)) as [Hpch | Hpch].
  - apply lookup_forest_app_found. apply lookup_new_aux; assumption.
  - destruct Hp as [-> | Hp]; [|contradiction].
    rewrite Nat.eqb_refl, add_child_fresh_forest by exact Hpch.
    rewrite lookup_forest_app by exact HNch.
    rewrite lookup_forest_cons. cbn [lookup]. rewrite Nat.eqb_refl.
    reflexivity.
Qed.

Lemma lookup_forest_new l :
  In p (forest_uids l) -> ~ In N (forest_uids l) ->
  lookup_forest N (map (add_child p c) l) = Some c.
Proof.
  apply lookup_new_aux. apply Forall_forall. intros e _. apply lookup_new.
Qed.

(** The identities after the addition. *)
Lemma add_child_uids e u :
  In u (uids (add_child p c e)) -> In u (uids e) \/ u = N.
Proof.
  induction e as [v de ch IH] using element_ind'.
  rewrite add_child_Elem, !uids_Elem, forest_uids_app.
  intros [H | H]; [left; left; exact H|].
  apply in_app_or in H as [H | H].
  - assert (G : In u (forest_uids ch) \/ u = N).
    { clear -IH H. induction IH as [|x l Hx _ IHl]; [contradiction|].
      cbn [map] in H. rewrite forest_uids_cons in *.
      apply in_app_or in H as [H | H].
      - destruct (Hx H) as [G | G]; [left; apply in_or_app; left; exact G | right; exact G].
      - destruct (IHl H) as [G | G]; [left; apply in_or_app; right; exact G | right; exact G]. }
    destruct G as [G | G]; [left; right; exact G | right; exact G].
  - destruct (v =? p)%nat; [|contradiction].
    cbn in H. destruct H as [H | []]. right. symmetry. exact H.
Qed.

Lemma add_child_keeps e u : In u (uids e) -> In u (uids (add_child p c e)).
Proof.
  induction e as [v de ch IH] using element_ind'.
  rewrite add_child_Elem, !uids_Elem, forest_uids_app.
  intros [H | H]; [left; exact H|]. right. apply in_or_app. left.
  clear -IH H. induction IH as [|x l Hx _ IHl]; [contradiction|].
  cbn [map]. rewrite forest_uids_cons in *.
  apply in_app_or in H as [H | H]; apply in_or_app;
    [left; apply Hx; exact H | right; apply IHl; exact H].
Qed.

End AddChild.

Lemma lookup_some u (e x : element) :
  lookup u e = Some x -> uid_of x = u /\ incl (uids x) (uids e).
Proof.
  induction e as [v d ch IH] using element_ind'. cbn [lookup].
  destruct (Nat.eqb_spec v u) as [E | E].
  - intros H. injection H as <-. split; [exact E | apply incl_refl].
  - fold (lookup_forest u ch). intros H.
    assert (G : uid_of x = u /\ incl (uids x) (forest_uids ch)).
    { clear E. induction IH as [|y l Hy _ IHl]; [discriminate|].
      rewrite lookup_forest_cons in H. rewrite forest_uids_cons.
      destruct (lookup u y) as [r|] eqn:Ey.
      - injection H as ->. destruct (Hy eq_refl) as [H1 H2].
        split; [exact H1 | apply incl_appl; exact H2].
      - destruct (IHl H) as [H1 H2].
        split; [exact H1 | apply incl_appr; exact H2]. }
    destruct G as [G1 G2]. split; [exact G1|].
    rewrite uids_Elem. apply incl_tl. exact G2.
Qed.

Lemma lookup_forest_some u l x :
  lookup_forest u l = Some x -> uid_of x = u /\ incl (uids x) (forest_uids l).
Proof.
  induction l as [|y l IH]; [discriminate|].
  rewrite lookup_forest_cons, forest_uids_cons.
  destruct (lookup u y) as [r|] eqn:Ey.
  - intros H. injection H as ->. destruct (lookup_some _ _ _ Ey) as [H1 H2].
    split; [exact H1 | apply incl_appl; exact H2].
  - intros H. destruct (IH H) as [H1 H2].
    split; [exact H1 | apply incl_appr; exact H2].
Qed.

Lemma lookup_forest_present u l :
  In u (forest_uids l) -> exists x, lookup_forest u l = Some x.
Proof.
  intros H. destruct (lookup_forest u l) as [x|] eqn:E; [exists x; reflexivity|].
  exfalso. revert H E. clear.
  assert (G : forall e, In u (uids e) -> lookup u e <> None).
  { induction e as [v d ch IH] using element_ind'. rewrite uids_Elem.
    intros Hin. cbn [lookup].
    destruct (Nat.eqb_spec v u) as [E | E]; [discriminate|].
    destruct Hin as [Hin | Hin]; [contradiction|].
    fold (lookup_forest u ch).
    induction IH as [|y l0 Hy _ IHl]; [contradiction|].
    rewrite forest_uids_cons in Hin. rewrite lookup_forest_cons.
    destruct (lookup u y) eqn:Ey; [discriminate|].
    apply in_app_or in Hin as [Hin | Hin];
      [exfalso; exact (Hy Hin eq_refl) | exact (IHl Hin)]. }
  induction l as [|y l IH]; [contradiction|].
  rewrite forest_uids_cons, lookup_forest_cons. intros Hin.
  destruct (lookup u y) eqn:Ey; [discriminate|].
  apply in_app_or in Hin as [Hin | Hin];
    [exfalso; exact (G y Hin Ey) | exact (IH Hin)].
Qed.

Lemma filter_add_child p c (T : string) l :
  filter (has_tag T) (map (add_child p c) l) =
  map (add_child p c) (filter (has_tag T) l).
Proof.
  induction l as [|x l IH]; [reflexivity|]. cbn [map filter].
  replace (has_tag T (add_child p c x)) with (has_tag T x)
    by (destruct x; reflexivity).
  destruct (has_tag T x); cbn [map]; rewrite IH; reflexivity.
Qed.

Lemma map_uid_add_child p c l :
  map uid_of (map (add_child p c) l) = map uid_of l.
Proof. rewrite map_map. apply map_ext. intros []; reflexivity. Qed.

Lemma map_text_add_child p c l :
  map text_of (map (add_child p c) l) = map text_of l.
Proof. rewrite map_map. apply map_ext. intros []; reflexivity. Qed.

(** ** What [SubElement] changes *)

Section SubElementFacts.
Variables (s : store) (p : nat) (t : string) (txt : option string).
Hypothesis Hok : store_ok s.

Local Abbreviation N := (next_uid s).
Local Abbreviation s' := (with_child s p t txt).

Lemma SubElement_result :
  text_ok txt -> SubElement p t txt s = (inr N, s').
Proof. apply SubElement_accepted. Qed.

Lemma SubElement_next : next_uid s' = S N.
Proof. reflexivity. Qed.

Lemma N_fresh : ~ In N (forest_uids (docs s)).
Proof. intros H. apply Hok in H. lia. Qed.

Lemma SubElement_kids q :
  present s q ->
  kids s' q =
  map (add_child p (Elem N (mk_edata t [] [] txt) [])) (kids s q)
  ++ (if (q =? p)%nat then [Elem N (mk_edata t [] [] txt) []] else []).
Proof.
  intros Hq. unfold kids. unfold with_child. cbn [docs].
  rewrite lookup_forest_add_child
    by (intros ->; exact (N_fresh Hq)).
  destruct (lookup_forest_present q _ Hq) as (e & He). rewrite He.
  destruct (lookup_forest_some _ _ _ He) as [Hu _].
  destruct e as [u d ch]. cbn [uid_of] in Hu. subst u.
  reflexivity.
Qed.

Lemma SubElement_child_ids q T :
  present s q ->
  child_ids s' q T =
  child_ids s q T
  ++ (if (q =? p)%nat && String.eqb t T then [N] else []).
Proof.
  intros Hq. unfold child_ids. rewrite SubElement_kids by exact Hq.
  rewrite filter_app, map_app, filter_add_child, map_uid_add_child.
  f_equal. unfold has_tag.
  destruct (q =? p)%nat; [|reflexivity]. cbn [filter tag_of data_of tag andb].
  destruct (String.eqb t T); reflexivity.
Qed.

Lemma SubElement_child_texts q T :
  present s q ->
  child_texts s' q T =
  child_texts s q T
  ++ (if (q =? p)%nat && String.eqb t T then [txt] else []).
Proof.
  intros Hq. unfold child_texts. rewrite SubElement_kids by exact Hq.
  rewrite filter_app, map_app, filter_add_child, map_text_add_child.
  f_equal. unfold has_tag.
  destruct (q =? p)%nat; [|reflexivity]. cbn [filter tag_of data_of tag andb].
  destruct (String.eqb t T); reflexivity.
Qed.

Lemma SubElement_ok : store_ok s'.
Proof.
  intros u Hu. unfold with_child in *. cbn [docs next_uid] in *.
  unfold forest_uids in Hu. apply in_flat_map in Hu as (e' & He' & Hu).
  apply in_map_iff in He' as (e & <- & He).
  apply add_child_uids in Hu as [Hu | ->]; [|lia].
  assert (u < N); [|lia]. apply Hok.
  unfold forest_uids. apply in_flat_map. exists e. split; assumption.
Qed.

Lemma SubElement_present q : present s q -> present s' q.
Proof.
  unfold present. unfold with_child. cbn [docs]. unfold forest_uids.
  intros H. apply in_flat_map in H as (e & He & Hq).
  apply in_flat_map. eexists. split; [apply in_map; exact He|].
  apply add_child_keeps. exact Hq.
Qed.

(** The new element is there, without children, when the parent is. *)
Lemma SubElement_new :
  present s p ->
  present s' N /\ kids s' N = [].
Proof.
  intros Hp.
  assert (H : lookup_forest N (docs s') =
              Some (Elem N (mk_edata t [] [] txt) [])).
  { unfold with_child. cbn [docs]. apply lookup_forest_new; [exact Hp|].
    exact N_fresh. }
  split.
  - destruct (lookup_forest_some _ _ _ H) as [_ Hincl].
    apply Hincl. left. reflexivity.
  - unfold kids. rewrite H. reflexivity.
Qed.

End SubElementFacts.

Lemma find_hd_filter {A B : Type} (f : A -> B) (P : A -> bool) l :
  option_map f (List.find P l) = hd_error (map f (filter P l)).
Proof.
  induction l as [|x l IH]; [reflexivity|]. cbn [List.find filter].
  destruct (P x); [reflexivity | exact IH].
Qed.

Lemma find_run (parent : nat) (t : string) (s : store) :
  find parent t s = (inr (hd_error (child_ids s parent t)), s).
Proof.
  unfold find, child_ids, kids, find_child. f_equal. f_equal.
  destruct (lookup_forest parent (docs s)) as [e|]; [|reflexivity].
  apply find_hd_filter.
Qed.

Lemma bind_run {S A B : Type} (m : comp S A) (k : A -> comp S B) s a s1 :
  m s = (inr a, s1) -> bind m k s = k a s1.
Proof. intros H. unfold bind. rewrite H. reflexivity. Qed.

Lemma child_ids_absent (s : store) (q : nat) (T : string) :
  ~ present s q -> child_ids s q T = [].
Proof.
  intros H. unfold child_ids, kids.
  rewrite lookup_forest_absent by exact H. reflexivity.
Qed.

Lemma child_ids_present (s : store) (q a : nat) (T : string) :
  In a (child_ids s q T) -> present s a.
Proof.
  unfold child_ids, kids, present. intros H.
  destruct (lookup_forest q (docs s)) as [e|] eqn:E; [|contradiction].
  destruct (lookup_forest_some _ _ _ E) as [_ Hincl].
  apply Hincl. apply in_map_iff in H as (x & <- & Hx).
  apply filter_In in Hx as [Hx _].
  destruct e as [u d ch]. cbn [children_of] in Hx. rewrite uids_Elem.
  right. apply in_forest_uids_top. exact Hx.
Qed.

Section CreatePackage.
Variables (self : ARXMLGenerator) (parent : nat) (short_name : string).
Hypothesis Hname : xml_compatible short_name = true.

(** One call: the container is the first AR-PACKAGES child of the parent,
    made now if there was none; a new AR-PACKAGE goes under it, with its
    SHORT-NAME. *)
Lemma create_ar_package_run (s : store) :
  store_ok s -> present s parent ->
  exists a s1,
    create_ar_package self parent short_name s = (inr a, s1)
    /\ next_uid s <= a < next_uid s1
    /\ store_ok s1
    /\ (forall q, present s q -> present s1 q)
    /\ child_ids s1 parent "AR-PACKAGES" =
       match child_ids s parent "AR-PACKAGES" with
       | [] => [next_uid s]
       | l => l
       end
    /\ (forall c, hd_error (child_ids s1 parent "AR-PACKAGES") = Some c ->
                  child_ids s1 c "AR-PACKAGE" =
                  child_ids s c "AR-PACKAGE" ++ [a])
    /\ child_texts s1 a "SHORT-NAME" = [Some short_name]
    /\ (forall q, present s q ->
                  child_texts s1 q "SHORT-NAME" = child_texts s q "SHORT-NAME").
Proof.
  intros Hok Hp. unfold create_ar_package.
  rewrite (bind_run _ _ _ _ _ (find_run parent "AR-PACKAGES" s)).
  destruct (child_ids s parent "AR-PACKAGES") as [|c0 rest] eqn:Hc0;
    cbn [hd_error].
  - (* no container yet *)
    pose proof (SubElement_ok s parent "AR-PACKAGES" None Hok) as Hoka.
    destruct (SubElement_new s parent "AR-PACKAGES" None Hok Hp)
      as [HpNa HkNa].
    assert (Hpres_a : forall q, present s q ->
              present (with_child s parent "AR-PACKAGES" None) q)
      by (intros q; apply SubElement_present).
    pose proof (fun q T => SubElement_child_ids s parent "AR-PACKAGES" None
                             Hok q T) as Hids_a.
    pose proof (fun q T => SubElement_child_texts s parent "AR-PACKAGES" None
                             Hok q T) as Htxt_a.
    remember (with_child s parent "AR-PACKAGES" None) as sa eqn:Esa.
    assert (Hna : next_uid sa = S (next_uid s)) by (subst sa; reflexivity).
    pose proof (SubElement_ok sa (next_uid s) "AR-PACKAGE" None Hoka) as Hokb.
    destruct (SubElement_new sa (next_uid s) "AR-PACKAGE" None Hoka HpNa)
      as [HpNb HkNb].
    assert (Hpres_b : forall q, present sa q ->
              present (with_child sa (next_uid s) "AR-PACKAGE" None) q)
      by (intros q; apply SubElement_present).
    pose proof (fun q T => SubElement_child_ids sa (next_uid s) "AR-PACKAGE"
                             None Hoka q T) as Hids_b.
    pose proof (fun q T => SubElement_child_texts sa (next_uid s)
                             "AR-PACKAGE" None Hoka q T) as Htxt_b.
    remember (with_child sa (next_uid s) "AR-PACKAGE" None) as sb
      eqn:Esb.
    assert (Hnb : next_uid sb = S (S (next_uid s)))
      by (subst sb; cbn; rewrite Hna; reflexivity).
    rewrite Hna in HpNb, HkNb.
    pose proof (SubElement_ok sb (S (next_uid s)) "SHORT-NAME"
                  (Some short_name) Hokb) as Hok1.
    assert (Hpres_1 : forall q, present sb q ->
              present (with_child sb (S (next_uid s)) "SHORT-NAME" (Some short_name)) q)
      by (intros q; apply SubElement_present).
    pose proof (fun q T => SubElement_child_ids sb (S (next_uid s))
                             "SHORT-NAME" (Some short_name) Hokb q T)
      as Hids_1.
    pose proof (fun q T => SubElement_child_texts sb (S (next_uid s))
                             "SHORT-NAME" (Some short_name) Hokb q T)
      as Htxt_1.
    assert (Hrun : (ar_packages <- SubElement parent "AR-PACKAGES" None ;;
                    ar_package <- SubElement ar_packages "AR-PACKAGE" None ;;
                    SubElement ar_package "SHORT-NAME" (Some short_name) ;;
                    ret ar_package) s =
                   (inr (S (next_uid s)),
                    with_child sb (S (next_uid s)) "SHORT-NAME" (Some short_name))).
    { subst sb sa.
      rewrite (bind_run _ _ _ _ _ (SubElement_accepted _ _ None _ I)).
      rewrite (bind_run _ _ _ _ _ (SubElement_accepted _ _ None _ I)).
      rewrite (bind_run _ _ _ _ _
                 (SubElement_accepted _ _ (Some short_name) _ Hname)).
      reflexivity. }
    remember (with_child sb (S (next_uid s)) "SHORT-NAME" (Some short_name)) as s1 eqn:Es1.
    assert (Hn1 : next_uid s1 = S (S (S (next_uid s))))
      by (subst s1; cbn; rewrite Hnb; reflexivity).
    assert (Hlt : forall q, present s q -> q < next_uid s)
      by (intros q Hq; apply Hok; exact Hq).
    exists (S (next_uid s)), s1.
    split; [exact Hrun|]. split; [lia|]. split; [exact Hok1|].
    split; [intros q Hq; apply Hpres_1, Hpres_b, Hpres_a; exact Hq|].
    assert (Hcont : child_ids s1 parent "AR-PACKAGES" = [next_uid s]).
    { rewrite Hids_1 by (apply Hpres_b, Hpres_a; exact Hp).
      rewrite Hids_b by (apply Hpres_a; exact Hp).
      rewrite Hids_a by exact Hp.
      rewrite Hc0, Nat.eqb_refl.
      cbn [String.eqb Ascii.eqb Bool.eqb andb app].
      rewrite !andb_false_r. reflexivity. }
    split; [exact Hcont|]. split; [|split].
    + intros c Hc. rewrite Hcont in Hc. injection Hc as <-.
      rewrite (child_ids_absent s) by (intros H; apply Hlt in H; lia).
      rewrite Hids_1 by (apply Hpres_b; exact HpNa).
      rewrite Hids_b by exact HpNa.
      unfold child_ids at 1. rewrite HkNa, Hna, Nat.eqb_refl.
      replace (next_uid s =? S (next_uid s))%nat with false
        by (symmetry; apply Nat.eqb_neq; lia).
      reflexivity.
    + rewrite Htxt_1 by exact HpNb.
      unfold child_texts at 1. rewrite HkNb, Nat.eqb_refl. reflexivity.
    + intros q Hq. pose proof (Hlt q Hq) as Hq'.
      rewrite Htxt_1 by (apply Hpres_b, Hpres_a; exact Hq).
      rewrite Htxt_b by (apply Hpres_a; exact Hq).
      rewrite Htxt_a by exact Hq.
      replace (q =? S (next_uid s))%nat with false
        by (symmetry; apply Nat.eqb_neq; lia).
      cbn [String.eqb Ascii.eqb Bool.eqb andb app].
      rewrite !andb_false_r, !app_nil_r. reflexivity.
  - (* the container exists *)
    rewrite bind_ret.
    assert (Hc0p : present s c0).
    { apply (child_ids_present s parent c0 "AR-PACKAGES").
      rewrite Hc0. left. reflexivity. }
    pose proof (SubElement_ok s c0 "AR-PACKAGE" None Hok) as Hokb.
    destruct (SubElement_new s c0 "AR-PACKAGE" None Hok Hc0p)
      as [HpNb HkNb].
    assert (Hpres_b : forall q, present s q ->
              present (with_child s c0 "AR-PACKAGE" None) q)
      by (intros q; apply SubElement_present).
    pose proof (fun q T => SubElement_child_ids s c0 "AR-PACKAGE" None
                             Hok q T) as Hids_b.
    pose proof (fun q T => SubElement_child_texts s c0 "AR-PACKAGE" None
                             Hok q T) as Htxt_b.
    remember (with_child s c0 "AR-PACKAGE" None) as sb eqn:Esb.
    assert (Hnb : next_uid sb = S (next_uid s)) by (subst sb; reflexivity).
    pose proof (SubElement_ok sb (next_uid s) "SHORT-NAME"
                  (Some short_name) Hokb) as Hok1.
    assert (Hpres_1 : forall q, present sb q ->
              present (with_child sb (next_uid s) "SHORT-NAME" (Some short_name)) q)
      by (intros q; apply SubElement_present).
    pose proof (fun q T => SubElement_child_ids sb (next_uid s)
                             "SHORT-NAME" (Some short_name) Hokb q T)
      as Hids_1.
    pose proof (fun q T => SubElement_child_texts sb (next_uid s)
                             "SHORT-NAME" (Some short_name) Hokb q T)
      as Htxt_1.
    assert (Hrun : (ar_package <- SubElement c0 "AR-PACKAGE" None ;;
                    SubElement ar_package "SHORT-NAME" (Some short_name) ;;
                    ret ar_package) s =
                   (inr (next_uid s),
                    with_child sb (next_uid s) "SHORT-NAME" (Some short_name))).
    { subst sb.
      rewrite (bind_run _ _ _ _ _ (SubElement_accepted _ _ None _ I)).
      rewrite (bind_run _ _ _ _ _
                 (SubElement_accepted _ _ (Some short_name) _ Hname)).
      reflexivity. }
    remember (with_child sb (next_uid s) "SHORT-NAME" (Some short_name)) as s1 eqn:Es1.
    assert (Hn1 : next_uid s1 = S (S (next_uid s)))
      by (subst s1; cbn; rewrite Hnb; reflexivity).
    assert (Hlt : forall q, present s q -> q < next_uid s)
      by (intros q Hq; apply Hok; exact Hq).
    exists (next_uid s), s1.
    split; [exact Hrun|]. split; [lia|]. split; [exact Hok1|].
    split; [intros q Hq; apply Hpres_1, Hpres_b; exact Hq|].
    assert (Hsame : child_ids s1 parent "AR-PACKAGES" = c0 :: rest).
    { rewrite Hids_1 by (apply Hpres_b; exact Hp).
      rewrite Hids_b by exact Hp.
      rewrite Hc0. cbn [String.eqb Ascii.eqb Bool.eqb andb app].
      rewrite !andb_false_r, !app_nil_r. reflexivity. }
    split; [exact Hsame|]. split; [|split].
    + intros c Hc. rewrite Hsame in Hc. injection Hc as <-.
      rewrite Hids_1 by (apply Hpres_b; exact Hc0p).
      rewrite Hids_b by exact Hc0p.
      rewrite Nat.eqb_refl.
      replace (c0 =? next_uid s)%nat with false
        by (symmetry; apply Nat.eqb_neq; apply Hlt in Hc0p; lia).
      cbn [String.eqb Ascii.eqb Bool.eqb andb app].
      rewrite app_nil_r. reflexivity.
    + rewrite Htxt_1 by exact HpNb.
      unfold child_texts at 1. rewrite HkNb, Nat.eqb_refl. reflexivity.
    + intros q Hq. pose proof (Hlt q Hq) as Hq'.
      rewrite Htxt_1 by (apply Hpres_b; exact Hq).
      rewrite Htxt_b by exact Hq.
      replace (q =? next_uid s)%nat with false
        by (symmetry; apply Nat.eqb_neq; lia).
      cbn [String.eqb Ascii.eqb Bool.eqb andb app].
      rewrite !andb_false_r, !app_nil_r. reflexivity.
Qed.

End CreatePackage.

(** C7 (amended).  Two calls of [create_ar_package] with the same name,
    a name that lxml accepts as a text, under the same parent create the AR-PACKAGES container at most once:
    after the first call the parent has the containers it had, or one new
    container if it had none, and the second call adds none.  But each
    call appends a new AR-PACKAGE to the first container: after the two
    calls it holds, after the packages it had, two new ones with distinct
    identities, each with the given short name, and the second call
    returns the second of them. *)
Theorem create_ar_package_twice (self : ARXMLGenerator)
    (s : store) (parent : nat) (short_name : string) :
  xml_compatible short_name = true ->
  store_ok s -> present s parent ->
  exists a1 s1 a2 s2 c,
    create_ar_package self parent short_name s = (inr a1, s1)
    /\ create_ar_package self parent short_name s1 = (inr a2, s2)
    /\ a1 <> a2
    /\ child_ids s1 parent "AR-PACKAGES" =
       match child_ids s parent "AR-PACKAGES" with
       | [] => [next_uid s]
       | l => l
       end
    /\ child_ids s2 parent "AR-PACKAGES" = child_ids s1 parent "AR-PACKAGES"
    /\ hd_error (child_ids s2 parent "AR-PACKAGES") = Some c
    /\ child_ids s2 c "AR-PACKAGE" = child_ids s c "AR-PACKAGE" ++ [a1; a2]
    /\ child_texts s2 a1 "SHORT-NAME" = [Some short_name]
    /\ child_texts s2 a2 "SHORT-NAME" = [Some short_name].
Proof.
  intros Hname Hok Hp.
  destruct (create_ar_package_run self parent short_name Hname s Hok Hp)
    as (a1 & s1 & Hrun1 & Ha1 & Hok1 & Hpres1 & Hc1 & Hpk1 & Hsn1 & Hkeep1).
  destruct (create_ar_package_run self parent short_name Hname s1 Hok1
              (Hpres1 _ Hp))
    as (a2 & s2 & Hrun2 & Ha2 & Hok2 & Hpres2 & Hc2 & Hpk2 & Hsn2 & Hkeep2).
  assert (Hne : exists c rest, child_ids s1 parent "AR-PACKAGES" = c :: rest).
  { rewrite Hc1. destruct (child_ids s parent "AR-PACKAGES") as [|c rest];
      eexists _, _; reflexivity. }
  destruct Hne as (c & rest & Hcr).
  assert (Hsame : child_ids s2 parent "AR-PACKAGES" =
                  child_ids s1 parent "AR-PACKAGES").
  { rewrite Hc2, Hcr. reflexivity. }
  assert (Hpa1 : present s1 a1).
  { apply (child_ids_present s1 c a1 "AR-PACKAGE").
    rewrite (Hpk1 c) by (rewrite Hcr; reflexivity).
    apply in_or_app. right. left. reflexivity. }
  exists a1, s1, a2, s2, c.
  split; [exact Hrun1|]. split; [exact Hrun2|]. split; [lia|].
  split; [exact Hc1|]. split; [exact Hsame|].
  split; [rewrite Hsame, Hcr; reflexivity|].
  split; [|split].
  - rewrite (Hpk2 c) by (rewrite Hsame, Hcr; reflexivity).
    rewrite (Hpk1 c) by (rewrite Hcr; reflexivity).
    rewrite <- app_assoc. reflexivity.
  - rewrite (Hkeep2 a1 Hpa1). exact Hsn1.
  - exact Hsn2.
Qed.

(** A store that holds a root element and nothing else. *)
Definition root_only_store : store :=
  snd (create_root (ARXMLGenerator_init "4.2.2") new_store).

(** C7, as stated, fails: the second call with the same name returns a new
    node, and the container ends up with two packages of that name. *)
Lemma create_ar_package_not_idempotent :
  exists s1 s2,
    create_ar_package (ARXMLGenerator_init "4.2.2") 0 "Pkg" root_only_store =
      (inr 2, s1)
    /\ create_ar_package (ARXMLGenerator_init "4.2.2") 0 "Pkg" s1 = (inr 4, s2)
    /\ child_ids s2 0 "AR-PACKAGES" = [1]
    /\ child_ids s2 1 "AR-PACKAGE" = [2; 4]
    /\ child_texts s2 2 "SHORT-NAME" = [Some "Pkg"]
    /\ child_texts s2 4 "SHORT-NAME" = [Some "Pkg"].
Proof.
  eexists _, _. split; [vm_compute; reflexivity|].
  split; [vm_compute; reflexivity|]. repeat split.
Qed.

Lemma root_only_store_ok : store_ok root_only_store.
Proof. intros u [<- | []]. cbn. lia. Qed.

Lemma create_ar_package_twice_witness :
  exists a1 s1 a2 s2 c,
    create_ar_package (ARXMLGenerator_init "4.2.2") 0 "Pkg" root_only_store =
      (inr a1, s1)
    /\ create_ar_package (ARXMLGenerator_init "4.2.2") 0 "Pkg" s1 = (inr a2, s2)
    /\ a1 <> a2
    /\ child_ids s1 0 "AR-PACKAGES" = [1]
    /\ child_ids s2 0 "AR-PACKAGES" = child_ids s1 0 "AR-PACKAGES"
    /\ hd_error (child_ids s2 0 "AR-PACKAGES") = Some c
    /\ child_ids s2 c "AR-PACKAGE" =
       child_ids root_only_store c "AR-PACKAGE" ++ [a1; a2]
    /\ child_texts s2 a1 "SHORT-NAME" = [Some "Pkg"]
    /\ child_texts s2 a2 "SHORT-NAME" = [Some "Pkg"].
Proof.
  exact (create_ar_package_twice (ARXMLGenerator_init "4.2.2")
           root_only_store 0 "Pkg" eq_refl root_only_store_ok (or_introl eq_refl)).
Defined.

(* ===================================================================== *)
(** * A merge, run *)
(* ===================================================================== *)

(** The children of the project package in the first document of a store. *)
Definition project_package_children (s : store) : list element :=
  match docs s with
  | doc :: _ =>
      match find_child "AR-PACKAGES" doc with
      | Some container =>
          match find_child "AR-PACKAGE" container with
          | Some package => children_of package
          | None => []
          end
      | None => []
      end
  | [] => []
  end.

(** Scenario: the CAN document, a module without text, a module that is
    not XML, and a module without keys. *)
Example merge_configurations_run :
  let out :=
    @merge_configurations RefXml.externals
      [ mk_module (Some "CAN") (Some can_text_example);
        mk_module (Some "NvM") (Some "");
        mk_module (Some "OS") (Some "<not-xml");
        mk_module None None ]
      "Proj" "ECU1" new_store in
  map tag_of (project_package_children (snd out)) =
    ["SHORT-NAME"; "ELEMENTS"; "{http://autosar.org/schema/r4.0}AR-PACKAGE"]
  /\ map (child_text "{http://autosar.org/schema/r4.0}SHORT-NAME")
         (project_package_children (snd out)) =
     [None; None; Some "CanConfiguration"]
  /\ logged (snd out) =
     [ (INFO, "Merging 4 modules for project Proj");
       (WARNING,
        "Failed to merge module OS: Couldn't find end of Start Tag not-xml") ].
Proof. vm_compute. repeat split. Qed.

(* ===================================================================== *)
(** * The CAN generator: sections, bounds, identifiers *)
(* ===================================================================== *)

Lemma can_hw_objects_tags a k :
  map tag_of (can_hw_objects a k) = repeat "CAN-HW-OBJECT" k.
Proof.
  unfold can_hw_objects. revert a.
  induction k as [|k IH]; intros a; [reflexivity|].
  cbn [seq map repeat]. rewrite IH. reflexivity.
Qed.

Lemma can_hw_objects_no (T : string) a k :
  String.eqb "CAN-HW-OBJECT" T = false ->
  String.eqb "SHORT-NAME" T = false ->
  String.eqb "OBJECT-TYPE" T = false ->
  String.eqb "ID-TYPE" T = false ->
  String.eqb "CAN-OBJECT-ID" T = false ->
  filter (fun e => String.eqb (tag_of e) T)
         (flat_map subtree (can_hw_objects a k)) = [].
Proof.
  intros H1 H2 H3 H4 H5. unfold can_hw_objects.
  rewrite filter_flat_map, flat_map_map.
  induction (seq a k) as [|i l IH]; [reflexivity|].
  cbn [flat_map]. rewrite IH, app_nil_r.
  unfold can_hw_object, node, leaf, subtree.
  cbn [descendants flat_map app filter tag_of data_of tag].
  rewrite H1, H2, H3, H4, H5. reflexivity.
Qed.

(** The tags and texts of the children of an element, in order. *)
Definition child_fields (e : element) : list (string * option string) :=
  map (fun c => (tag_of c, text_of c)) (children_of e).

(** X1. When lxml accepts the ecuType as a text, the generator returns a
    document and the children of its controller come in a fixed order: its
    short name, the baudrate configuration, one CAN-HW-OBJECT per message
    object, then CAN-ERROR-HANDLING unless errorHandling is given as false,
    then CAN-WAKEUP-SUPPORT only if wakeupSupport is given as true. The two
    optional sections occur nowhere else, and carry fixed settings. *)
Theorem generate_can_config_sections {ext : Externals} (params : can_params)
    (ecu : string) (baud n : Z) :
  ecuType params = Some ecu ->
  xml_compatible ecu = true ->
  baudrate params = Some baud ->
  messageObjects params = Some n ->
  exists doc s ctrl,
    generate_can_config params new_store = (inr (etree_tostring doc), s)
    /\ findall_desc "CAN-CONTROLLER" doc = [ctrl]
    /\ map tag_of (children_of ctrl) =
       ["SHORT-NAME"; "CAN-CONTROLLER-BAUDRATE-CONFIG"]
       ++ repeat "CAN-HW-OBJECT" (Z.to_nat n)
       ++ match errorHandling params with
          | Some false => []
          | _ => ["CAN-ERROR-HANDLING"]
          end
       ++ match wakeupSupport params with
          | Some true => ["CAN-WAKEUP-SUPPORT"]
          | _ => []
          end
    /\ map child_fields (findall_desc "CAN-ERROR-HANDLING" doc) =
       match errorHandling params with
       | Some false => []
       | _ => [[ ("BUS-OFF-RECOVERY", Some "AUTOMATIC");
                 ("ERROR-PASSIVE-MODE", Some "ENABLED");
                 ("ERROR-WARNING-THRESHOLD", Some "96") ]]
       end
    /\ map child_fields (findall_desc "CAN-WAKEUP-SUPPORT" doc) =
       match wakeupSupport params with
       | Some true => [[ ("WAKEUP-ENABLED", Some "true");
                         ("WAKEUP-FILTER-ENABLED", Some "true") ]]
       | _ => []
       end.
Proof.
  intros He Hecu Hb Hn.
  pose proof (generate_can_config_run ecu baud Hecu params n He Hb Hn) as Hrun.
  cbv zeta in Hrun.
  set (k := Z.to_nat n) in *.
  assert (Heh : get_default (errorHandling params) true =
                match errorHandling params with
                | Some false => false | _ => true end)
    by (destruct (errorHandling params) as [[]|]; reflexivity).
  assert (Hwk : get_default (wakeupSupport params) false =
                match wakeupSupport params with
                | Some true => true | _ => false end)
    by (destruct (wakeupSupport params) as [[]|]; reflexivity).
  set (eh := get_default (errorHandling params) true) in *.
  set (wk := get_default (wakeupSupport params) false) in *.
  eexists (can_document ecu baud k eh wk), _, _.
  split; [exact Hrun|].
  unfold findall_desc. rewrite can_document_descendants, !filter_app.
  rewrite !can_hw_objects_no by reflexivity.
  split; [|split; [|split]].
  - replace (filter _ (flat_map subtree (can_tail k eh wk)))
      with (@nil element) by (destruct eh, wk; reflexivity).
    reflexivity.
  - cbn [children_of map app tag_of data_of tag leaf node].
    rewrite !map_app, can_hw_objects_tags.
    do 3 f_equal.
    destruct (errorHandling params) as [[]|], (wakeupSupport params) as [[]|];
      subst eh wk; reflexivity.
  - destruct (errorHandling params) as [[]|], (wakeupSupport params) as [[]|];
      subst eh wk; reflexivity.
  - destruct (errorHandling params) as [[]|], (wakeupSupport params) as [[]|];
      subst eh wk; reflexivity.
Qed.

(** A record that switches both optional sections. *)
Definition can_params_wakeup : can_params :=
  mk_can_params (Some "gateway") (Some 1000%Z) (Some 1%Z)
                (Some false) (Some true).

Lemma generate_can_config_sections_witness :
  exists doc s ctrl,
    @generate_can_config RefXml.externals can_params_wakeup new_store =
      (inr (RefXml.tostring doc), s)
    /\ findall_desc "CAN-CONTROLLER" doc = [ctrl]
    /\ map tag_of (children_of ctrl) =
       ["SHORT-NAME"; "CAN-CONTROLLER-BAUDRATE-CONFIG"; "CAN-HW-OBJECT";
        "CAN-WAKEUP-SUPPORT"]
    /\ map child_fields (findall_desc "CAN-ERROR-HANDLING" doc) = []
    /\ map child_fields (findall_desc "CAN-WAKEUP-SUPPORT" doc) =
       [[ ("WAKEUP-ENABLED", Some "true");
          ("WAKEUP-FILTER-ENABLED", Some "true") ]].
Proof.
  exact (@generate_can_config_sections RefXml.externals can_params_wakeup
           "gateway" 1000%Z 1%Z eq_refl eq_refl eq_refl eq_refl).
Defined.




Lemma some_str_inj (a b : Z) : Some (Py.str a) = Some (Py.str b) -> a = b.
Proof. intros H. injection H as H. exact (str_inj _ _ H). Qed.

(** X3. When lxml accepts the ecuType as a text, the generator returns a
    document in which every hardware object is declared with a standard
    identifier; the identifiers are 256 + i, pairwise distinct; they fit the
    eleven bits of a standard identifier when there are at most 1792 objects
    (so for every count the schema allows), and beyond that the document
    holds an identifier of 2048 still declared standard. *)
Theorem generate_can_config_object_ids {ext : Externals} (params : can_params)
    (ecu : string) (baud n : Z) :
  ecuType params = Some ecu ->
  xml_compatible ecu = true ->
  baudrate params = Some baud ->
  messageObjects params = Some n ->
  exists doc s,
    generate_can_config params new_store = (inr (etree_tostring doc), s)
    /\ map (child_text "ID-TYPE") (findall_desc "CAN-HW-OBJECT" doc) =
       map (fun _ => Some "STANDARD") (Py.range n)
    /\ map (child_text "CAN-OBJECT-ID") (findall_desc "CAN-HW-OBJECT" doc) =
       map (fun i => Some (Py.str (256 + i))) (Py.range n)
    /\ NoDup (map (child_text "CAN-OBJECT-ID")
                  (findall_desc "CAN-HW-OBJECT" doc))
    /\ ((n <= 1792)%Z ->
        forall i, In i (Py.range n) -> (256 <= 256 + i < 2048)%Z)
    /\ ((1792 < n)%Z ->
        In (Some "2048")
           (map (child_text "CAN-OBJECT-ID")
                (findall_desc "CAN-HW-OBJECT" doc))).
Proof.
  intros He Hecu Hb Hn.
  pose proof (generate_can_config_run ecu baud Hecu params n He Hb Hn) as Hrun.
  cbv zeta in Hrun.
  set (eh := get_default (errorHandling params) true) in *.
  set (wk := get_default (wakeupSupport params) false) in *.
  set (k := Z.to_nat n) in *.
  eexists (can_document ecu baud k eh wk), _.
  split; [exact Hrun|].
  rewrite can_document_hw_objects.
  assert (Hids : map (child_text "CAN-OBJECT-ID") (can_hw_objects 0 k) =
                 map (fun i => Some (Py.str (256 + i))) (Py.range n)).
  { unfold can_hw_objects, Py.range. rewrite !map_map.
    apply map_ext. intros i. reflexivity. }
  split; [|split; [exact Hids|split; [|split]]].
  - unfold can_hw_objects, Py.range. rewrite !map_map.
    apply map_ext. intros i. reflexivity.
  - rewrite Hids. unfold Py.range. rewrite map_map.
    apply Injective_map_NoDup; [|apply seq_NoDup].
    intros i j H. cbv beta in H. apply some_str_inj in H. lia.
  - intros Hle i Hi. unfold Py.range in Hi.
    apply in_map_iff in Hi as (j & <- & Hj). apply in_seq in Hj. lia.
  - intros Hgt. rewrite Hids.
    change (Some "2048") with (Some (Py.str (256 + 1792))).
    apply (in_map (fun i => Some (Py.str (256 + i)))).
    unfold Py.range.
    change 1792%Z with (Z.of_nat 1792). apply in_map. apply in_seq. lia.
Qed.

Lemma generate_can_config_object_ids_witness :
  exists doc s,
    @generate_can_config RefXml.externals can_params_example new_store =
      (inr (RefXml.tostring doc), s)
    /\ map (child_text "ID-TYPE") (findall_desc "CAN-HW-OBJECT" doc) =
       [Some "STANDARD"; Some "STANDARD"]
    /\ map (child_text "CAN-OBJECT-ID") (findall_desc "CAN-HW-OBJECT" doc) =
       [Some "256"; Some "257"].
Proof.
  destruct (@generate_can_config_object_ids RefXml.externals
              can_params_example "powertrain" 500%Z 2%Z
              eq_refl eq_refl eq_refl eq_refl)
    as (doc & s & Hrun & Hty & Hid & _).
  exists doc, s. split; [exact Hrun|]. split; [exact Hty | exact Hid].
Defined.

(* ===================================================================== *)
(** * The NvM generator: sections, bounds, storage layout *)
(* ===================================================================== *)

(** The hexadecimal rendering is injective: distinct integers print
    differently. *)
Lemma to_hex_int_not_nil (z : Z) :
  Z.to_hex_int z <> Hexadecimal.Pos Hexadecimal.Nil
  /\ Z.to_hex_int z <> Hexadecimal.Neg Hexadecimal.Nil.
Proof.
  destruct z as [|q|q]; cbn [Z.to_hex_int]; split; try discriminate;
    intros H; injection H as H;
    exact (HexadecimalPos.Unsigned.to_uint_nonnil q H).
Qed.

Lemma hex_digits_inj (a b : Z) : Py.hex_digits a = Py.hex_digits b -> a = b.
Proof.
  unfold Py.hex_digits. intros H.
  apply (f_equal HexadecimalString.NilZero.int_of_string) in H.
  destruct (to_hex_int_not_nil a) as [Ha1 Ha2].
  destruct (to_hex_int_not_nil b) as [Hb1 Hb2].
  rewrite !HexadecimalString.NilZero.isi in H by assumption.
  injection H as H. apply HexadecimalZ.to_int_inj. exact H.
Qed.

Section NvmSections.
Context {ext : Externals}.
Variables (size : Z) (strategy : string) (crc red : bool).

(** The elements with tag [T] below the blocks, block after block. *)
Lemma nvm_blocks_findall (T : string) a k :
  filter (fun e => String.eqb (tag_of e) T)
         (flat_map subtree (nvm_blocks size strategy crc red a k)) =
  flat_map (fun i => filter (fun e => String.eqb (tag_of e) T)
                       (subtree (nvm_block_tree size strategy crc red
                                   (13 + nvm_stride crc red * i)
                                   (Z.of_nat i))))
           (seq a k).
Proof.
  unfold nvm_blocks. rewrite filter_flat_map, flat_map_map. reflexivity.
Qed.

End NvmSections.

(** The tags of the children of one block. *)
Definition nvm_block_tags (crc red : bool) : list string :=
  ["SHORT-NAME"; "NVM-BLOCK-ID"; "NVM-BLOCK-LENGTH"; "NVM-WRITE-STRATEGY"]
  ++ (if crc then ["NVM-BLOCK-CRC-TYPE"] else [])
  ++ (if red then ["NVM-REDUNDANCY"] else [])
  ++ ["NVM-BLOCK-STORAGE"].

(** X4.  Every block has the same children in the same order: short name,
    identifier, length, write strategy, then a CRC type of NVM_CRC_16
    unless crcProtection is given as false, then a redundancy of one block
    only if redundancy is given as true, then the storage, always on the
    EEPROM.  The descriptor gets one wear-levelling section, with a
    threshold of 1000, unless wearLeveling is given as false. *)
Theorem generate_nvm_config_sections {ext : Externals} (params : nvm_params)
    (n size : Z) (strategy : string) :
  blockCount params = Some n ->
  blockSize params = Some size ->
  writeStrategy params = Some strategy ->
  let crc := match crcProtection params with Some false => false | _ => true end in
  let red := match redundancy params with Some true => true | _ => false end in
  exists doc s,
    generate_nvm_config params new_store = (inr (etree_tostring doc), s)
    /\ map (fun b => map tag_of (children_of b)) (findall_desc "NVM-BLOCK" doc)
       = map (fun _ => nvm_block_tags crc red) (Py.range n)
    /\ map text_of (findall_desc "CRC-TYPE" doc) =
       (if crc then map (fun _ => Some "NVM_CRC_16") (Py.range n) else [])
    /\ map text_of (findall_desc "REDUNDANT-BLOCK-COUNT" doc) =
       (if red then map (fun _ => Some "1") (Py.range n) else [])
    /\ map text_of (findall_desc "STORAGE-DEVICE" doc) =
       map (fun _ => Some "EEPROM") (Py.range n)
    /\ map child_fields (findall_desc "NVM-WEAR-LEVELING" doc) =
       match wearLeveling params with
       | Some false => []
       | _ => [[ ("WEAR-LEVELING-ENABLED", Some "true");
                 ("WEAR-LEVELING-THRESHOLD", Some "1000") ]]
       end.
Proof.
  intros Hn Hs Hw crc red.
  pose proof (generate_nvm_config_run size strategy params Hs Hw n Hn) as Hrun.
  cbv zeta in Hrun.
  assert (Hcrc : get_default (crcProtection params) true = crc)
    by (subst crc; destruct (crcProtection params) as [[]|]; reflexivity).
  assert (Hred : get_default (redundancy params) false = red)
    by (subst red; destruct (redundancy params) as [[]|]; reflexivity).
  rewrite Hcrc, Hred in Hrun. clearbody crc red.
  set (wear := get_default (wearLeveling params) true) in *.
  set (k := Z.to_nat n) in *.
  eexists (nvm_document size strategy k crc red wear), _.
  split; [exact Hrun|].
  rewrite nvm_document_blocks.
  unfold findall_desc. rewrite nvm_document_descendants, !filter_app.
  rewrite !nvm_blocks_findall.
  unfold Py.range. fold k.
  split; [|split; [|split; [|split]]].
  - unfold nvm_blocks. rewrite !map_map. apply map_ext. intros i.
    destruct crc, red; reflexivity.
  - replace (filter _ (flat_map subtree (nvm_tail crc red k wear)))
      with (@nil element) by (destruct wear; reflexivity).
    replace (filter _ (nvm_spine _ _)) with (@nil element) by reflexivity.
    rewrite app_nil_r. cbn [app]. rewrite map_map.
    induction (seq 0 k) as [|i l IH]; [destruct crc; reflexivity|].
    cbn [flat_map map]. rewrite map_app, IH.
    destruct crc, red; reflexivity.
  - replace (filter _ (flat_map subtree (nvm_tail crc red k wear)))
      with (@nil element) by (destruct wear; reflexivity).
    replace (filter _ (nvm_spine _ _)) with (@nil element) by reflexivity.
    rewrite app_nil_r. cbn [app]. rewrite map_map.
    induction (seq 0 k) as [|i l IH]; [destruct red; reflexivity|].
    cbn [flat_map map]. rewrite map_app, IH.
    destruct crc, red; reflexivity.
  - replace (filter _ (flat_map subtree (nvm_tail crc red k wear)))
      with (@nil element) by (destruct wear; reflexivity).
    replace (filter _ (nvm_spine _ _)) with (@nil element) by reflexivity.
    rewrite app_nil_r. cbn [app]. rewrite map_map.
    induction (seq 0 k) as [|i l IH]; [reflexivity|].
    cbn [flat_map map]. rewrite map_app, IH.
    destruct crc, red; reflexivity.
  - replace (filter _ (nvm_spine _ _)) with (@nil element) by reflexivity.
    replace (flat_map _ (seq 0 k)) with (@nil element).
    2:{ symmetry. induction (seq 0 k) as [|i l IH]; [reflexivity|].
        cbn [flat_map]. rewrite IH, app_nil_r.
        destruct crc, red; reflexivity. }
    cbn [app]. subst wear.
    destruct (wearLeveling params) as [[]|]; reflexivity.
Qed.

(** A record that switches the three optional sections. *)
Definition nvm_params_redundant : nvm_params :=
  mk_nvm_params (Some 2%Z) (Some 8%Z) (Some "deferred")
                (Some false) (Some true) (Some false).

Lemma generate_nvm_config_sections_witness :
  exists doc s,
    @generate_nvm_config RefXml.externals nvm_params_redundant new_store =
      (inr (RefXml.tostring doc), s)
    /\ map (fun b => map tag_of (children_of b)) (findall_desc "NVM-BLOCK" doc)
       = [ ["SHORT-NAME"; "NVM-BLOCK-ID"; "NVM-BLOCK-LENGTH";
            "NVM-WRITE-STRATEGY"; "NVM-REDUNDANCY"; "NVM-BLOCK-STORAGE"];
           ["SHORT-NAME"; "NVM-BLOCK-ID"; "NVM-BLOCK-LENGTH";
            "NVM-WRITE-STRATEGY"; "NVM-REDUNDANCY"; "NVM-BLOCK-STORAGE"] ]
    /\ map text_of (findall_desc "CRC-TYPE" doc) = []
    /\ map text_of (findall_desc "REDUNDANT-BLOCK-COUNT" doc) =
       [Some "1"; Some "1"]
    /\ map text_of (findall_desc "STORAGE-DEVICE" doc) =
       [Some "EEPROM"; Some "EEPROM"]
    /\ map child_fields (findall_desc "NVM-WEAR-LEVELING" doc) = [].
Proof.
  exact (@generate_nvm_config_sections RefXml.externals nvm_params_redundant
           2%Z 8%Z "deferred" eq_refl eq_refl eq_refl).
Defined.




(** X6.  With a size of at least one byte the blocks lie one after the
    other from address 0: the address of block [i] is the hexadecimal
    rendering of [i * size], without a sign, so each block starts where
    the one before it ends, and no two blocks have the same address. *)
Theorem generate_nvm_config_addresses {ext : Externals} (params : nvm_params)
    (n size : Z) (strategy : string) :
  blockCount params = Some n ->
  blockSize params = Some size ->
  writeStrategy params = Some strategy ->
  (1 <= size)%Z ->
  exists doc s,
    generate_nvm_config params new_store = (inr (etree_tostring doc), s)
    /\ map (fun b => map text_of (findall_desc "STORAGE-ADDRESS" b))
           (findall_desc "NVM-BLOCK" doc) =
       map (fun i => [Some ("0x" ++ Py.hex_digits (i * size))%string])
           (Py.range n)
    /\ NoDup (map (fun b => map text_of (findall_desc "STORAGE-ADDRESS" b))
                  (findall_desc "NVM-BLOCK" doc)).
Proof.
  intros Hn Hs Hw Hsize.
  pose proof (generate_nvm_config_run size strategy params Hs Hw n Hn) as Hrun.
  cbv zeta in Hrun.
  set (crc := get_default (crcProtection params) true) in *.
  set (red := get_default (redundancy params) false) in *.
  set (wear := get_default (wearLeveling params) true) in *.
  set (k := Z.to_nat n) in *.
  eexists (nvm_document size strategy k crc red wear), _.
  split; [exact Hrun|].
  rewrite nvm_document_blocks.
  assert (Haddr : map (fun b => map text_of (findall_desc "STORAGE-ADDRESS" b))
                      (nvm_blocks size strategy crc red 0 k) =
                  map (fun i => [Some ("0x" ++ Py.hex_digits (i * size))%string])
                      (Py.range n)).
  { unfold nvm_blocks, Py.range. fold k. rewrite !map_map.
    apply map_ext. intros i.
    replace (map text_of _) with [Some (Py.hex (Z.of_nat i * size))]
      by (destruct crc, red; reflexivity).
    unfold Py.hex.
    destruct (Z.ltb_spec (Z.of_nat i * size) 0) as [Hneg|_];
      [nia | reflexivity]. }
  split; [exact Haddr|].
  rewrite Haddr. unfold Py.range. rewrite map_map.
  apply Injective_map_NoDup; [|apply seq_NoDup].
  intros i j H. cbv beta in H.
  assert (H' : Py.hex_digits (Z.of_nat i * size) =
               Py.hex_digits (Z.of_nat j * size)).
  { apply (append_inj_l "0x"). congruence. }
  apply hex_digits_inj in H'. nia.
Qed.

Lemma generate_nvm_config_addresses_witness :
  exists doc s,
    @generate_nvm_config RefXml.externals nvm_params_example new_store =
      (inr (RefXml.tostring doc), s)
    /\ map (fun b => map text_of (findall_desc "STORAGE-ADDRESS" b))
           (findall_desc "NVM-BLOCK" doc) =
       [[Some "0x0"]; [Some "0x10"]; [Some "0x20"]].
Proof.
  assert (R : (1 <= 16)%Z) by lia.
  destruct (@generate_nvm_config_addresses RefXml.externals
              nvm_params_example 3%Z 16%Z "immediate"
              eq_refl eq_refl eq_refl R)
    as (doc & s & Hrun & Haddr & _).
  exists doc, s. split; [exact Hrun | exact Haddr].
Defined.

(* ===================================================================== *)
(** * The validator: when a document is valid, and the duplicate check *)
(* ===================================================================== *)

Lemma set_of_In (x : option string) (l : list (option string)) :
  In x (Py.set_of text_eqb l) <-> In x l.
Proof.
  induction l as [|a l IH]; [reflexivity|]. cbn [Py.set_of In].
  rewrite filter_In, IH. split.
  - intros [H | [H _]]; [left; exact H | right; exact H].
  - intros [H | H]; [left; exact H|].
    destruct (text_eqb a x) eqn:E.
    + left. apply text_eqb_eq. exact E.
    + right. split; [exact H | reflexivity].
Qed.

Lemma set_of_NoDup (l : list (option string)) :
  NoDup (Py.set_of text_eqb l).
Proof.
  induction l as [|a l IH]; [constructor|]. cbn [Py.set_of].
  constructor.
  - intros H. apply filter_In in H as [_ H].
    assert (E : text_eqb a a = true) by (apply text_eqb_eq; reflexivity).
    rewrite E in H. discriminate H.
  - apply NoDup_filter. exact IH.
Qed.

Lemma first_none_In (l : list (option string)) : forall i,
  (exists j, first_none l i = Some j) <-> In None l.
Proof.
  induction l as [|[x|] l IH]; intros i; cbn [first_none In].
  - split; [intros [j H]; discriminate H | intros []].
  - rewrite (IH (S i)). split; [intros H; right; exact H|].
    intros [H | H]; [discriminate H | exact H].
  - split; [intros _; left; reflexivity | intros _; exists i; reflexivity].
Qed.

Lemma count_pos_In (l : list (option string)) (x : option string) :
  0 < Py.count text_eqb l x -> In x l.
Proof.
  unfold Py.count. intros H.
  destruct (filter (text_eqb x) l) as [|y f] eqn:E; [cbn in H; lia|].
  assert (Hy : In y (filter (text_eqb x) l)) by (rewrite E; left; reflexivity).
  apply filter_In in Hy as [Hy Hxy]. apply text_eqb_eq in Hxy. subst y.
  exact Hy.
Qed.

(** A name is among the duplicates exactly when it occurs more than once. *)
Lemma In_duplicates {ext : Externals} (root : element) (x : option string) :
  In x (duplicates root) <-> 1 < Py.count text_eqb (short_names root) x.
Proof.
  unfold duplicates. rewrite set_of_In, filter_In. split.
  - intros [_ H]. apply Nat.ltb_lt. exact H.
  - intros H. split; [apply count_pos_In; lia | apply Nat.ltb_lt; exact H].
Qed.

Lemma somes_In (l : list (option string)) (x : string) :
  In x (somes l) <-> In (Some x) l.
Proof.
  induction l as [|[y|] l IH]; cbn [somes In].
  - reflexivity.
  - rewrite IH. split; (intros [H | H]; [left; congruence | right; exact H]).
  - rewrite IH. split; [intros H; right; exact H|].
    intros [H | H]; [discriminate H | exact H].
Qed.

Lemma somes_NoDup (l : list (option string)) : NoDup l -> NoDup (somes l).
Proof.
  induction 1 as [|[y|] l Hy _ IH]; cbn [somes]; [constructor| |exact IH].
  constructor; [|exact IH]. intros H. apply Hy, somes_In. exact H.
Qed.

(** No name occurs twice exactly when the list has no repetition. *)
Lemma count_le_1_NoDup (l : list (option string)) :
  (forall x, Py.count text_eqb l x <= 1) -> NoDup l.
Proof.
  induction l as [|a l IH]; intros H; [constructor|].
  assert (Haa : text_eqb a a = true) by (apply text_eqb_eq; reflexivity).
  constructor.
  - intros Hin. specialize (H a). unfold Py.count in H.
    cbn [filter] in H. rewrite Haa in H. cbn [length] in H.
    assert (0 < length (filter (text_eqb a) l)); [|lia].
    destruct (filter (text_eqb a) l) as [|y f] eqn:E; [|cbn; lia].
    exfalso.
    assert (G : In a (filter (text_eqb a) l))
      by (apply filter_In; split; assumption).
    rewrite E in G. exact G.
  - apply IH. intros x. specialize (H x). unfold Py.count in *.
    cbn [filter] in H. destruct (text_eqb x a); cbn [length] in H; lia.
Qed.

Lemma duplicates_nil_NoDup {ext : Externals} (root : element) :
  duplicates root = [] <-> NoDup (short_names root).
Proof.
  split.
  - intros H. apply count_le_1_NoDup. intros x.
    destruct (Nat.le_gt_cases (Py.count text_eqb (short_names root) x) 1)
      as [Hle | Hgt]; [exact Hle|].
    apply In_duplicates in Hgt. rewrite H in Hgt. contradiction.
  - intros H. unfold duplicates.
    rewrite NoDup_no_duplicates by exact H. reflexivity.
Qed.

(** X7.  A document that parses is reported valid exactly when its root
    tag is AUTOSAR, bare or in any namespace, and at most one of the
    SHORT-NAME elements examined has no text; warnings never make it
    invalid.  The element count is the number of elements below the
    root. *)
Theorem validate_arxml_valid_iff {ext : Externals} (content version : string)
    (root : element) :
  etree_fromstring content = inr root ->
  exists r,
    validate_arxml content version = inr r
    /\ valid r =
       (String.eqb (tag_of root) "AUTOSAR"
        || Py.endswith (tag_of root) "}AUTOSAR")
       && (Py.count text_eqb (short_names root) None <=? 1)%nat
    /\ elementCount r = length (descendants root).
Proof.
  intros Hparse.
  rewrite (validate_arxml_parsed content version root Hparse).
  eexists. split; [reflexivity|].
  unfold parsed_report, root_errors, findall_star.
  fold (root_tag_ok root).
  destruct (duplicates root) as [|d ds] eqn:Hdup.
  - cbn [valid elementCount]. split; [|reflexivity].
    assert (Hc : (Py.count text_eqb (short_names root) None <=? 1)%nat = true).
    { apply Nat.leb_le.
      destruct (Nat.le_gt_cases (Py.count text_eqb (short_names root) None) 1)
        as [Hle | Hgt]; [exact Hle|].
      apply In_duplicates in Hgt. rewrite Hdup in Hgt. contradiction. }
    rewrite Hc, andb_true_r. destruct (root_tag_ok root); reflexivity.
  - destruct (first_none (d :: ds) 0) as [i|] eqn:Hnone.
    + cbn [valid elementCount]. split; [|reflexivity].
      assert (Hin : In None (duplicates root)).
      { rewrite Hdup. apply (first_none_In (d :: ds) 0). exists i. exact Hnone. }
      apply In_duplicates in Hin.
      replace (Py.count text_eqb (short_names root) None <=? 1)%nat with false
        by (symmetry; apply Nat.leb_gt; exact Hin).
      rewrite andb_false_r. reflexivity.
    + cbn [valid elementCount]. split; [|reflexivity].
      assert (Hc : (Py.count text_eqb (short_names root) None <=? 1)%nat = true).
      { apply Nat.leb_le.
        destruct (Nat.le_gt_cases (Py.count text_eqb (short_names root) None) 1)
          as [Hle | Hgt]; [exact Hle|].
        apply In_duplicates in Hgt. rewrite Hdup in Hgt.
        apply (first_none_In (d :: ds) 0) in Hgt as [j Hj].
        rewrite Hnone in Hj. discriminate Hj. }
      rewrite Hc, andb_true_r. destruct (root_tag_ok root); reflexivity.
Qed.

(** A document whose root is in another namespace and has no packages. *)
Definition foreign_namespace_doc : string :=
  "<a:AUTOSAR xmlns:a='urn:other'><a:ITEM/></a:AUTOSAR>".

Lemma validate_arxml_valid_iff_witness :
  exists r,
    @validate_arxml RefXml.externals foreign_namespace_doc "4.2.2" = inr r
    /\ valid r = true
    /\ length (warnings r) = 2
    /\ elementCount r = 1.
Proof.
  destruct (@validate_arxml_valid_iff RefXml.externals foreign_namespace_doc
              "4.2.2" _ eq_refl) as (r & Hrun & Hvalid & Hcount).
  exists r. split; [exact Hrun|]. split; [exact Hvalid|].
  split; [|exact Hcount].
  assert (E : inr r =
              @validate_arxml RefXml.externals foreign_namespace_doc "4.2.2")
    by (symmetry; exact Hrun).
  vm_compute in E. injection E as ->. reflexivity.
Defined.

(** X8.  When two or more of the SHORT-NAME elements examined have no
    text, building the duplicate warning fails on the missing text and the
    failure is reported as an error: the document is invalid whatever its
    root tag, the error reads "Validation error: sequence item ...", no
    duplicate warning and no recommendation is issued, and the elements
    are still counted. *)
Theorem validate_arxml_textless_names {ext : Externals}
    (content version : string) (root : element) :
  etree_fromstring content = inr root ->
  1 < Py.count text_eqb (short_names root) None ->
  exists r i,
    validate_arxml content version = inr r
    /\ valid r = false
    /\ last (errors r) "" =
       ("Validation error: sequence item " ++ Py.str (Z.of_nat i)
        ++ ": expected str instance, NoneType found")%string
    /\ (forall w, In w (warnings r) ->
                  Py.startswith w "Duplicate SHORT-NAMEs found" = false)
    /\ recommendations r = []
    /\ elementCount r = length (descendants root).
Proof.
  intros Hparse Hcount.
  rewrite (validate_arxml_parsed content version root Hparse).
  apply In_duplicates in Hcount.
  unfold parsed_report.
  destruct (duplicates root) as [|d ds] eqn:Hdup; [contradiction|].
  apply (first_none_In (d :: ds) 0) in Hcount as [i Hi]. rewrite Hi.
  eexists _, i. split; [reflexivity|]. cbn [valid errors warnings
                                            recommendations elementCount].
  split; [reflexivity|]. split; [apply last_last|].
  split; [|split; reflexivity].
  intros w Hw. unfold structure_warnings, namespace_warning in Hw.
  destruct (has_packages root), (Py.contains AUTOSAR_NS (default_namespace root));
    cbn [app In] in Hw; intuition (subst; reflexivity).
Qed.

(** A well-formed document with two short names without text. *)
Definition textless_names_doc : string :=
  "<AUTOSAR xmlns='http://autosar.org/schema/r4.0'><AR-PACKAGES><SHORT-NAME/><SHORT-NAME/></AR-PACKAGES></AUTOSAR>".

Lemma validate_arxml_textless_names_witness :
  exists r,
    @validate_arxml RefXml.externals textless_names_doc "4.2.2" = inr r
    /\ valid r = false
    /\ errors r =
       ["Validation error: sequence item 0: expected str instance, NoneType found"]
    /\ recommendations r = [].
Proof.
  assert (R : 1 < 2) by lia.
  destruct (@validate_arxml_textless_names RefXml.externals textless_names_doc
              "4.2.2" _ eq_refl R) as (r & i & Hrun & Hvalid & _ & _ & Hrec & _).
  exists r. split; [exact Hrun|]. split; [exact Hvalid|].
  split; [|exact Hrec].
  assert (E : inr r =
              @validate_arxml RefXml.externals textless_names_doc "4.2.2")
    by (symmetry; exact Hrun).
  vm_compute in E. injection E as ->. reflexivity.
Defined.

(** X9.  For a document that parses and in which at most one of the
    SHORT-NAME elements examined has no text: when no text occurs twice no
    warning about duplicates is issued; otherwise the last warning lists,
    each once, exactly the texts that occur more than once. *)
Theorem validate_arxml_duplicate_warning {ext : Externals}
    (content version : string) (root : element) :
  etree_fromstring content = inr root ->
  Py.count text_eqb (short_names root) None <= 1 ->
  exists r,
    validate_arxml content version = inr r
    /\ (NoDup (short_names root) ->
        forall w, In w (warnings r) ->
                  Py.startswith w "Duplicate SHORT-NAMEs found" = false)
    /\ (~ NoDup (short_names root) ->
        exists names,
          last (warnings r) "" =
            ("Duplicate SHORT-NAMEs found: " ++ Py.join ", " names)%string
          /\ NoDup names
          /\ forall x, In x names <->
                       1 < Py.count text_eqb (short_names root) (Some x)).
Proof.
  intros Hparse Hcount.
  rewrite (validate_arxml_parsed content version root Hparse).
  eexists. split; [reflexivity|].
  assert (Hplain : forall w, In w (structure_warnings root) ->
                     Py.startswith w "Duplicate SHORT-NAMEs found" = false).
  { intros w Hw. unfold structure_warnings, namespace_warning in Hw.
    destruct (has_packages root),
      (Py.contains AUTOSAR_NS (default_namespace root));
      cbn [app In] in Hw; intuition (subst; reflexivity). }
  unfold parsed_report.
  destruct (duplicates root) as [|d ds] eqn:Hdup.
  - cbn [warnings]. split; [intros _; exact Hplain|].
    intros Hnd. exfalso. apply Hnd. apply duplicates_nil_NoDup. exact Hdup.
  - destruct (first_none (d :: ds) 0) as [i|] eqn:Hnone.
    { exfalso.
      assert (Hin : In None (duplicates root)).
      { rewrite Hdup. apply (first_none_In (d :: ds) 0). exists i.
        exact Hnone. }
      apply In_duplicates in Hin. lia. }
    cbn [warnings]. split.
    + intros Hnd. apply duplicates_nil_NoDup in Hnd.
      rewrite Hdup in Hnd. discriminate Hnd.
    + intros _. exists (somes (d :: ds)).
      split; [apply last_last|]. rewrite <- Hdup.
      split; [apply somes_NoDup, set_of_NoDup|].
      intros x. rewrite somes_In. apply In_duplicates.
Qed.

(** A document in which two names occur twice. *)
Definition duplicate_names_doc : string :=
  "<AUTOSAR><AR-PACKAGES><SHORT-NAME>A</SHORT-NAME><SHORT-NAME>B</SHORT-NAME><SHORT-NAME>A</SHORT-NAME><SHORT-NAME>B</SHORT-NAME></AR-PACKAGES></AUTOSAR>".

Lemma validate_arxml_duplicate_warning_witness :
  exists r names,
    @validate_arxml RefXml.externals duplicate_names_doc "4.2.2" = inr r
    /\ last (warnings r) "" =
       ("Duplicate SHORT-NAMEs found: " ++ Py.join ", " names)%string
    /\ (In "A" names /\ In "B" names).
Proof.
  assert (R : 0 <= 1) by lia.
  destruct (@validate_arxml_duplicate_warning RefXml.externals
              duplicate_names_doc "4.2.2" _ eq_refl R)
    as (r & Hrun & _ & Hdup).
  destruct Hdup as (names & Hlast & _ & Hnames).
  { intros H. vm_compute in H.
    inversion H as [|? ? Hnot _]. apply Hnot. right. left. reflexivity. }
  exists r, names. split; [exact Hrun|]. split; [exact Hlast|].
  split; apply Hnames; vm_compute; lia.
Defined.

(* ===================================================================== *)
(** * Validating what the generators return: the element counts *)
(* ===================================================================== *)








(* ===================================================================== *)
(** * The merge: elements are moved, and generated documents merge *)
(* ===================================================================== *)

Lemma NoDup_flat_map_unique {A B : Type} (f : A -> list B) (l : list A)
    (a b : A) (u : B) :
  NoDup (flat_map f l) -> In a l -> In b l -> In u (f a) -> In u (f b) ->
  a = b.
Proof.
  induction l as [|x l IH]; intros Hnd Ha Hb Hua Hub; [contradiction|].
  cbn [flat_map] in Hnd.
  assert (Hsep : forall y, In y l -> In u (f x) -> In u (f y) -> False).
  { intros y Hy Hx Huy.
    apply (NoDup_app_remove_l _ _) in Hnd as Hl.
    revert Hnd. clear -Hy Hx Huy. intros Hnd.
    induction (f x) as [|z fx IHfx]; [contradiction|].
    cbn [app] in Hnd. inversion Hnd as [|? ? Hz Hrest]; subst.
    destruct Hx as [-> | Hx]; [|exact (IHfx Hx Hrest)].
    apply Hz, in_or_app. right. apply in_flat_map. exists y.
    split; assumption. }
  destruct Ha as [-> | Ha], Hb as [-> | Hb].
  - reflexivity.
  - exfalso. exact (Hsep b Hb Hua Hub).
  - exfalso. exact (Hsep a Ha Hub Hua).
  - apply IH; try assumption. apply NoDup_app_remove_l in Hnd. exact Hnd.
Qed.

Lemma NoDup_flat_map_each {A B : Type} (f : A -> list B) (l : list A) (a : A) :
  NoDup (flat_map f l) -> In a l -> NoDup (f a).
Proof.
  induction l as [|x l IH]; intros Hnd Ha; [contradiction|].
  cbn [flat_map] in Hnd. destruct Ha as [-> | Ha].
  - apply NoDup_app_remove_r in Hnd. exact Hnd.
  - apply IH; [|exact Ha]. apply NoDup_app_remove_l in Hnd. exact Hnd.
Qed.

(** X12. When lxml accepts the project name and the ECU name as texts, the
    merge returns, and it moves elements, it does not copy them: when it
    ends, every element of the merged document and of what is left of the
    parsed fragments has one place, so a package that was found inside
    another package of its fragment is no longer inside it, and no child of
    the project package contains another one. *)
Theorem merge_configurations_moves {ext : Externals}
    (modules : list module_config) (project_name ecu_name : string) :
  xml_compatible project_name = true ->
  xml_compatible ecu_name = true ->
  exists K G s,
    merge_configurations modules project_name ecu_name new_store =
      (inr (etree_tostring (merge_frame project_name ecu_name K)), s)
    /\ docs s = merge_frame project_name ecu_name K :: G
    /\ NoDup (forest_uids (docs s))
    /\ store_ok s
    /\ (forall k k', In k K -> In k' K ->
                     ~ In (uid_of k') (map uid_of (descendants k))).
Proof.
  intros Hproject Hecu. unfold merge_configurations.
  unfold new_store, create_root, add_admin_data, create_ar_package.
  run_prefix.
  match goal with
  | |- context [mk_store 12 [?T] ?lg] =>
      change T with (merge_frame project_name ecu_name [])
  end.
  destruct (merge_modules_run project_name ecu_name modules [] [] 12
              [(INFO, ("Merging " ++ Py.str (Z.of_nat (length modules))
                       ++ " modules for project " ++ project_name)%string)])
    as (K & G & N & Hrun & (Hnd & Hrange & HN) & _).
  { split; [constructor | split; [intros u [] | lia]]. }
  exists K, G. eexists. unfold bind at 1. rewrite Hrun.
  split; [reflexivity|]. cbn [docs next_uid].
  split; [reflexivity|].
  split; [|split].
  - rewrite forest_uids_cons, merge_frame_uids, <- app_assoc.
    rewrite <- forest_uids_app.
    apply NoDup_app; [apply seq_NoDup | exact Hnd|].
    intros u Hu Hin. apply in_seq in Hu. apply Hrange in Hin. lia.
  - intros u Hu. cbn [docs next_uid] in *.
    rewrite forest_uids_cons, merge_frame_uids, <- app_assoc in Hu.
    rewrite <- forest_uids_app in Hu.
    apply in_app_or in Hu as [Hu | Hu].
    + apply in_seq in Hu. lia.
    + apply Hrange in Hu. lia.
  - intros k k' Hk Hk' Hin.
    rewrite forest_uids_app in Hnd. apply NoDup_app_remove_r in Hnd.
    unfold forest_uids in Hnd.
    assert (E : k = k').
    { apply (NoDup_flat_map_unique uids K k k' (uid_of k') Hnd Hk Hk').
      - unfold uids, subtree. cbn [map]. right. exact Hin.
      - unfold uids, subtree. cbn [map]. left. reflexivity. }
    subst k'.
    pose proof (NoDup_flat_map_each uids K k Hnd Hk) as Hk1.
    unfold uids, subtree in Hk1. cbn [map] in Hk1.
    inversion Hk1 as [|? ? Hnot _]. exact (Hnot Hin).
Qed.

Lemma merge_configurations_moves_witness :
  exists K G s,
    @merge_configurations RefXml.externals
      [ mk_module (Some "X") (Some "<A><AR-PACKAGE><AR-PACKAGE/></AR-PACKAGE></A>") ]
      "Proj" "ECU1" new_store =
      (inr (RefXml.tostring (@merge_frame RefXml.externals "Proj" "ECU1" K)),
       s)
    /\ docs s = @merge_frame RefXml.externals "Proj" "ECU1" K :: G
    /\ NoDup (forest_uids (docs s))
    /\ store_ok s
    /\ (forall k k', In k K -> In k' K ->
                     ~ In (uid_of k') (map uid_of (descendants k))).
Proof.
  exact (@merge_configurations_moves RefXml.externals
           [ mk_module (Some "X")
               (Some "<A><AR-PACKAGE><AR-PACKAGE/></AR-PACKAGE></A>") ]
           "Proj" "ECU1" eq_refl eq_refl).
Defined.

(** A fragment with a package inside a package. *)
Definition nested_packages_doc : string :=
  "<AUTOSAR xmlns='http://autosar.org/schema/r4.0'><AR-PACKAGES><AR-PACKAGE><SHORT-NAME>Outer</SHORT-NAME><AR-PACKAGES><AR-PACKAGE><SHORT-NAME>Inner</SHORT-NAME></AR-PACKAGE></AR-PACKAGES></AR-PACKAGE></AR-PACKAGES></AUTOSAR>".

(** Scenario: both packages become children of the project package, and
    the inner one has left the outer one. *)
Example merge_configurations_nested :
  let out :=
    @merge_configurations RefXml.externals
      [ mk_module (Some "X") (Some nested_packages_doc) ]
      "Proj" "ECU1" new_store in
  map (child_text "{http://autosar.org/schema/r4.0}SHORT-NAME")
      (project_package_children (snd out)) =
    [None; None; Some "Outer"; Some "Inner"]
  /\ map (fun k => length
                     (findall_desc "{http://autosar.org/schema/r4.0}AR-PACKAGE"
                                   k))
         (project_package_children (snd out)) = [0; 0; 0; 0].
Proof. vm_compute. split; reflexivity. Qed.

(** ** The shape of moved packages *)

(** An element without its identities. *)
Fixpoint strip (e : element) : element :=
  match e with
  | Elem _ d ch => Elem 0 d (map strip ch)
  end.

Definition same_shape (x y : element) : Prop := strip x = strip y.

Lemma same_shape_data x y : same_shape x y -> data_of x = data_of y.
Proof. destruct x, y. intros H. injection H as H _. exact H. Qed.

Lemma same_shape_child_text (T : string) x y :
  same_shape x y -> child_text T x = child_text T y.
Proof.
  destruct x as [u d ch], y as [v d' ch']. intros H.
  injection H as _ H. unfold child_text, find_child. cbn [children_of].
  revert ch' H. induction ch as [|c ch IH]; intros [|c' ch'] H;
    try discriminate H; [reflexivity|].
  cbn [map] in H. injection H as Hc H. cbn [List.find].
  pose proof (same_shape_data c c' Hc) as Hd.
  unfold tag_of. rewrite Hd.
  destruct (String.eqb (tag (data_of c')) T);
    [unfold text_of; rewrite Hd; reflexivity|].
  apply IH. exact H.
Qed.

(** [relabel] keeps the shape of a tree and of its descendants. *)
Definition relabel_shape (t : element) : Prop :=
  forall n t' n', relabel n t = (t', n') ->
    same_shape t t'
    /\ Forall2 same_shape (descendants t) (descendants t').

Lemma relabel_in_shape l :
  Forall relabel_shape l ->
  forall m l' m', relabel_in relabel m l = (l', m') ->
    map strip l = map strip l'
    /\ Forall2 same_shape (flat_map subtree l) (flat_map subtree l').
Proof.
  induction 1 as [|c l Hc _ IH]; intros m l' m' H.
  - injection H as <- <-. split; [reflexivity | constructor].
  - cbn [relabel_in] in H.
    destruct (relabel m c) as [c' m1] eqn:Ec.
    destruct (relabel_in relabel m1 l) as [l1 m2] eqn:El.
    injection H as <- <-.
    destruct (Hc _ _ _ Ec) as (Hs & Hdesc).
    destruct (IH _ _ _ El) as (Hm & Hl).
    split.
    + cbn [map]. f_equal; assumption.
    + cbn [flat_map]. apply Forall2_app; [|exact Hl].
      constructor; [exact Hs | exact Hdesc].
Qed.

Lemma relabel_shape_all (t : element) : relabel_shape t.
Proof.
  induction t as [u d ch IH] using element_ind'. intros n t' n' H.
  cbn [relabel] in H.
  destruct (relabel_in relabel (S n) ch) as [ch' m] eqn:E.
  injection H as <- <-.
  destruct (relabel_in_shape ch IH _ _ _ E) as (Hm & Hd).
  split; [|exact Hd].
  unfold same_shape. cbn [strip]. f_equal. exact Hm.
Qed.

Lemma found_packages_shape t n t' n' :
  relabel n t = (t', n') ->
  Forall2 same_shape (found_packages t) (found_packages t').
Proof.
  intros H. destruct (relabel_shape_all t _ _ _ H) as (_ & Hd).
  assert (F : forall T, Forall2 same_shape (findall_desc T t)
                                           (findall_desc T t')).
  { intros T. unfold findall_desc. apply Forall2_filter; [exact Hd|].
    intros x y Hxy. unfold tag_of. rewrite (same_shape_data x y Hxy).
    reflexivity. }
  unfold found_packages.
  pose proof (F "{http://autosar.org/schema/r4.0}AR-PACKAGE") as Hq.
  destruct Hq as [|x y l l' Hxy Hl]; cbn [is_empty].
  - apply F.
  - constructor; assumption.
Qed.

(** What [extract] takes out is an element of the trees it searched. *)
Lemma extract_forest_sub_aux u l :
  Forall (fun c => forall sub c', extract u c = Some (sub, c') ->
                                  In sub (subtree c)) l ->
  forall sub l', extract_forest u l = Some (sub, l') ->
                 In sub (flat_map subtree l).
Proof.
  induction 1 as [|c l Hc _ IH]; intros sub l' H; [discriminate|].
  rewrite extract_forest_cons in H. cbn [flat_map]. apply in_or_app.
  destruct (uid_of c =? u)%nat.
  - injection H as <- <-. left. left. reflexivity.
  - destruct (extract u c) as [[s c']|] eqn:Ec.
    + injection H as <- <-. left. exact (Hc _ _ eq_refl).
    + destruct (extract_forest u l) as [[s l'']|] eqn:El; [|discriminate].
      injection H as <- <-. right. exact (IH _ _ eq_refl).
Qed.

Lemma extract_sub u (c : element) :
  forall sub c', extract u c = Some (sub, c') -> In sub (subtree c).
Proof.
  induction c as [v d ch IH] using element_ind'. intros sub c' H.
  rewrite extract_Elem in H.
  destruct (extract_forest u ch) as [[s ch']|] eqn:E; [|discriminate].
  injection H as <- <-. right.
  exact (extract_forest_sub_aux u ch IH _ _ E).
Qed.

Lemma extract_forest_sub u l sub l' :
  extract_forest u l = Some (sub, l') -> In sub (flat_map subtree l).
Proof.
  apply extract_forest_sub_aux. apply Forall_forall. intros c _.
  apply extract_sub.
Qed.

Lemma forest_uids_subtrees l :
  forest_uids l = map uid_of (flat_map subtree l).
Proof.
  induction l as [|c l IH]; [reflexivity|].
  cbn [flat_map]. rewrite map_app, <- IH. reflexivity.
Qed.

(** Among elements with distinct identities, the identity tells the
    element. *)
Lemma NoDup_uid_eq (l : list element) (a b : element) :
  NoDup (map uid_of l) -> In a l -> In b l -> uid_of a = uid_of b -> a = b.
Proof.
  induction l as [|x l IH]; intros Hnd Ha Hb E; [contradiction|].
  cbn [map] in Hnd. inversion Hnd as [|? ? Hx Hl]; subst.
  destruct Ha as [-> | Ha], Hb as [-> | Hb].
  - reflexivity.
  - exfalso. apply Hx. rewrite E. apply in_map. exact Hb.
  - exfalso. apply Hx. rewrite <- E. apply in_map. exact Ha.
  - exact (IH Hl Ha Hb E).
Qed.

Section MergeSingle.
Context {ext : Externals}.
Variables (project_name ecu_name : string).

Local Abbreviation F := (merge_frame project_name ecu_name).

(** One [append] of an element that stands in a parsed fragment: it goes,
    as it is, after the packages moved so far. *)
Lemma append_fresh_run v K G N lg :
  (forall u, In u (forest_uids (K ++ G)) -> 12 <= u) ->
  In v (forest_uids G) ->
  ~ In v (forest_uids K) ->
  exists sub G',
    append 7 v (mk_store N (F K :: G) lg) =
      (inr tt, mk_store N (F (K ++ [sub]) :: G') lg)
    /\ In sub (flat_map subtree G)
    /\ uid_of sub = v.
Proof.
  intros Hlow HinG HK.
  assert (Hv : 12 <= v).
  { apply Hlow. rewrite forest_uids_app. apply in_or_app. right. exact HinG. }
  pose proof (merge_frame_frame project_name ecu_name) as HF.
  unfold append. cbn [docs next_uid logged].
  rewrite extract_forest_cons.
  replace (uid_of (F K) =? v)%nat with false
    by (symmetry; apply Nat.eqb_neq; cbn; lia).
  rewrite merge_frame_extract by exact Hv.
  destruct (extract_forest v K) as [[sub K1]|] eqn:EK.
  { exfalso. apply HK.
    destruct (extract_forest_ok v K sub K1 EK) as (Hu & Hp & _).
    apply (labels_perm_uids ([sub] ++ K1) K v).
    - rewrite labels_app. apply Permutation_sym. exact Hp.
    - rewrite forest_uids_app. apply in_or_app. left.
      rewrite <- Hu. apply in_forest_uids_top. left. reflexivity. }
  destruct (extract_forest v G) as [[sub G1]|] eqn:EG;
    [|exfalso; exact (extract_forest_found v G HinG EG)].
  destruct (extract_forest_ok v G sub G1 EG) as (Hu & Hp & _).
  exists sub, G1. split; [|split; [exact (extract_forest_sub v G sub G1 EG)
                                  | exact Hu]].
  assert (HpA : Permutation (labels ((K ++ [sub]) ++ G1)) (labels (K ++ G))).
  { rewrite !labels_app, Hp, <- app_assoc. reflexivity. }
  cbn [map]. f_equal. f_equal.
  rewrite (frame_add_focus _ _ _ HF).
  - rewrite add_child_fresh_forest; [reflexivity|].
    intros H7. assert (12 <= 7); [|lia]. apply Hlow.
    apply (labels_perm_uids _ _ _ HpA).
    rewrite !forest_uids_app. apply in_or_app. right. exact H7.
  - intros H7. assert (12 <= 7); [|lia]. apply Hlow.
    rewrite forest_uids_app. apply in_or_app. left. exact H7.
Qed.

(** A module that parses and holds one package: the package, as the
    parser returned it, goes after the packages moved so far. *)
Lemma merge_module_single (m : module_config) (t x : element) K G N lg :
  get_default (m_arxml m) "" <> "" ->
  etree_fromstring (get_default (m_arxml m) "") = inr t ->
  found_packages t = [x] ->
  merge_inv K G N ->
  exists k G' N',
    merge_module 7 m (mk_store N (F K :: G) lg) =
      (inr tt, mk_store N' (F (K ++ [k]) :: G') lg)
    /\ merge_inv (K ++ [k]) G' N'
    /\ same_shape x k.
Proof.
  intros Hne Hparse Hx Hinv.
  destruct (merge_module_parsed project_name ecu_name m t K G N lg
              Hne Hparse Hinv) as (K' & G' & N' & Hrun & Hinv' & _).
  enough (Hshape : exists k G1,
             mk_store N' (F K' :: G') lg = mk_store N' (F (K ++ [k]) :: G1) lg
             /\ same_shape x k).
  { destruct Hshape as (k & G1 & E & Hk). injection E as EK EG. subst K' G'.
    exists k, G1, N'. split; [exact Hrun|]. split; [exact Hinv' | exact Hk]. }
  clear Hinv'. destruct Hinv as (Hnd & Hrange & HN).
  revert Hrun. unfold merge_module.
  rewrite (proj2 (String.eqb_neq _ _) Hne).
  unfold try_except. unfold bind at 1. unfold fromstring at 1.
  rewrite Hparse. cbn [next_uid docs logged].
  destruct (relabel N t) as [t' N1] eqn:Er.
  pose proof (found_packages_shape t N t' N1 Er) as Hshape.
  rewrite Hx in Hshape.
  destruct (found_packages t') as [|x' rest] eqn:Hx';
    inversion Hshape as [|? ? ? ? Hxx Hrest]; subst.
  inversion Hrest; subst. clear Hshape Hrest.
  destruct (relabel_ok_all t _ _ _ Er) as (Hu & Hlt & Hid & Hd & Hdesc).
  assert (Hlook : lookup_forest N ((F K :: G) ++ [t']) = Some t').
  { rewrite lookup_forest_app.
    - rewrite lookup_forest_cons, <- Hid, lookup_root. reflexivity.
    - rewrite forest_uids_cons, merge_frame_uids.
      intros H. apply in_app_or in H as [H | H].
      + apply in_app_or in H as [H | H].
        * apply in_seq in H. lia.
        * assert (12 <= N < N); [|lia]. apply Hrange.
          rewrite forest_uids_app. apply in_or_app. left. exact H.
      + assert (12 <= N < N); [|lia]. apply Hrange.
        rewrite forest_uids_app. apply in_or_app. right. exact H. }
  unfold bind at 1. unfold findall at 1. cbn [docs]. rewrite Hlook.
  unfold bind at 1.
  replace ((if is_empty (map uid_of (findall_desc _ t'))
            then findall N "AR-PACKAGE"
            else ret (map uid_of (findall_desc _ t')))
             (mk_store N1 ((F K :: G) ++ [t']) lg))
    with (@inr exn _ (map uid_of (found_packages t')),
          mk_store N1 ((F K :: G) ++ [t']) lg).
  2:{ rewrite <- found_uids_eq.
      destruct (is_empty _); [|reflexivity].
      unfold findall. cbn [docs]. rewrite Hlook. reflexivity. }
  rewrite Hx'. cbn [app map for_each].
  assert (Hxd : In x' (descendants t')).
  { apply found_packages_descendants. rewrite Hx'. left. reflexivity. }
  assert (Hxu : In (uid_of x') (seq N (N1 - N))).
  { rewrite <- Hu. unfold uids, subtree. right. apply in_map. exact Hxd. }
  destruct (append_fresh_run (uid_of x') K (G ++ [t']) N1 lg)
    as (sub & G1 & Happ & Hsub & Hsu).
  { intros u H. rewrite app_assoc, forest_uids_app in H.
    apply in_app_or in H as [H | H].
    - apply Hrange in H. lia.
    - rewrite forest_uids_cons, Hu in H. cbn [forest_uids flat_map] in H.
      rewrite app_nil_r in H. apply in_seq in H. lia. }
  { rewrite forest_uids_app. apply in_or_app. right.
    rewrite forest_uids_cons, Hu. apply in_or_app. left. exact Hxu. }
  { intros H. apply in_seq in Hxu.
    assert (12 <= uid_of x' < N); [|lia]. apply Hrange.
    rewrite forest_uids_app. apply in_or_app. left. exact H. }
  unfold bind at 1. rewrite Happ. cbv beta iota. cbn [for_each]. unfold ret.
  intros Hrun. injection Hrun as HN' HF HG. subst N' G' K'.
  exists sub, G1. split; [reflexivity|].
  assert (E : sub = x').
  { apply (NoDup_uid_eq (flat_map subtree (G ++ [t']))).
    - rewrite <- forest_uids_subtrees, forest_uids_app.
      apply NoDup_app.
      + rewrite forest_uids_app in Hnd. apply NoDup_app_remove_l in Hnd.
        exact Hnd.
      + rewrite forest_uids_cons, Hu. cbn [forest_uids flat_map].
        rewrite app_nil_r. apply seq_NoDup.
      + intros u H1 H2. rewrite forest_uids_cons, Hu in H2.
        cbn [forest_uids flat_map] in H2. rewrite app_nil_r in H2.
        apply in_seq in H2.
        assert (12 <= u < N); [|lia]. apply Hrange.
        rewrite forest_uids_app. apply in_or_app. right. exact H1.
    - exact Hsub.
    - rewrite flat_map_app. apply in_or_app. right.
      cbn [flat_map]. rewrite app_nil_r. right. exact Hxd.
    - exact Hsu. }
  subst sub. exact Hxx.
Qed.

End MergeSingle.

(** ** Merging what the generators return *)

(** The parser's reading of a written tree reads every descendant. *)
Lemma reads_back_subtrees ns t :
  forall t', reads_back ns t t' = true ->
             Forall2 (fun x x' => reads_back ns x x' = true)
                     (descendants t) (descendants t').
Proof.
  induction t as [u d ch IH] using element_ind'. intros [u' d' ch'].
  cbn [reads_back]. rewrite !andb_true_iff. intros [_ Hall].
  cbn [descendants]. revert ch' Hall.
  induction IH as [|c l Hc _ IHl]; intros [|c' l'] Hall;
    cbn [all2] in Hall; try discriminate.
  - constructor.
  - apply andb_true_iff in Hall as [Hcc Hll]. cbn [flat_map].
    apply Forall2_app.
    + constructor; [exact Hcc | apply Hc; exact Hcc].
    + apply IHl. exact Hll.
Qed.

(** The reading of an element whose first child is a leaf: the first child
    with the leaf's tag, in the namespace, has the leaf's text. *)
Lemma reads_back_first_child ns (x x' : element) u (T v : string) rest :
  reads_back ns x x' = true ->
  children_of x = leaf u T v :: rest ->
  child_text (clark ns T) x' = read_text (Some v).
Proof.
  destruct x as [a d ch], x' as [a' d' ch']. cbn [reads_back children_of].
  rewrite !andb_true_iff. intros [_ Hall] ->.
  destruct ch' as [|c' rest']; cbn [all2] in Hall; [discriminate|].
  apply andb_true_iff in Hall as [Hc _].
  destruct (reads_back_root _ _ _ Hc) as (_ & Ht & Htxt).
  unfold child_text, find_child. cbn [children_of List.find].
  rewrite Ht. change (tag_of (leaf u T v)) with T.
  rewrite String.eqb_refl. exact (Htxt eq_refl).
Qed.

Section MergeGenerated.
Context {ext : Externals}.

(** The package the merge finds in a document the module built, once the
    library has read it back: the reading of its one AR-PACKAGE, with the
    short name it was given. *)
Lemma found_packages_read (doc doc' pkg : element) u (name : string) rest :
  reads_back AUTOSAR_NS doc doc' = true ->
  findall_desc "AR-PACKAGE" doc = [pkg] ->
  children_of pkg = leaf u "SHORT-NAME" name :: rest ->
  exists pkg',
    found_packages doc' = [pkg']
    /\ tag_of pkg' = "{http://autosar.org/schema/r4.0}AR-PACKAGE"
    /\ child_text "{http://autosar.org/schema/r4.0}SHORT-NAME" pkg' =
       read_text (Some name).
Proof.
  intros Hrb Hpkg Hch. unfold found_packages.
  assert (F : Forall2 (fun x x' => reads_back AUTOSAR_NS x x' = true)
                (findall_desc "AR-PACKAGE" doc)
                (findall_desc "{http://autosar.org/schema/r4.0}AR-PACKAGE"
                              doc')).
  { unfold findall_desc.
    apply Forall2_filter; [apply reads_back_subtrees; exact Hrb|].
    intros x y Hxy. destruct (reads_back_root _ _ _ Hxy) as (_ & Hy & _).
    rewrite Hy. symmetry.
    exact (eqb_append_l "{http://autosar.org/schema/r4.0}" (tag_of x)
                        "AR-PACKAGE"). }
  assert (Ht : tag_of pkg = "AR-PACKAGE").
  { assert (Hin : In pkg (findall_desc "AR-PACKAGE" doc))
      by (rewrite Hpkg; left; reflexivity).
    apply filter_In in Hin as [_ Hin]. apply String.eqb_eq. exact Hin. }
  rewrite Hpkg in F.
  destruct (findall_desc "{http://autosar.org/schema/r4.0}AR-PACKAGE" doc')
    as [|y l']; inversion F as [|? ? ? ? Hy Hrest]; subst.
  inversion Hrest; subst. cbn [is_empty].
  exists y. split; [reflexivity|].
  destruct (reads_back_root _ _ _ Hy) as (_ & Hty & _).
  split; [rewrite Hty, Ht; reflexivity|].
  exact (reads_back_first_child AUTOSAR_NS pkg y u "SHORT-NAME" name rest
           Hy Hch).
Qed.

Lemma can_document_package ecu baud n eh wk :
  exists pkg rest,
    findall_desc "AR-PACKAGE" (can_document ecu baud n eh wk) = [pkg]
    /\ children_of pkg = leaf 8 "SHORT-NAME" "CanConfiguration" :: rest.
Proof.
  unfold findall_desc. rewrite can_document_descendants, !filter_app.
  rewrite can_hw_objects_no by reflexivity.
  replace (filter _ (flat_map subtree (can_tail n eh wk)))
    with (@nil element) by (destruct eh, wk; reflexivity).
  eexists _, _. split; reflexivity.
Qed.

Lemma nvm_document_package size strategy n crc red wear :
  exists pkg rest,
    findall_desc "AR-PACKAGE" (nvm_document size strategy n crc red wear) =
      [pkg]
    /\ children_of pkg = leaf 8 "SHORT-NAME" "NvMConfiguration" :: rest.
Proof.
  unfold findall_desc. rewrite nvm_document_descendants, !filter_app.
  rewrite nvm_blocks_findall.
  replace (filter _ (flat_map subtree (nvm_tail crc red n wear)))
    with (@nil element) by (destruct wear; reflexivity).
  replace (flat_map _ (seq 0 n)) with (@nil element).
  2:{ symmetry. induction (seq 0 n) as [|i l IH]; [reflexivity|].
      cbn [flat_map]. rewrite IH, app_nil_r.
      destruct crc, red; reflexivity. }
  eexists _, _. split; reflexivity.
Qed.

Variables (project_name ecu_name : string).

Local Abbreviation F := (merge_frame project_name ecu_name).

(** Merging a module whose text is the serialisation of such a document:
    its package, with its short name, goes after the packages moved so
    far, and nothing is logged. *)
Lemma merge_built_document (doc pkg : element) u (name : string) rest
    (ty : option string) K G N lg :
  parses_back doc ->
  default_namespace doc = AUTOSAR_NS ->
  etree_tostring doc <> "" ->
  findall_desc "AR-PACKAGE" doc = [pkg] ->
  children_of pkg = leaf u "SHORT-NAME" name :: rest ->
  merge_inv K G N ->
  exists k G' N',
    merge_module 7 (mk_module ty (Some (etree_tostring doc)))
                 (mk_store N (F K :: G) lg) =
      (inr tt, mk_store N' (F (K ++ [k]) :: G') lg)
    /\ merge_inv (K ++ [k]) G' N'
    /\ tag_of k = "{http://autosar.org/schema/r4.0}AR-PACKAGE"
    /\ child_text "{http://autosar.org/schema/r4.0}SHORT-NAME" k =
       read_text (Some name).
Proof.
  intros (doc' & Hp & Hrb & _) Hns Hne Hpkg Hch Hinv. rewrite Hns in Hrb.
  destruct (found_packages_read doc doc' pkg u name rest Hrb Hpkg Hch)
    as (pkg' & Hfound & Htag & Hname).
  destruct (merge_module_single project_name ecu_name
              (mk_module ty (Some (etree_tostring doc))) doc' pkg' K G N lg
              Hne Hp Hfound Hinv)
    as (k & G' & N' & Hrun & Hinv' & Hshape).
  exists k, G', N'. split; [exact Hrun|]. split; [exact Hinv'|]. split.
  - unfold tag_of. rewrite <- (same_shape_data _ _ Hshape). exact Htag.
  - rewrite <- (same_shape_child_text _ _ _ Hshape). exact Hname.
Qed.

End MergeGenerated.

(** X13.  The generators compose with the merge: when lxml accepts the
    ecuType, the project name and the ECU name as texts, and the library
    reads back what it wrote and writes no empty text, merging the CAN
    and the NvM configuration returned by the generators logs no warning
    and gives the project package, after its short name and its ELEMENTS,
    exactly two more children, in the order of the modules: first the
    package with the short name CanConfiguration, then the package with
    the short name NvMConfiguration. *)
Theorem merge_generated_configurations {ext : Externals}
    (cp : can_params) (np : nvm_params) (ecu strategy : string)
    (baud n m size : Z) (project_name ecu_name : string) :
  ecuType cp = Some ecu -> baudrate cp = Some baud ->
  messageObjects cp = Some n ->
  xml_compatible ecu = true ->
  xml_compatible project_name = true ->
  xml_compatible ecu_name = true ->
  blockCount np = Some m -> blockSize np = Some size ->
  writeStrategy np = Some strategy ->
  exists can_doc nvm_doc s1 s2,
    generate_can_config cp new_store = (inr (etree_tostring can_doc), s1)
    /\ docs s1 = [can_doc]
    /\ generate_nvm_config np new_store = (inr (etree_tostring nvm_doc), s2)
    /\ docs s2 = [nvm_doc]
    /\ (parses_back can_doc -> parses_back nvm_doc ->
        etree_tostring can_doc <> "" -> etree_tostring nvm_doc <> "" ->
        exists k1 k2 s,
          merge_configurations
            [ mk_module (Some "CAN") (Some (etree_tostring can_doc));
              mk_module (Some "NvM") (Some (etree_tostring nvm_doc)) ]
            project_name ecu_name new_store =
            (inr (etree_tostring
                    (merge_frame project_name ecu_name [k1; k2])), s)
          /\ map tag_of [k1; k2] =
             [ "{http://autosar.org/schema/r4.0}AR-PACKAGE";
               "{http://autosar.org/schema/r4.0}AR-PACKAGE" ]
          /\ map (child_text "{http://autosar.org/schema/r4.0}SHORT-NAME")
                 [k1; k2] =
             [ Some "CanConfiguration"; Some "NvMConfiguration" ]
          /\ logged s =
             [(INFO, ("Merging 2 modules for project " ++ project_name)%string)]).
Proof.
  intros He Hb Hn Hecu Hproject Hname Hm Hs Hw.
  pose proof (generate_can_config_run ecu baud Hecu cp n He Hb Hn) as Hcan.
  pose proof (generate_nvm_config_run size strategy np Hs Hw m Hm) as Hnvm.
  cbv zeta in Hcan, Hnvm.
  eexists _, _, _, _. split; [exact Hcan|]. split; [reflexivity|].
  split; [exact Hnvm|]. split; [reflexivity|].
  intros Hpc Hpn Hnc Hnn.
  destruct (can_document_package ecu baud (Z.to_nat n)
              (get_default (errorHandling cp) true)
              (get_default (wakeupSupport cp) false))
    as (pc & rc & Hpkc & Hchc).
  destruct (nvm_document_package size strategy (Z.to_nat m)
              (get_default (crcProtection np) true)
              (get_default (redundancy np) false)
              (get_default (wearLeveling np) true))
    as (pn & rn & Hpkn & Hchn).
  unfold merge_configurations.
  unfold new_store, create_root, add_admin_data, create_ar_package.
  run_prefix.
  match goal with
  | |- context [mk_store 12 [?T] ?lg] =>
      change T with (merge_frame project_name ecu_name [])
  end.
  match goal with
  | |- context [mk_store 12 _ ?lg0] => set (lg := lg0)
  end.
  assert (Hinv0 : merge_inv [] [] 12)
    by (split; [constructor | split; [intros u [] | lia]]).
  destruct (merge_built_document project_name ecu_name _ pc 8
              "CanConfiguration" rc (Some "CAN") [] [] 12 lg
              Hpc eq_refl Hnc Hpkc Hchc Hinv0)
    as (k1 & G1 & N1 & Hrun1 & Hinv1 & Ht1 & Hn1).
  destruct (merge_built_document project_name ecu_name _ pn 8
              "NvMConfiguration" rn (Some "NvM") ([] ++ [k1]) G1 N1 lg
              Hpn eq_refl Hnn Hpkn Hchn Hinv1)
    as (k2 & G2 & N2 & Hrun2 & _ & Ht2 & Hn2).
  cbn [app] in Hrun1, Hrun2.
  exists k1, k2. eexists.
  unfold bind at 1. rewrite for_each_cons. unfold bind at 1. rewrite Hrun1.
  rewrite for_each_cons. unfold bind at 1. rewrite Hrun2.
  split; [reflexivity|].
  split; [cbn [map]; rewrite Ht1, Ht2; reflexivity|].
  split; [cbn [map]; rewrite Hn1, Hn2; reflexivity|].
  reflexivity.
Qed.

Lemma merge_generated_configurations_witness :
  exists k1 k2 s,
    @merge_configurations RefXml.externals
      [ mk_module (Some "CAN") (Some can_text_example);
        mk_module (Some "NvM") (Some nvm_text_example) ]
      "Proj" "ECU1" new_store =
      (inr (RefXml.tostring
              (@merge_frame RefXml.externals "Proj" "ECU1" [k1; k2])), s)
    /\ map tag_of [k1; k2] =
       [ "{http://autosar.org/schema/r4.0}AR-PACKAGE";
         "{http://autosar.org/schema/r4.0}AR-PACKAGE" ]
    /\ map (child_text "{http://autosar.org/schema/r4.0}SHORT-NAME")
           [k1; k2] =
       [ Some "CanConfiguration"; Some "NvMConfiguration" ]
    /\ logged s = [(INFO, "Merging 2 modules for project Proj")].
Proof.
  destruct (@merge_generated_configurations RefXml.externals
              can_params_example nvm_params_example "powertrain" "immediate"
              500%Z 2%Z 3%Z 16%Z "Proj" "ECU1"
              eq_refl eq_refl eq_refl eq_refl eq_refl eq_refl
              eq_refl eq_refl eq_refl)
    as (cd & nd & s1 & s2 & Hc & Hdc & Hn & Hdn & Hmerge).
  assert (Hs1 : s1 = snd can_output_example).
  { unfold can_output_example. rewrite Hc. reflexivity. }
  assert (Hs2 : s2 = snd nvm_output_example).
  { unfold nvm_output_example. rewrite Hn. reflexivity. }
  assert (Dc : [cd] = docs (snd can_output_example)).
  { rewrite <- Hs1, Hdc. reflexivity. }
  assert (Dn : [nd] = docs (snd nvm_output_example)).
  { rewrite <- Hs2, Hdn. reflexivity. }
  vm_compute in Dc. injection Dc as Dc. subst cd.
  vm_compute in Dn. injection Dn as Dn. subst nd.
  apply Hmerge.
  - eexists. split; [vm_compute; reflexivity|]. split; vm_compute; reflexivity.
  - eexists. split; [vm_compute; reflexivity|]. split; vm_compute; reflexivity.
  - intros H. vm_compute in H. discriminate H.
  - intros H. vm_compute in H. discriminate H.
Defined.

(* ===================================================================== *)
(** * What every document of the module starts with *)
(* ===================================================================== *)





(* ===================================================================== *)
(** * ARXMLGenerator: the root and the administrative block *)
(* ===================================================================== *)

(** X15.  For every version string the generator is made, and its root
    is a new tree in the store, without children, in the AUTOSAR
    namespace; the schema location names the file of the version table,
    and the file of 4.2.2 for a version the table does not have, while the
    generator keeps the version it was given.  Nothing else in the store
    changes. *)
Theorem create_root_schema_location (autosar_version : string) (s : store) :
  exists file root,
    (In (autosar_version, file) SCHEMA_LOCATIONS
     \/ (~ In autosar_version (map fst SCHEMA_LOCATIONS)
         /\ file = "AUTOSAR_4-2-2.xsd"))
    /\ version (ARXMLGenerator_init autosar_version) = autosar_version
    /\ create_root (ARXMLGenerator_init autosar_version) s =
       (inr (next_uid s),
        mk_store (S (next_uid s)) (docs s ++ [root]) (logged s))
    /\ root =
       Elem (next_uid s)
         (mk_edata "AUTOSAR"
            [ (None, "http://autosar.org/schema/r4.0");
              (Some "xsi", "http://www.w3.org/2001/XMLSchema-instance") ]
            [ ("{http://www.w3.org/2001/XMLSchema-instance}schemaLocation",
               ("http://autosar.org/schema/r4.0 " ++ file)%string) ]
            None) [].
Proof.
  exists (schema_location (ARXMLGenerator_init autosar_version)).
  eexists. split; [|split; [reflexivity|split; reflexivity]].
  unfold ARXMLGenerator_init, SCHEMA_LOCATIONS.
  cbn [schema_location Py.dict_get map fst In].
  destruct (String.eqb_spec "4.0.3" autosar_version) as [<-|H1];
    [left; left; reflexivity|].
  destruct (String.eqb_spec "4.2.2" autosar_version) as [<-|H2];
    [left; right; left; reflexivity|].
  destruct (String.eqb_spec "4.3.1" autosar_version) as [<-|H3];
    [left; right; right; left; reflexivity|].
  destruct (String.eqb_spec "4.4.0" autosar_version) as [<-|H4];
    [left; right; right; right; left; reflexivity|].
  right. split; [|reflexivity]. intuition congruence.
Qed.

(** Scenario: the newest version of the table, and a version it lacks. *)
Example create_root_versions :
  map (fun v => schema_location (ARXMLGenerator_init v))
      ["4.0.3"; "4.2.2"; "4.3.1"; "4.4.0"; "4.5.0"; ""] =
  ["AUTOSAR_4-0-3.xsd"; "AUTOSAR_4-2-2.xsd"; "AUTOSAR_00048.xsd";
   "AUTOSAR_00050.xsd"; "AUTOSAR_4-2-2.xsd"; "AUTOSAR_4-2-2.xsd"].
Proof. reflexivity. Qed.

(** Decide the comparisons of identities that arithmetic settles. *)
Ltac uid_cmp :=
  repeat match goal with
         | |- context [(?a =? ?b)%nat] =>
             first [ replace (a =? b)%nat with true
                       by (symmetry; apply Nat.eqb_eq; lia)
                   | replace (a =? b)%nat with false
                       by (symmetry; apply Nat.eqb_neq; lia) ]
         end.

(** One [SubElement] on any store: what it returns and what it changes. *)
Lemma SubElement_step (s : store) (p : nat) (t : string)
    (txt : option string) :
  text_ok txt -> store_ok s -> present s p ->
  exists s',
    SubElement p t txt s = (inr (next_uid s), s')
    /\ next_uid s' = S (next_uid s)
    /\ logged s' = logged s
    /\ store_ok s'
    /\ present s' (next_uid s)
    /\ (forall q, present s q -> present s' q)
    /\ (forall q T, present s q ->
          child_ids s' q T =
          child_ids s q T
          ++ (if (q =? p)%nat && String.eqb t T then [next_uid s] else []))
    /\ (forall q T, present s q ->
          child_texts s' q T =
          child_texts s q T
          ++ (if (q =? p)%nat && String.eqb t T then [txt] else []))
    /\ (forall T, child_ids s' (next_uid s) T = [])
    /\ (forall T, child_texts s' (next_uid s) T = []).
Proof.
  intros Htxt Hok Hp. exists (with_child s p t txt).
  destruct (SubElement_new s p t txt Hok Hp) as [Hnew Hkids].
  split; [apply SubElement_accepted; exact Htxt|].
  split; [reflexivity|]. split; [reflexivity|].
  split; [apply SubElement_ok; exact Hok|]. split; [exact Hnew|].
  split; [apply SubElement_present|].
  split; [intros q T; apply SubElement_child_ids; exact Hok|].
  split; [intros q T; apply SubElement_child_texts; exact Hok|].
  split; intros T; unfold child_ids, child_texts; rewrite Hkids; reflexivity.
Qed.

(** X16.  On any store and under any element of it, when lxml accepts the
    revision label as a text, [add_admin_data] appends one new ADMIN-DATA
    block after the children the element has, ADMIN-DATA blocks of earlier
    calls included, and returns it; the block holds DOC-REVISIONS,
    DOC-REVISION, and in it the revision label given and the time of the
    clock.  No other list of children changes. *)
Theorem add_admin_data_appends {ext : Externals} (self : ARXMLGenerator)
    (parent : nat) (doc_revision : string) (s : store) :
  xml_compatible doc_revision = true ->
  store_ok s -> present s parent ->
  exists a s1,
    add_admin_data self parent doc_revision s = (inr a, s1)
    /\ a = next_uid s
    /\ next_uid s1 = 5 + next_uid s
    /\ store_ok s1
    /\ (forall q, present s q -> present s1 q)
    /\ child_ids s1 parent "ADMIN-DATA" =
       child_ids s parent "ADMIN-DATA" ++ [a]
    /\ (forall q T, present s q -> q <> parent \/ T <> "ADMIN-DATA" ->
                    child_ids s1 q T = child_ids s q T)
    /\ child_ids s1 a "DOC-REVISIONS" = [1 + a]
    /\ child_ids s1 (1 + a) "DOC-REVISION" = [2 + a]
    /\ child_texts s1 (2 + a) "REVISION-LABEL" = [Some doc_revision]
    /\ child_texts s1 (2 + a) "DATE" = [Some utcnow_strftime].
Proof.
  intros Hrev Hok Hp. unfold add_admin_data.
  assert (Hdate : xml_compatible utcnow_strftime = true)
    by (apply plain_compatible, plain_strftime).
  destruct (SubElement_step s parent "ADMIN-DATA" None I Hok Hp)
    as (s1 & R1 & N1 & _ & Ok1 & New1 & P1 & I1 & T1 & NI1 & NT1).
  destruct (SubElement_step s1 (next_uid s) "DOC-REVISIONS" None I Ok1 New1)
    as (s2 & R2 & N2 & _ & Ok2 & New2 & P2 & I2 & T2 & NI2 & NT2).
  destruct (SubElement_step s2 (next_uid s1) "DOC-REVISION" None I Ok2 New2)
    as (s3 & R3 & N3 & _ & Ok3 & New3 & P3 & I3 & T3 & NI3 & NT3).
  destruct (SubElement_step s3 (next_uid s2) "REVISION-LABEL"
              (Some doc_revision) Hrev Ok3 New3)
    as (s4 & R4 & N4 & _ & Ok4 & New4 & P4 & I4 & T4 & NI4 & NT4).
  destruct (SubElement_step s4 (next_uid s2) "DATE" (Some utcnow_strftime)
              Hdate Ok4 (P4 _ New3))
    as (s5 & R5 & N5 & _ & Ok5 & New5 & P5 & I5 & T5 & NI5 & NT5).
  exists (next_uid s), s5.
  rewrite (bind_run _ _ _ _ _ R1), (bind_run _ _ _ _ _ R2),
    (bind_run _ _ _ _ _ R3), (bind_run _ _ _ _ _ R4),
    (bind_run _ _ _ _ _ R5).
  assert (E1 : next_uid s1 = 1 + next_uid s) by lia.
  assert (E2 : next_uid s2 = 2 + next_uid s) by lia.
  assert (Hfresh : forall q, present s q -> q < next_uid s)
    by (intros q Hq; apply Hok; exact Hq).
  split; [reflexivity|]. split; [reflexivity|]. split; [lia|].
  split; [exact Ok5|].
  split; [intros q Hq; apply P5, P4, P3, P2, P1; exact Hq|].
  rewrite E1, E2 in *.
  split.
  { pose proof (Hfresh parent Hp) as Hlt.
    rewrite I5, I4, I3, I2, I1
      by (try apply P4; try apply P3; try apply P2; try apply P1; exact Hp).
    uid_cmp. cbn [andb String.eqb Ascii.eqb Bool.eqb].
    rewrite !app_nil_r. reflexivity. }
  split.
  { intros q T Hq Hne. pose proof (Hfresh q Hq) as Hlt.
    rewrite I5, I4, I3, I2, I1
      by (try apply P4; try apply P3; try apply P2; try apply P1; exact Hq).
    uid_cmp. cbn [andb]. rewrite !app_nil_r.
    destruct (Nat.eqb_spec q parent) as [Eq | Eq]; [|apply app_nil_r].
    destruct (String.eqb_spec "ADMIN-DATA" T) as [ET | ET];
      [|apply app_nil_r].
    exfalso. destruct Hne as [Hne | Hne]; [exact (Hne Eq)|].
    apply Hne. symmetry. exact ET. }
  split.
  { rewrite I5, I4, I3, I2 by (try apply P4; try apply P3; try apply P2;
                               exact New1).
    rewrite NI1. uid_cmp. reflexivity. }
  split.
  { rewrite I5, I4, I3 by (try apply P4; try apply P3; exact New2).
    rewrite NI2. uid_cmp. reflexivity. }
  split.
  { rewrite T5, T4 by (try apply P4; exact New3).
    rewrite NT3. uid_cmp. reflexivity. }
  { rewrite T5, T4 by (try apply P4; exact New3).
    rewrite NT3. uid_cmp. reflexivity. }
Qed.

(** A store whose root already has an administrative block. *)
Definition admin_data_store : store :=
  snd (@add_admin_data RefXml.externals (ARXMLGenerator_init "4.2.2") 0
         "1.0.0" root_only_store).

Lemma admin_data_store_ok : store_ok admin_data_store.
Proof.
  intros u H. vm_compute in H.
  repeat (destruct H as [<- | H]; [vm_compute; lia|]). contradiction.
Qed.

Lemma add_admin_data_appends_witness :
  exists a s1,
    @add_admin_data RefXml.externals (ARXMLGenerator_init "4.2.2") 0 "2.0.0"
      admin_data_store = (inr a, s1)
    /\ child_ids s1 0 "ADMIN-DATA" = [1; 6]
    /\ child_texts s1 (2 + a) "REVISION-LABEL" = [Some "2.0.0"].
Proof.
  destruct (@add_admin_data_appends RefXml.externals
              (ARXMLGenerator_init "4.2.2") 0 "2.0.0" admin_data_store
              eq_refl admin_data_store_ok (or_introl eq_refl))
    as (a & s1 & Hrun & Ha & _ & _ & _ & Hids & _ & _ & _ & Hlabel & _).
  exists a, s1. split; [exact Hrun|]. split; [|exact Hlabel].
  rewrite Hids, Ha. reflexivity.
Defined.

(* ===================================================================== *)
(** * The HTTP endpoints (server/app.py) *)
(* ===================================================================== *)

(** The endpoints are modelled from the parsed request on: the argument of
    an endpoint is the JSON object [request.get_json()] returns, with the
    fields of the tool's input schema, each present or absent; the result
    is the pair [jsonify(...), status] the view returns.  The lxml trees
    and the log of the utilities live in the store as before; the
    application has a logger of its own. *)

Local Open Scope string_scope.

(** What the application takes from outside: the clock in ISO format
    ([datetime.utcnow().isoformat()]), the text of a traceback
    ([traceback.format_exc()]), and the rendering of a request object in
    a log line ([f"{params}"]). *)
Class AppExternals : Type := {
  utcnow_isoformat : string;
  format_exc : exn -> string;
  can_params_repr : can_params -> string;
  nvm_params_repr : nvm_params -> string
}.

(** Log records of the application's [logger]. *)
Inductive app_level : Type := APP_INFO | APP_ERROR.

(** The state of the server: the store of the utilities and what the
    application has logged. *)
Record server : Type := mk_server {
  heap : store;
  app_logged : list (app_level * string)
}.

Definition app_log (lvl : app_level) (msg : string) (st : server) : server :=
  mk_server (heap st) (app_logged st ++ [(lvl, msg)]).

(** What a view returns: a body with status 200, [{"error": ...}] with
    status 400, or [{"error": ..., "traceback": ...}] with status 500
    (two of the views send no traceback). *)
Inductive response (B : Type) : Type :=
| Response200 (body : B)
| Response400 (error : string)
| Response500 (error : string) (traceback : option string).

Arguments Response200 {B} body.
Arguments Response400 {B} error.
Arguments Response500 {B} error traceback.

Definition status_code {B : Type} (r : response B) : Z :=
  match r with
  | Response200 _ => 200
  | Response400 _ => 400
  | Response500 _ _ => 500
  end.

(** The body of a successful generation. *)
Record generation_body (P : Type) : Type := mk_generation_body {
  g_success : bool;
  g_module : string;
  g_arxml : string;
  g_parameters : P;
  g_timestamp : string
}.

Arguments mk_generation_body {P}.
Arguments g_success {P}.
Arguments g_module {P}.
Arguments g_arxml {P}.
Arguments g_parameters {P}.
Arguments g_timestamp {P}.

(** [for field in required: if field not in params: return ...]: the
    first required field the object lacks. *)
Fixpoint first_absent (has_key : string -> bool) (required : list string)
  : option string :=
  match required with
  | [] => None
  | field :: rest =>
      if has_key field then first_absent has_key rest else Some field
  end.

Definition is_some {A : Type} (o : option A) : bool :=
  match o with Some _ => true | None => false end.

(** [field in params] for the two request objects. *)
Definition can_has_key (params : can_params) (field : string) : bool :=
  if String.eqb field "ecuType" then is_some (ecuType params)
  else if String.eqb field "baudrate" then is_some (baudrate params)
  else if String.eqb field "messageObjects"
       then is_some (messageObjects params)
  else if String.eqb field "errorHandling"
       then is_some (errorHandling params)
  else if String.eqb field "wakeupSupport"
       then is_some (wakeupSupport params)
  else false.

Definition nvm_has_key (params : nvm_params) (field : string) : bool :=
  if String.eqb field "blockCount" then is_some (blockCount params)
  else if String.eqb field "blockSize" then is_some (blockSize params)
  else if String.eqb field "writeStrategy"
       then is_some (writeStrategy params)
  else if String.eqb field "crcProtection"
       then is_some (crcProtection params)
  else if String.eqb field "redundancy" then is_some (redundancy params)
  else if String.eqb field "wearLeveling"
       then is_some (wearLeveling params)
  else false.

(** [params.setdefault(key, default)] for an optional field. *)
Definition setdefault {A : Type} (field : option A) (default : A)
  : option A :=
  match field with
  | Some v => Some v
  | None => Some default
  end.

(** The two [setdefault] calls of the CAN view, and the three of the NvM
    view. *)
Definition can_set_defaults (params : can_params) : can_params :=
  mk_can_params (ecuType params) (baudrate params) (messageObjects params)
                (setdefault (errorHandling params) true)
                (setdefault (wakeupSupport params) false).

Definition nvm_set_defaults (params : nvm_params) : nvm_params :=
  mk_nvm_params (blockCount params) (blockSize params) (writeStrategy params)
                (setdefault (crcProtection params) true)
                (setdefault (redundancy params) false)
                (setdefault (wearLeveling params) true).

Section Endpoints.
Context {ext : Externals} {app : AppExternals}.

(** [generate_can_config_endpoint]. *)
Definition generate_can_config_endpoint (params : can_params) (st : server)
  : response (generation_body can_params) * server :=
  let st :=
    app_log APP_INFO
      ("Generating CAN config with params: " ++ can_params_repr params) st in
  (* Validate required parameters *)
  match first_absent (can_has_key params)
                     ["ecuType"; "baudrate"; "messageObjects"] with
  | Some field => (Response400 ("Missing required field: " ++ field), st)
  | None =>
      (* Set defaults for optional parameters *)
      let params := can_set_defaults params in
      (* Generate configuration *)
      match generate_can_config params (heap st) with
      | (inr arxml_content, h) =>
          (Response200
             (mk_generation_body true "CAN" arxml_content params
                                 utcnow_isoformat),
           mk_server h (app_logged st))
      | (inl e, h) =>
          (Response500 (exn_str e) (Some (format_exc e)),
           mk_server h
             (app_logged st
              ++ [ (APP_ERROR, "Error generating CAN config: " ++ exn_str e);
                   (APP_ERROR, format_exc e) ]))
      end
  end.

(** [generate_nvm_config_endpoint]. *)
Definition generate_nvm_config_endpoint (params : nvm_params) (st : server)
  : response (generation_body nvm_params) * server :=
  let st :=
    app_log APP_INFO
      ("Generating NvM config with params: " ++ nvm_params_repr params) st in
  (* Validate required parameters *)
  match first_absent (nvm_has_key params)
                     ["blockCount"; "blockSize"; "writeStrategy"] with
  | Some field => (Response400 ("Missing required field: " ++ field), st)
  | None =>
      (* Set defaults for optional parameters *)
      let params := nvm_set_defaults params in
      (* Generate configuration *)
      match generate_nvm_config params (heap st) with
      | (inr arxml_content, h) =>
          (Response200
             (mk_generation_body true "NvM" arxml_content params
                                 utcnow_isoformat),
           mk_server h (app_logged st))
      | (inl e, h) =>
          (Response500 (exn_str e) (Some (format_exc e)),
           mk_server h
             (app_logged st
              ++ [ (APP_ERROR, "Error generating NvM config: " ++ exn_str e);
                   (APP_ERROR, format_exc e) ]))
      end
  end.

(** The request object of the validateConfig tool. *)
Record validate_request : Type := mk_validate_request {
  arxmlContent : option string;
  autosarVersion : option string
}.

Record validation_body : Type := mk_validation_body {
  v_success : bool;
  v_validation : report;
  v_timestamp : string
}.

(** [validate_config_endpoint]. *)
Definition validate_config_endpoint (params : validate_request) (st : server)
  : response validation_body * server :=
  let st := app_log APP_INFO "Validating ARXML configuration" st in
  let arxml_content := get_default (arxmlContent params) "" in
  let autosar_version := get_default (autosarVersion params) "4.2.2" in
  match validate_arxml arxml_content autosar_version with
  | inr validation_result =>
      (Response200
         (mk_validation_body true validation_result utcnow_isoformat), st)
  | inl e =>
      (Response500 (exn_str e) None,
       app_log APP_ERROR ("Error validating config: " ++ exn_str e) st)
  end.

(** The request object of the exportArxml tool. *)
Record export_request : Type := mk_export_request {
  modules : option (list module_config);
  projectName : option string;
  ecuName : option string
}.

Record export_body : Type := mk_export_body {
  x_success : bool;
  x_arxml : string;
  x_projectName : string;
  x_ecuName : string;
  x_moduleCount : nat;
  x_timestamp : string
}.

(** [str(params.get('projectName'))] in the log line. *)
Definition str_or_None (o : option string) : string :=
  match o with Some s => s | None => "None" end.

(** [export_arxml_endpoint]. *)
Definition export_arxml_endpoint (params : export_request) (st : server)
  : response export_body * server :=
  let st :=
    app_log APP_INFO
      ("Exporting ARXML for project: " ++ str_or_None (projectName params))
      st in
  let modules := get_default (modules params) [] in
  let project_name := get_default (projectName params) "AutosarProject" in
  let ecu_name := get_default (ecuName params) "ECU" in
  match merge_configurations modules project_name ecu_name (heap st) with
  | (inr merged_arxml, h) =>
      (Response200
         (mk_export_body true merged_arxml project_name ecu_name
                         (length modules) utcnow_isoformat),
       mk_server h (app_logged st))
  | (inl e, h) =>
      (Response500 (exn_str e) None,
       mk_server h
         (app_logged st
          ++ [(APP_ERROR, "Error exporting ARXML: " ++ exn_str e)]))
  end.

End Endpoints.

Local Open Scope list_scope.

(** ** Computations that cannot raise *)

(** [returns m]: on every state, [m] ends with a result. *)
Definition returns {S A : Type} (m : comp S A) : Prop :=
  forall s, exists a s', m s = (inr a, s').

Lemma returns_ret {S A : Type} (a : A) : returns (@ret S A a).
Proof. intros s. eexists _, _. reflexivity. Qed.

Lemma returns_bind {S A B : Type} (m : comp S A) (k : A -> comp S B) :
  returns m -> (forall a, returns (k a)) -> returns (bind m k).
Proof.
  intros Hm Hk s. destruct (Hm s) as (a & s' & E).
  unfold bind. rewrite E. apply Hk.
Qed.

Lemma returns_when {S : Type} (c : bool) (body : comp S unit) :
  returns body -> returns (when c body).
Proof. intros H. destruct c; [exact H | apply returns_ret]. Qed.

Lemma returns_for_each {S A : Type} (l : list A) (body : A -> comp S unit) :
  (forall x, returns (body x)) -> returns (for_each l body).
Proof.
  intros H. induction l as [|x l IH]; [apply returns_ret|].
  cbn [for_each]. apply returns_bind; [apply H | intros _; exact IH].
Qed.

Lemma returns_try_except {S A : Type} (body : comp S A)
    (handler : exn -> comp S A) :
  (forall e, returns (handler e)) -> returns (try_except body handler).
Proof.
  intros H s. unfold try_except.
  destruct (body s) as [[e | a] s']; [apply H | eexists _, _; reflexivity].
Qed.

Lemma returns_item {S A : Type} (key : string) (v : A) :
  returns (@item S A key (Some v)).
Proof. apply returns_ret. Qed.

(** Reading a key that is there passes its value on. *)
Lemma returns_bind_item {S A B : Type} (key : string) (v : A)
    (k : A -> comp S B) :
  returns (k v) -> returns (bind (item key (Some v)) k).
Proof. intros H s. exact (H s). Qed.

Lemma returns_SubElement p t txt : text_ok txt -> returns (SubElement p t txt).
Proof.
  intros H s. eexists _, _. apply SubElement_accepted. exact H.
Qed.

Lemma returns_Element t ns at_ : returns (Element t ns at_).
Proof. intros s. eexists _, _. reflexivity. Qed.

Lemma returns_log_info msg : returns (log_info msg).
Proof. intros s. eexists _, _. reflexivity. Qed.

Lemma returns_log_warning msg : returns (log_warning msg).
Proof. intros s. eexists _, _. reflexivity. Qed.

Lemma returns_find p t : returns (find p t).
Proof. intros s. eexists _, _. reflexivity. Qed.

Lemma returns_findall p t : returns (findall p t).
Proof. intros s. eexists _, _. reflexivity. Qed.

Lemma returns_append p c : returns (append p c).
Proof.
  intros s. unfold append.
  destruct (extract_forest c (docs s)) as [[sub rest]|];
    eexists _, _; reflexivity.
Qed.

Lemma returns_to_string {ext : Externals} g root : returns (to_string g root).
Proof. intros s. eexists _, _. reflexivity. Qed.

(** Take a computation apart into steps that return. *)
Ltac returns_step :=
  cbv beta;
  lazymatch goal with
  | |- returns (bind (item _ (Some _)) _) => apply returns_bind_item
  | |- returns (bind _ _) => apply returns_bind; [|intros ?]
  | |- returns (ret _) => apply returns_ret
  | |- returns (item _ (Some _)) => apply returns_item
  | |- returns (SubElement _ _ _) => apply returns_SubElement; text_accepted
  | |- returns (Element _ _ _) => apply returns_Element
  | |- returns (log_info _) => apply returns_log_info
  | |- returns (log_warning _) => apply returns_log_warning
  | |- returns (find _ _) => apply returns_find
  | |- returns (findall _ _) => apply returns_findall
  | |- returns (append _ _) => apply returns_append
  | |- returns (to_string _ _) => apply returns_to_string
  | |- returns (when _ _) => apply returns_when
  | |- returns (for_each _ _) => apply returns_for_each; intros ?
  | |- returns (try_except _ _) => apply returns_try_except; intros ?
  end.

Ltac returns_steps := repeat returns_step.

(** ** Computations that raise *)

(** [raises m e]: on every state, [m] ends with the exception [e]. *)
Definition raises {S A : Type} (m : comp S A) (e : exn) : Prop :=
  forall s, exists s', m s = (inl e, s').

Lemma raises_bind_l {S A B : Type} (m : comp S A) (k : A -> comp S B) e :
  raises m e -> raises (bind m k) e.
Proof.
  intros Hm s. destruct (Hm s) as (s' & E). exists s'.
  unfold bind. rewrite E. reflexivity.
Qed.

Lemma raises_bind_r {S A B : Type} (m : comp S A) (k : A -> comp S B) e :
  returns m -> (forall a, raises (k a) e) -> raises (bind m k) e.
Proof.
  intros Hm Hk s. destruct (Hm s) as (a & s' & E).
  unfold bind. rewrite E. apply Hk.
Qed.


Lemma raises_SubElement p t v e :
  lxml_utf8 v = inl e -> raises (SubElement p t (Some v)) e.
Proof.
  intros H s. eexists. apply SubElement_refused. exact H.
Qed.

Section Returns.
Context {ext : Externals}.

Lemma returns_create_root g : returns (create_root g).
Proof. apply returns_Element. Qed.

Lemma returns_add_admin_data g parent rev :
  xml_compatible rev = true -> returns (add_admin_data g parent rev).
Proof. intros Hrev. unfold add_admin_data. returns_steps. Qed.

Lemma returns_create_ar_package g parent name :
  xml_compatible name = true -> returns (create_ar_package g parent name).
Proof.
  intros Hname. unfold create_ar_package.
  apply returns_bind; [apply returns_find | intros found].
  apply returns_bind; [destruct found; returns_steps | intros a].
  returns_steps.
Qed.

(** A short name that lxml refuses makes [create_ar_package] raise lxml's
    error. *)
Lemma raises_create_ar_package g parent name e :
  lxml_utf8 name = inl e -> raises (create_ar_package g parent name) e.
Proof.
  intros Hname. unfold create_ar_package.
  apply raises_bind_r; [apply returns_find | intros found].
  apply raises_bind_r; [destruct found; returns_steps | intros a].
  apply raises_bind_r; [returns_steps | intros b].
  apply raises_bind_l, raises_SubElement. exact Hname.
Qed.



(** With its three required keys, the NvM generator returns on any
    store: every text it assigns is made of digits and fixed words. *)
Lemma generate_nvm_config_returns (p : nvm_params) :
  nvm_first_missing p = None -> returns (generate_nvm_config p).
Proof.
  unfold nvm_first_missing. intros H.
  destruct (blockCount p) as [n|] eqn:Hn; [|discriminate].
  destruct (blockSize p) as [size|] eqn:Hs; [|discriminate].
  destruct (writeStrategy p) as [strategy|] eqn:Hw; [|discriminate].
  unfold generate_nvm_config. rewrite Hn, Hs.
  apply returns_bind_item. apply returns_bind_item.
  apply returns_bind; [apply returns_log_info | intros ?].
  apply returns_bind; [apply returns_create_root | intros ?].
  apply returns_bind; [apply returns_add_admin_data; reflexivity | intros ?].
  apply returns_bind; [apply returns_create_ar_package; reflexivity | intros ?].
  unfold nvm_block. rewrite Hs, Hw. returns_steps.
Qed.

(** The loop of the merge returns on any store, whatever the modules
    are. *)
Lemma merge_modules_returns modules ecu_package :
  returns (for_each modules (merge_module ecu_package)).
Proof.
  apply returns_for_each. intros m. unfold merge_module.
  destruct (String.eqb _ ""); returns_steps.
Qed.

(** The merge returns on any store when lxml accepts the two names. *)
Lemma merge_configurations_returns modules project_name ecu_name :
  xml_compatible project_name = true ->
  xml_compatible ecu_name = true ->
  returns (merge_configurations modules project_name ecu_name).
Proof.
  intros Hproject Hecu. unfold merge_configurations.
  apply returns_bind; [apply returns_log_info | intros ?].
  apply returns_bind; [apply returns_create_root | intros ?].
  apply returns_bind; [apply returns_add_admin_data; reflexivity | intros ?].
  apply returns_bind;
    [apply returns_create_ar_package; exact Hproject | intros ?].
  apply returns_bind; [returns_steps | intros ?].
  apply returns_bind; [returns_steps | intros ?].
  apply returns_bind; [returns_steps | intros ?].
  apply returns_bind; [|intros ?; apply returns_to_string].
  apply merge_modules_returns.
Qed.

(** It raises lxml's error for a project name that lxml refuses, and,
    the project name accepted, for an ECU name that it refuses. *)
Lemma merge_configurations_raises_project modules project_name ecu_name e :
  lxml_utf8 project_name = inl e ->
  raises (merge_configurations modules project_name ecu_name) e.
Proof.
  intros Hproject. unfold merge_configurations.
  apply raises_bind_r; [apply returns_log_info | intros ?].
  apply raises_bind_r; [apply returns_create_root | intros ?].
  apply raises_bind_r; [apply returns_add_admin_data; reflexivity | intros ?].
  apply raises_bind_l, raises_create_ar_package. exact Hproject.
Qed.

Lemma merge_configurations_raises_ecu modules project_name ecu_name e :
  xml_compatible project_name = true ->
  lxml_utf8 ecu_name = inl e ->
  raises (merge_configurations modules project_name ecu_name) e.
Proof.
  intros Hproject Hecu. unfold merge_configurations.
  apply raises_bind_r; [apply returns_log_info | intros ?].
  apply raises_bind_r; [apply returns_create_root | intros ?].
  apply raises_bind_r; [apply returns_add_admin_data; reflexivity | intros ?].
  apply raises_bind_r;
    [apply returns_create_ar_package; exact Hproject | intros ?].
  apply raises_bind_r; [returns_steps | intros ?].
  apply raises_bind_r; [returns_steps | intros ?].
  apply raises_bind_l, raises_SubElement. exact Hecu.
Qed.

End Returns.


Lemma first_absent_nvm (p : nvm_params) :
  first_absent (nvm_has_key p) ["blockCount"; "blockSize"; "writeStrategy"] =
  nvm_first_missing p.
Proof.
  destruct p as [[n|] [b|] [w|] crc red wear]; reflexivity.
Qed.


(** X18.  The NvM view answers 400 when a required field is absent: the
    error names the first absent one of blockCount, blockSize,
    writeStrategy, and the generator is not run.  Otherwise it answers
    200: the generator is run on the object with crcProtection and
    wearLeveling defaulting to true and redundancy to false, it returns,
    and the body carries its text and the object with the defaults filled
    in.  The view never answers 500. *)
Theorem generate_nvm_config_endpoint_reply {ext : Externals}
    {app : AppExternals} (params : nvm_params) (st : server) :
  let st1 :=
    app_log APP_INFO
      ("Generating NvM config with params: " ++ nvm_params_repr params)%string
      st in
  match nvm_first_missing params with
  | Some field =>
      generate_nvm_config_endpoint params st =
        (Response400 ("Missing required field: " ++ field)%string, st1)
      /\ heap st1 = heap st
  | None =>
      exists arxml h,
        generate_nvm_config (nvm_set_defaults params) (heap st) =
          (inr arxml, h)
        /\ generate_nvm_config_endpoint params st =
           (Response200
              (mk_generation_body true "NvM" arxml (nvm_set_defaults params)
                                  utcnow_isoformat),
            mk_server h (app_logged st1))
        /\ crcProtection (nvm_set_defaults params) =
           Some match crcProtection params with
                | Some false => false | _ => true end
        /\ redundancy (nvm_set_defaults params) =
           Some match redundancy params with
                | Some true => true | _ => false end
        /\ wearLeveling (nvm_set_defaults params) =
           Some match wearLeveling params with
                | Some false => false | _ => true end
  end.
Proof.
  intros st1. unfold generate_nvm_config_endpoint.
  rewrite first_absent_nvm. fold st1.
  destruct (nvm_first_missing params) as [field|] eqn:Hmiss.
  - split; reflexivity.
  - assert (Hd : nvm_first_missing (nvm_set_defaults params) = None)
      by exact Hmiss.
    destruct (generate_nvm_config_returns _ Hd (heap st)) as (arxml & h & E).
    exists arxml, h. split; [exact E|].
    change (heap st1) with (heap st). rewrite E.
    split; [reflexivity|].
    unfold nvm_set_defaults, setdefault.
    cbn [crcProtection redundancy wearLeveling].
    split; [destruct (crcProtection params) as [[]|]; reflexivity|].
    split; [destruct (redundancy params) as [[]|]; reflexivity|].
    destruct (wearLeveling params) as [[]|]; reflexivity.
Qed.

(** X19.  The validation view always answers 200 with the validator's
    report, also for a document the validator finds invalid: an absent
    arxmlContent is validated as the empty text, an absent autosarVersion
    stands for 4.2.2, and a text the parser rejects yields a report that
    is not valid, with one error and a count of zero, under a success flag
    that is true. *)
Theorem validate_config_endpoint_reply {ext : Externals} {app : AppExternals}
    (params : validate_request) (st : server) :
  exists r,
    validate_arxml (get_default (arxmlContent params) "")
                   (get_default (autosarVersion params) "4.2.2") = inr r
    /\ validate_config_endpoint params st =
       (Response200 (mk_validation_body true r utcnow_isoformat),
        app_log APP_INFO "Validating ARXML configuration" st)
    /\ (forall e,
          etree_fromstring (get_default (arxmlContent params) "") = inl e ->
          valid r = false /\ length (errors r) = 1 /\ elementCount r = 0).
Proof.
  unfold validate_config_endpoint.
  destruct (etree_fromstring (get_default (arxmlContent params) ""))
    as [e | root] eqn:Hparse.
  - rewrite (validate_arxml_failed _ _ e Hparse).
    eexists. split; [reflexivity|]. split; [reflexivity|].
    intros e' _. repeat split.
  - rewrite (validate_arxml_parsed _ _ root Hparse).
    eexists. split; [reflexivity|]. split; [reflexivity|].
    intros e' H. discriminate H.
Qed.

(** X20.  The export view runs the merge with an absent modules list
    standing for the empty list, an absent projectName for AutosarProject
    and an absent ecuName for ECU.  When lxml accepts the two names as
    texts, the merge returns whatever the modules hold and the view
    answers 200: the body carries the text, the two names as used, and
    the number of modules given, counting those that were skipped or
    failed to parse.  When lxml refuses the project name, or accepts it
    and refuses the ECU name, the merge raises lxml's error and the view
    answers 500 with the message of that error, and logs it. *)
Theorem export_arxml_endpoint_reply {ext : Externals} {app : AppExternals}
    (params : export_request) (st : server) :
  let mods := get_default (modules params) [] in
  let project_name := get_default (projectName params) "AutosarProject" in
  let ecu_name := get_default (ecuName params) "ECU" in
  let lg :=
    app_logged st
    ++ [(APP_INFO,
         ("Exporting ARXML for project: "
          ++ str_or_None (projectName params))%string)] in
  let refused (e : exn) :=
    exists h,
      merge_configurations mods project_name ecu_name (heap st) = (inl e, h)
      /\ export_arxml_endpoint params st =
         (Response500 (exn_str e) None,
          mk_server h
            (lg ++ [(APP_ERROR,
                     ("Error exporting ARXML: " ++ exn_str e)%string)])) in
  match lxml_utf8 project_name, lxml_utf8 ecu_name with
  | inl e, _ => refused e
  | inr _, inl e => refused e
  | inr _, inr _ =>
      exists arxml h,
        merge_configurations mods project_name ecu_name (heap st) =
          (inr arxml, h)
        /\ export_arxml_endpoint params st =
           (Response200
              (mk_export_body true arxml project_name ecu_name (length mods)
                              utcnow_isoformat),
            mk_server h lg)
  end.
Proof.
  intros mods project_name ecu_name lg refused.
  unfold refused, export_arxml_endpoint.
  fold mods project_name ecu_name. cbn [app_log heap app_logged]. fold lg.
  destruct (lxml_utf8 project_name) as [e|b] eqn:Hproject.
  - destruct (merge_configurations_raises_project mods project_name ecu_name
                e Hproject (heap st)) as (h & E).
    exists h. split; [exact E|]. rewrite E. reflexivity.
  - assert (Hok : xml_compatible project_name = true)
      by (unfold xml_compatible; rewrite Hproject; reflexivity).
    destruct (lxml_utf8 ecu_name) as [e|b'] eqn:Hecu.
    + destruct (merge_configurations_raises_ecu mods project_name ecu_name
                  e Hok Hecu (heap st)) as (h & E).
      exists h. split; [exact E|]. rewrite E. reflexivity.
    + assert (Hok' : xml_compatible ecu_name = true)
        by (unfold xml_compatible; rewrite Hecu; reflexivity).
      destruct (merge_configurations_returns mods project_name ecu_name
                  Hok Hok' (heap st)) as (arxml & h & E).
      exists arxml, h. split; [exact E|]. rewrite E. reflexivity.
Qed.

(** ** The views, run *)

(** A small implementation of [AppExternals]: a fixed clock, a one-line
    traceback, and request objects rendered with their keys in the order
    of the input schema. *)
Module RefApp.

Local Open Scope string_scope.

Definition repr_str (s : string) : string := "'" ++ s ++ "'".

Definition repr_bool (b : bool) : string := if b then "True" else "False".

Definition repr_item {A : Type} (key : string) (render : A -> string)
    (field : option A) : list string :=
  match field with
  | Some v => [repr_str key ++ ": " ++ render v]
  | None => []
  end.

Definition repr_dict (items : list string) : string :=
  "{" ++ Py.join ", " items ++ "}".

Definition can_repr (p : can_params) : string :=
  repr_dict (repr_item "ecuType" repr_str (ecuType p)
             ++ repr_item "baudrate" Py.str (baudrate p)
             ++ repr_item "messageObjects" Py.str (messageObjects p)
             ++ repr_item "errorHandling" repr_bool (errorHandling p)
             ++ repr_item "wakeupSupport" repr_bool (wakeupSupport p))%list.

Definition nvm_repr (p : nvm_params) : string :=
  repr_dict (repr_item "blockCount" Py.str (blockCount p)
             ++ repr_item "blockSize" Py.str (blockSize p)
             ++ repr_item "writeStrategy" repr_str (writeStrategy p)
             ++ repr_item "crcProtection" repr_bool (crcProtection p)
             ++ repr_item "redundancy" repr_bool (redundancy p)
             ++ repr_item "wearLeveling" repr_bool (wearLeveling p))%list.

#[export] Instance externals : AppExternals := {
  utcnow_isoformat := "2024-01-01T00:00:00";
  format_exc := fun e => "Traceback (most recent call last): " ++ exn_str e;
  can_params_repr := can_repr;
  nvm_params_repr := nvm_repr
}.

End RefApp.

Definition new_server : server := mk_server new_store [].

(** Scenario: a request without messageObjects is turned away before
    anything is built. *)
Example generate_can_config_endpoint_missing :
  @generate_can_config_endpoint RefXml.externals RefApp.externals
    can_params_no_count new_server =
  (Response400 "Missing required field: messageObjects",
   mk_server new_store
     [(APP_INFO,
       "Generating CAN config with params: {'ecuType': 'body', 'baudrate': 250}")]).
Proof. reflexivity. Qed.

(** Scenario: a complete request; the defaults appear in the reply. *)
Example generate_can_config_endpoint_ok :
  let reply :=
    fst (@generate_can_config_endpoint RefXml.externals RefApp.externals
           can_params_example new_server) in
  status_code reply = 200%Z
  /\ match reply with
     | Response200 body =>
         g_arxml body = can_text_example
         /\ g_parameters body =
            mk_can_params (Some "powertrain") (Some 500%Z) (Some 2%Z)
                          (Some true) (Some false)
     | _ => False
     end.
Proof. vm_compute. repeat split. Qed.

(** Scenario: a validation request without a document. *)
Example validate_config_endpoint_empty :
  let reply :=
    fst (@validate_config_endpoint RefXml.externals RefApp.externals
           (mk_validate_request None None) new_server) in
  status_code reply = 200%Z
  /\ match reply with
     | Response200 body =>
         v_success body = true /\ valid (v_validation body) = false
     | _ => False
     end.
Proof. vm_compute. repeat split. Qed.

(** Scenario: an export request with nothing but one unreadable module. *)
Example export_arxml_endpoint_defaults :
  let reply :=
    fst (@export_arxml_endpoint RefXml.externals RefApp.externals
           (mk_export_request
              (Some [mk_module (Some "OS") (Some "<not-xml")]) None None)
           new_server) in
  match reply with
  | Response200 body =>
      x_projectName body = "AutosarProject" /\ x_ecuName body = "ECU"
      /\ x_moduleCount body = 1
  | _ => False
  end.
Proof. vm_compute. repeat split. Qed.

(* ===================================================================== *)
(** * Validating a merge without modules *)
(* ===================================================================== *)

Section MergedSkeleton.
Context {ext : Externals}.
Variables (project_name ecu_name : string).

Local Abbreviation doc := (merge_frame project_name ecu_name []).

(** What the validator reads off the merged document once the library has
    read it back. *)
Lemma merged_skeleton_read (doc' : element) :
  reads_back AUTOSAR_NS doc doc' = true ->
  nsmap (data_of doc') = nsmap (data_of doc) ->
  short_names doc' = [read_text (Some project_name); read_text (Some ecu_name)]
  /\ root_errors doc' = []
  /\ structure_warnings doc' = []
  /\ length (descendants doc') = 11.
Proof.
  intros Hrb Hns.
  split; [|split; [|split]].
  - unfold short_names.
    pose proof (read_as_findall AUTOSAR_NS "SHORT-NAME" doc doc' Hrb) as F.
    change (clark AUTOSAR_NS "SHORT-NAME")
      with "{http://autosar.org/schema/r4.0}SHORT-NAME" in F.
    change (findall_desc "SHORT-NAME" doc)
      with [leaf 8 "SHORT-NAME" project_name; leaf 11 "SHORT-NAME" ecu_name]
      in F.
    destruct (findall_desc "{http://autosar.org/schema/r4.0}SHORT-NAME" doc')
      as [|x [|y [|z l]]];
      inversion F as [|? ? ? ? (_ & _ & Hx) F1]; subst;
      inversion F1 as [|? ? ? ? (_ & _ & Hy) F2]; subst;
      inversion F2; subst.
    cbn [map is_empty]. rewrite (Hx eq_refl), (Hy eq_refl). reflexivity.
  - unfold root_errors, root_tag_ok.
    destruct (reads_back_root _ _ _ Hrb) as (_ & Ht & _).
    rewrite Ht. reflexivity.
  - unfold structure_warnings, has_packages.
    pose proof (read_as_findall AUTOSAR_NS "AR-PACKAGES" doc doc' Hrb) as F.
    change (clark AUTOSAR_NS "AR-PACKAGES")
      with "{http://autosar.org/schema/r4.0}AR-PACKAGES" in F.
    destruct (findall_desc "{http://autosar.org/schema/r4.0}AR-PACKAGES" doc');
      [inversion F|].
    cbn [is_empty negb orb].
    unfold default_namespace. rewrite Hns. reflexivity.
  - rewrite <- (Forall2_length (reads_back_descendants _ _ _ Hrb)).
    reflexivity.
Qed.

End MergedSkeleton.

(** The duplicates among two names. *)
Lemma two_names_duplicates (a b : option string) :
  Py.set_of text_eqb
    (filter (fun name => (1 <? Py.count text_eqb [a; b] name)%nat) [a; b]) =
  if text_eqb a b then [a] else [].
Proof.
  assert (Ha : text_eqb a a = true) by (apply text_eqb_eq; reflexivity).
  assert (Hb : text_eqb b b = true) by (apply text_eqb_eq; reflexivity).
  unfold Py.count. cbn [filter]. rewrite Ha, Hb.
  destruct (text_eqb a b) eqn:Eab.
  - apply text_eqb_eq in Eab. subst b. rewrite Ha.
    cbn [filter length Nat.ltb Nat.leb Py.set_of]. rewrite Ha. reflexivity.
  - assert (Eba : text_eqb b a = false).
    { destruct (text_eqb b a) eqn:E; [|reflexivity].
      apply text_eqb_eq in E. subst b. rewrite Ha in Eab. discriminate Eab. }
    rewrite Eba. reflexivity.
Qed.

(** X21. Exporting without modules and validating the result, when lxml
    accepts the project name and the ECU name as texts and the library reads
    back what it wrote: the document has eleven elements below the root and
    no error about its structure; it is valid unless the project name and
    the ECU name are both empty, in which case the two short names read back
    without text and the report carries a validation error; equal names that
    are not empty give the duplicate warning, and distinct names give no
    warning at all. *)
Theorem validate_merged_skeleton {ext : Externals}
    (project_name ecu_name : string) :
  xml_compatible project_name = true ->
  xml_compatible ecu_name = true ->
  exists s,
    merge_configurations [] project_name ecu_name new_store =
      (inr (etree_tostring (merge_frame project_name ecu_name [])), s)
    /\ (parses_back (merge_frame project_name ecu_name []) ->
        exists r,
          validate_arxml
            (etree_tostring (merge_frame project_name ecu_name [])) "4.2.2"
            = inr r
          /\ elementCount r = 11
          /\ (valid r = false <-> project_name = "" /\ ecu_name = "")
          /\ (project_name = "" -> ecu_name = "" ->
              errors r =
              ["Validation error: sequence item 0: expected str instance, NoneType found"])
          /\ (project_name = ecu_name -> project_name <> "" ->
              warnings r =
              [("Duplicate SHORT-NAMEs found: " ++ project_name)%string])
          /\ (project_name <> ecu_name -> warnings r = [])).
Proof.
  intros Hproject Hecu. eexists. split.
  { unfold merge_configurations.
    unfold new_store, create_root, add_admin_data, create_ar_package.
    run_prefix. reflexivity. }
  intros (doc' & Hp & Hrb & Hns).
  change (default_namespace (merge_frame project_name ecu_name []))
    with AUTOSAR_NS in Hrb.
  destruct (merged_skeleton_read project_name ecu_name doc' Hrb Hns)
    as (Hsn & Herr & Hwarn & Hlen).
  rewrite (validate_arxml_parsed _ "4.2.2" _ Hp).
  eexists. split; [reflexivity|].
  unfold parsed_report, duplicates, findall_star.
  rewrite Hsn, Herr, Hwarn, Hlen, two_names_duplicates.
  destruct project_name as [|c1 p1], ecu_name as [|c2 e2];
    cbn [read_text text_eqb].
  - cbn. repeat split; intros; try reflexivity; try (intuition congruence).
  - cbn. repeat split; intros; try reflexivity; try (intuition congruence).
  - cbn. repeat split; intros; try reflexivity; try (intuition congruence).
  - destruct (String.eqb_spec (String c1 p1) (String c2 e2)) as [E | E].
    + rewrite <- E.
      cbn [first_none somes Py.join app
           valid errors warnings elementCount is_empty].
      repeat split; intros; try reflexivity; try (intuition congruence).
    + cbn [valid errors warnings elementCount is_empty].
      repeat split; intros; try reflexivity; try (intuition congruence).
Qed.

Lemma validate_merged_skeleton_witness :
  exists r,
    @validate_arxml RefXml.externals
      (RefXml.tostring (@merge_frame RefXml.externals "" "" [])) "4.2.2"
      = inr r
    /\ elementCount r = 11
    /\ valid r = false
    /\ errors r =
       ["Validation error: sequence item 0: expected str instance, NoneType found"].
Proof.
  destruct (@validate_merged_skeleton RefXml.externals "" "" eq_refl eq_refl)
    as (s & _ & Hval).
  destruct Hval as (r & Hrun & Hcount & Hvalid & Herr & _).
  { eexists. split; [vm_compute; reflexivity|].
    split; vm_compute; reflexivity. }
  exists r. split; [exact Hrun|]. split; [exact Hcount|].
  split; [apply Hvalid; split; reflexivity | exact (Herr eq_refl eq_refl)].
Defined.
